(** * pymcmcstat: Metropolis step, Delayed Rejection and prediction intervals

    A shallow embedding of

      - [pymcmcstat/DelayedRejectionAlgorithm.py]
      - [pymcmcstat/samplers/Metropolis.py]
      - [pymcmcstat/PredictionIntervals.py] (on the shapes of the arrays)

    Numbers are float64 values idealised as extended reals: exact real
    arithmetic on the finite values, with the IEEE special values
    [+inf], [-inf] and [nan] kept, because the code stores [np.inf] in
    parameter sets and divides by a product that can be zero.  Rounding,
    overflow and the sign of zero are not modelled.  The theorems on the
    program are therefore stated on the values as the code computes
    them, operation by operation, and use of the order of numbers only
    what rounding keeps: comparisons with zero and one that hold with a
    margin or are not strict.

    Python exceptions are values of [pyerror]; every function that can
    raise returns a [res]. *)

From Stdlib Require Import Reals Lra Lia ZArith Bool String List.
Import ListNotations.

Local Open Scope Z_scope.

(** ** Exceptions *)

Inductive pyerror : Type :=
| IndexError
| TypeError
| ValueError
| AttributeError
| UnboundLocalError
| SystemExit (msg : string)
| OutOfFuel.

Inductive res (A : Type) : Type :=
| Ok (a : A)
| Err (e : pyerror).

Arguments Ok {A} a.
Arguments Err {A} e.

Definition bind {A B : Type} (m : res A) (k : A -> res B) : res B :=
  match m with
  | Ok a => k a
  | Err e => Err e
  end.

Notation "x <- m ;; k" := (bind m (fun x => k))
  (at level 61, m at next level, right associativity).
Notation "' p <- m ;; k" := (bind m (fun x => match x with p => k end))
  (at level 61, p pattern, m at next level, right associativity).

(** ** Numbers *)

Inductive num : Type :=
| Fin (r : R)
| PInf
| NInf
| NaN.

Module Num.

Definition zero : num := Fin 0%R.
Definition one : num := Fin 1%R.

Definition neg (a : num) : num :=
  match a with
  | Fin r => Fin (- r)%R
  | PInf => NInf
  | NInf => PInf
  | NaN => NaN
  end.

Definition add (a b : num) : num :=
  match a, b with
  | NaN, _ | _, NaN => NaN
  | Fin x, Fin y => Fin (x + y)%R
  | PInf, NInf | NInf, PInf => NaN
  | PInf, _ | _, PInf => PInf
  | NInf, _ | _, NInf => NInf
  end.

Definition sub (a b : num) : num := add a (neg b).

(** The infinity with the sign of [r]; [nan] for [r = 0]. *)
Definition signed_inf (r : R) (pos : bool) : num :=
  if Req_dec_T r 0%R then NaN
  else if Rlt_dec 0%R r then (if pos then PInf else NInf)
       else (if pos then NInf else PInf).

Definition mul (a b : num) : num :=
  match a, b with
  | NaN, _ | _, NaN => NaN
  | Fin x, Fin y => Fin (x * y)%R
  | Fin x, PInf | PInf, Fin x => signed_inf x true
  | Fin x, NInf | NInf, Fin x => signed_inf x false
  | PInf, PInf | NInf, NInf => PInf
  | PInf, NInf | NInf, PInf => NInf
  end.

(** [a ** (-1)] on a numpy float: the reciprocal, [inf] at zero. *)
Definition inv (a : num) : num :=
  match a with
  | Fin r => if Req_dec_T r 0%R then PInf else Fin (/ r)%R
  | PInf | NInf => Fin 0%R
  | NaN => NaN
  end.

(** [np.exp] *)
Definition exp (a : num) : num :=
  match a with
  | Fin r => Fin (Rtrigo_def.exp r)
  | PInf => PInf
  | NInf => Fin 0%R
  | NaN => NaN
  end.

(** [np.sqrt] *)
Definition sqrt (a : num) : num :=
  match a with
  | Fin r => if Rlt_dec r 0%R then NaN else Fin (R_sqrt.sqrt r)
  | PInf => PInf
  | NInf | NaN => NaN
  end.

(** [a < b]; every comparison with [nan] is false. *)
Definition ltb (a b : num) : bool :=
  match a, b with
  | NaN, _ | _, NaN => false
  | Fin x, Fin y => if Rlt_dec x y then true else false
  | NInf, NInf | PInf, _ | _, NInf => false
  | NInf, _ | _, PInf => true
  end.

Definition gtb (a b : num) : bool := ltb b a.

(** [a >= b] *)
Definition geb (a b : num) : bool :=
  match a, b with
  | NaN, _ | _, NaN => false
  | Fin x, Fin y => if Rle_dec y x then true else false
  | PInf, _ | _, NInf => true
  | NInf, _ | _, PInf => false
  end.

(** [a == b] *)
Definition eqb (a b : num) : bool :=
  match a, b with
  | Fin x, Fin y => if Req_dec_T x y then true else false
  | PInf, PInf | NInf, NInf => true
  | _, _ => false
  end.

(** Python's builtin [min(a, b)]: [b] when [b < a], else [a]. *)
Definition pymin (a b : num) : num := if ltb b a then b else a.

(** Python's builtin [sum] over a one-dimensional array: [0 + x0 + x1 + ...]. *)
Definition sum (l : list num) : num := fold_left add l zero.

Definition minus_half : num := Fin (- (1 / 2))%R.

End Num.

(** ** Python sequences *)

Definition len {A : Type} (l : list A) : Z := Z.of_nat (length l).

(** [l[i]], negative indices counting from the end. *)
Definition py_index {A : Type} (l : list A) (i : Z) : res A :=
  let i' := if i <? 0 then i + len l else i in
  if (0 <=? i') && (i' <? len l) then
    match nth_error l (Z.to_nat i') with
    | Some a => Ok a
    | None => Err IndexError
    end
  else Err IndexError.

(** [range(0, n)] *)
Definition py_range (n : Z) : list Z := map Z.of_nat (seq 0 (Z.to_nat n)).

(** [l[start:stop]]: negative bounds count from the end, then both are
    clamped to [0, len l]. *)
Definition py_slice {A : Type} (l : list A) (start stop : Z) : list A :=
  let n := len l in
  let norm i := Z.max 0 (Z.min n (if i <? 0 then i + n else i)) in
  skipn (Z.to_nat (norm start)) (firstn (Z.to_nat (norm stop)) l).

(** [l[start:stop:-1]]: negative bounds count from the end, then both are
    clamped to [-1, len l - 1]; the elements at [start, start-1, ..., stop+1]. *)
Definition py_slice_rev {A : Type} (l : list A) (start stop : Z) : list A :=
  let n := len l in
  let norm i := Z.max (-1) (Z.min (n - 1) (if i <? 0 then i + n else i)) in
  rev (skipn (Z.to_nat (norm stop + 1)) (firstn (Z.to_nat (norm start + 1)) l)).

(** ** numpy values: a scalar or a one-dimensional array *)

Inductive ndval : Type :=
| Sc (x : num)
| Arr (xs : list num).

Module Np.

(** Elementwise operation on two one-dimensional arrays with numpy's
    broadcasting: equal lengths, or one of them of length one. *)
Fixpoint zip_with {B : Type} (f : num -> num -> B) (l1 l2 : list num) : list B :=
  match l1, l2 with
  | x :: l1', y :: l2' => f x y :: zip_with f l1' l2'
  | _, _ => []
  end.

Definition broadcast {B : Type} (f : num -> num -> B) (l1 l2 : list num) : res (list B) :=
  if (length l1 =? length l2)%nat then Ok (zip_with f l1 l2)
  else match l1, l2 with
       | [x], _ => Ok (map (f x) l2)
       | _, [y] => Ok (map (fun x => f x y) l1)
       | _, _ => Err ValueError
       end.

Definition binop (f : num -> num -> num) (a b : ndval) : res ndval :=
  match a, b with
  | Sc x, Sc y => Ok (Sc (f x y))
  | Sc x, Arr l => Ok (Arr (map (f x) l))
  | Arr l, Sc y => Ok (Arr (map (fun x => f x y) l))
  | Arr l1, Arr l2 => l <- broadcast f l1 l2 ;; Ok (Arr l)
  end.

Definition unop (f : num -> num) (a : ndval) : ndval :=
  match a with
  | Sc x => Sc (f x)
  | Arr l => Arr (map f l)
  end.

(** Python's builtin [sum]; a scalar is not iterable. *)
Definition pysum (a : ndval) : res num :=
  match a with
  | Sc _ => Err TypeError
  | Arr l => Ok (Num.sum l)
  end.

(** A matrix is the list of its rows. *)
Definition matrix : Type := list (list num).

Definition ncols (M : matrix) : nat :=
  match M with
  | [] => 0%nat
  | row :: _ => length row
  end.

Definition well_shaped (M : matrix) : bool :=
  forallb (fun row => (length row =? ncols M)%nat) M.

(** [np.dot(v, M)] for a vector [v] of length [n] and an [n x m] matrix:
    entry [j] is [sum_i v_i * M_ij]. *)
Fixpoint dot_rows (v : list num) (M : matrix) (acc : list num) : list num :=
  match v, M with
  | x :: v', row :: M' => dot_rows v' M' (zip_with Num.add acc (map (Num.mul x) row))
  | _, _ => acc
  end.

Definition dot (v : list num) (M : matrix) : res (list num) :=
  if (length v =? length M)%nat && well_shaped M
  then Ok (dot_rows v M (repeat Num.zero (ncols M)))
  else Err ValueError.

(** [np.linalg.norm] of a vector *)
Definition norm (v : list num) : num :=
  Num.sqrt (Num.sum (map (fun x => Num.mul x x) v)).

(** [(a < b).any()] on two arrays *)
Definition any_lt (a b : list num) : res bool :=
  l <- broadcast Num.ltb a b ;;
  Ok (existsb (fun x => x) l).

End Np.

(** [a[idx]] for an integer index array [idx] *)
Fixpoint fancy_index (a : list num) (idx : list Z) : res (list num) :=
  match idx with
  | [] => Ok []
  | i :: idx' =>
      x <- py_index a i ;;
      xs <- fancy_index a idx' ;;
      Ok (x :: xs)
  end.

(** [a.reshape(n)] of an array whose elements are already in order *)
Definition reshape (a : list num) (n : Z) : res (list num) :=
  if len a =? n then Ok a else Err ValueError.

(** ** Data model *)

(** [ParameterSet]: the attributes the samplers read and write.  [ss],
    [prior], [like] and [alpha] are [None] until assigned. *)
Record ParameterSet : Type := mkParameterSet {
  theta : list num;
  ss : option ndval;
  prior : option ndval;
  like : option ndval;
  sigma2 : ndval;
  alpha : option num
}.

Definition set_alpha (a : num) (p : ParameterSet) : ParameterSet :=
  mkParameterSet (theta p) (ss p) (prior p) (like p) (sigma2 p) (Some a).

(** Arithmetic on an attribute that is still [None] raises [TypeError]. *)
Definition need {A : Type} (o : option A) : res A :=
  match o with
  | Some a => Ok a
  | None => Err TypeError
  end.

(** [ModelParameters]: the attributes the samplers read. *)
Record ModelParameters : Type := mkModelParameters {
  npar : Z;
  lower_limits : list num;
  upper_limits : list num;
  parind : list Z;
  initial_value : list num
}.

(** ** The random source and the model collaborators *)

(** One call on [np.random]. *)
Inductive rng_call : Type :=
| Randn (n : Z)        (* np.random.randn(1, n) *)
| Rand.                (* np.random.rand(1) *)

(** A seeded generator is a function of the calls made so far:
    [randn_at h j] is component [j] of the normal vector drawn after the
    calls [h], [rand_at h] the uniform number drawn after [h]. *)
Record RandomSource : Type := mkRandomSource {
  randn_at : list rng_call -> nat -> num;
  rand_at : list rng_call -> num
}.

(** One call on a collaborator, with its argument. *)
Inductive model_call : Type :=
| CallPrior (th : list num)          (* prior_object.evaluate_prior *)
| CallLikelihood (th : list num)     (* like_object.evaluate_likelihood *)
| CallSos (th : list num)            (* sos_object.evaluate_sos_function *)
| CallLikeSos (q : list num).        (* like_object.evaluate_sos_function *)

(** The collaborators are pure functions of the parameter vector. *)
Record SumOfSquares : Type := mkSumOfSquares {
  sos_evaluate_sos_function : list num -> ndval
}.

Record PriorFunction : Type := mkPriorFunction {
  evaluate_prior : list num -> ndval
}.

Record LikelihoodFunction : Type := mkLikelihoodFunction {
  evaluate_likelihood : list num -> ndval;
  like_evaluate_sos_function : list num -> ndval
}.

(** What a step can change outside its local variables: the calls made
    on the random source and on the collaborators (oldest first), and the
    two counters of the Delayed Rejection object. *)
Record World : Type := mkWorld {
  rng_calls : list rng_call;
  model_calls : list model_call;
  iacce : list Z;
  dr_step_counter : Z
}.

Definition log_rng (c : rng_call) (w : World) : World :=
  mkWorld (rng_calls w ++ [c]) (model_calls w) (iacce w) (dr_step_counter w).

Definition log_model (c : model_call) (w : World) : World :=
  mkWorld (rng_calls w) (model_calls w ++ [c]) (iacce w) (dr_step_counter w).

Definition set_dr_step_counter (c : Z) (w : World) : World :=
  mkWorld (rng_calls w) (model_calls w) (iacce w) c.

Definition set_iacce (l : list Z) (w : World) : World :=
  mkWorld (rng_calls w) (model_calls w) l (dr_step_counter w).

(** [np.random.randn(1, n)], as the vector of its [n] entries *)
Definition randn (rng : RandomSource) (n : Z) (w : World) : res (list num * World) :=
  if n <? 0 then Err ValueError
  else Ok (map (randn_at rng (rng_calls w)) (seq 0 (Z.to_nat n)),
           log_rng (Randn n) w).

(** [np.random.rand(1)] *)
Definition rand (rng : RandomSource) (w : World) : num * World :=
  (rand_at rng (rng_calls w), log_rng Rand w).

(** [(theta < lower[parind[:]]).any() or (theta > upper[parind[:]]).any()] *)
Definition outside_bounds (th : list num) (parameters : ModelParameters) : res bool :=
  lo <- fancy_index (lower_limits parameters) (parind parameters) ;;
  below <- Np.any_lt th lo ;;
  if below then Ok true
  else
    up <- fancy_index (upper_limits parameters) (parind parameters) ;;
    Np.any_lt up th.

(** [l[i] += 1] *)
Definition py_incr (l : list Z) (i : Z) : res (list Z) :=
  x <- py_index l i ;;
  let i' := Z.to_nat (if i <? 0 then i + len l else i) in
  Ok (firstn i' l ++ (x + 1) :: skipn (S i') l).

(** ** The Delayed Rejection acceptance probability *)

Module DelayedRejectionAlgorithm.

(** [logposteriorratio(x1, x2)] *)
Definition logposteriorratio (x1 x2 : ParameterSet) : res num :=
  ss2 <- need (ss x2) ;;
  t2 <- Np.binop Num.mul ss2 (Np.unop Num.inv (sigma2 x2)) ;;
  ss1 <- need (ss x1) ;;
  t1 <- Np.binop Num.mul ss1 (Np.unop Num.inv (sigma2 x1)) ;;
  d <- Np.binop Num.sub t2 t1 ;;
  s <- Np.pysum d ;;
  p2 <- need (prior x2) ;;
  a <- Np.binop Num.add (Sc s) p2 ;;
  p1 <- need (prior x1) ;;
  b <- Np.binop Num.sub a p1 ;;
  Np.pysum (Np.unop (Num.mul Num.minus_half) b).

(** [qfun(iq, trypath, invR)] *)
Definition qfun (iq : Z) (trypath : list ParameterSet) (invR : list Np.matrix) : res num :=
  let stage := len trypath - 1 - 1 in
  if stage =? iq then Ok Num.zero
  else
    iR <- py_index invR iq ;;
    p1 <- py_index trypath 0 ;;
    p2 <- py_index trypath (iq + 1) ;;
    p3 <- py_index trypath (stage + 1) ;;
    p4 <- py_index trypath (stage - iq) ;;
    d43 <- Np.broadcast Num.sub (theta p4) (theta p3) ;;
    v43 <- Np.dot d43 iR ;;
    let n43 := Np.norm v43 in
    d21 <- Np.broadcast Num.sub (theta p2) (theta p1) ;;
    v21 <- Np.dot d21 iR ;;
    let n21 := Np.norm v21 in
    Ok (Num.mul Num.minus_half (Num.sub (Num.mul n43 n43) (Num.mul n21 n21))).

(** The outcome of the first loop of [alphafun]: the early [return] of
    zero, or the two products. Both carry [dr_step_counter]. *)
Inductive loop_out : Type :=
| Break (cnt : Z)
| Continue (a1 a2 : num) (cnt : Z).

Section AlphaLoops.

Variable rec : list ParameterSet -> Z -> res (num * Z).
Variable trypath : list ParameterSet.
Variable invR : list Np.matrix.

(** [for k in range(0, stage-1)] with [rec] for the recursive call *)
Fixpoint alpha_loop (stage : Z) (ks : list Z) (a1 a2 : num) (cnt : Z) : res loop_out :=
  match ks with
  | [] => Ok (Continue a1 a2 cnt)
  | k :: ks' =>
      '(tmp1, cnt) <- rec (py_slice trypath 0 (k + 2)) cnt ;;
      let a1 := Num.mul a1 (Num.sub Num.one tmp1) in
      '(tmp2, cnt) <- rec (py_slice_rev trypath stage (stage - k - 2)) cnt ;;
      let a2 := Num.mul a2 (Num.sub Num.one tmp2) in
      if Num.eqb a2 Num.zero then Ok (Break cnt)
      else alpha_loop stage ks' a1 a2 cnt
  end.

(** [for k in range(stage): y = y + self.qfun(k, trypath, invR)] *)
Fixpoint q_loop (ks : list Z) (y : num) : res num :=
  match ks with
  | [] => Ok y
  | k :: ks' =>
      q <- qfun k trypath invR ;;
      q_loop ks' (Num.add y q)
  end.

End AlphaLoops.

(** [alphafun(trypath, invR)], threading [self.dr_step_counter].  The
    recursive calls are on slices shorter than [trypath]; [fuel] bounds
    their nesting. *)
Fixpoint alphafun_fuel (fuel : nat) (invR : list Np.matrix)
         (trypath : list ParameterSet) (cnt : Z) : res (num * Z) :=
  match fuel with
  | O => Err OutOfFuel
  | S fuel' =>
      let cnt := cnt + 1 in
      let stage := len trypath - 1 in
      out <- alpha_loop (alphafun_fuel fuel' invR) trypath
                        stage (py_range (stage - 1)) Num.one Num.one cnt ;;
      match out with
      | Break cnt => Ok (Num.zero, cnt)
      | Continue a1 a2 cnt =>
          x1 <- py_index trypath 0 ;;
          x2 <- py_index trypath (-1) ;;
          y <- logposteriorratio x1 x2 ;;
          y <- q_loop trypath invR (py_range stage) y ;;
          Ok (Num.pymin Num.one
                (Num.mul (Num.mul (Num.exp y) a2) (Num.inv a1)), cnt)
      end
  end.

Definition alphafun (trypath : list ParameterSet) (invR : list Np.matrix)
           (cnt : Z) : res (num * Z) :=
  alphafun_fuel (S (length trypath)) invR trypath cnt.


(** The local variables of [run_delayed_rejection] that live across
    iterations; [out_set] and [outbound] are unbound until assigned. *)
Record Vars : Type := mkVars {
  trypath : list ParameterSet;
  itry : Z;
  accept : Z;
  out_set : option ParameterSet;
  outbound : option Z
}.

Section Run.

Variable rng : RandomSource.
Variables old_set new_set : ParameterSet.
Variable RDR : list Np.matrix.
Variable ntry : Z.
Variable parameters : ModelParameters.
Variable invR : list Np.matrix.
Variable sosobj : SumOfSquares.
Variable priorobj : PriorFunction.

(** The candidate of a stage: lines 23-27. *)
Definition propose (itry : Z) (w : World) : res (list num * World) :=
  '(u, w) <- randn rng (npar parameters) w ;;
  R <- py_index RDR (itry - 1) ;;
  step <- Np.dot u R ;;
  th <- Np.broadcast Num.add (theta old_set) step ;;
  th <- reshape th (npar parameters) ;;
  Ok (th, w).

(** One iteration of the [while] loop. *)
Definition dr_stage (v : Vars) (w : World) : res (Vars * World) :=
  let itry := itry v + 1 in
  '(th, w) <- propose itry w ;;
  outside <- outside_bounds th parameters ;;
  if outside then
    let next_set :=
      mkParameterSet th (Some (Sc PInf)) (Some (Sc Num.zero)) None (sigma2 new_set)
                     (Some Num.zero) in
    Ok (mkVars (trypath v ++ [next_set]) itry (accept v) (Some old_set) (Some 1), w)
  else
    let s := sos_evaluate_sos_function sosobj th in
    let w := log_model (CallSos th) w in
    let p := evaluate_prior priorobj th in
    let w := log_model (CallPrior th) w in
    let next_set := mkParameterSet th (Some s) (Some p) None (sigma2 new_set) None in
    let path := trypath v ++ [next_set] in
    '(a, cnt) <- alphafun path invR (dr_step_counter w) ;;
    let w := set_dr_step_counter cnt w in
    let next_set := set_alpha a next_set in
    let path := trypath v ++ [next_set] in
    if Num.geb a Num.one then
      acc <- py_incr (iacce w) (itry - 1) ;;
      Ok (mkVars path itry 1 (Some next_set) (Some 0), set_iacce acc w)
    else
      let '(r, w) := rand rng w in
      if Num.ltb r a then
        acc <- py_incr (iacce w) (itry - 1) ;;
        Ok (mkVars path itry 1 (Some next_set) (Some 0), set_iacce acc w)
      else
        Ok (mkVars path itry (accept v) (Some old_set) (Some 0), w).

(** [while accept == 0 and itry < ntry] *)
Fixpoint dr_loop (fuel : nat) (v : Vars) (w : World) : res (Vars * World) :=
  if (accept v =? 0) && (itry v <? ntry) then
    match fuel with
    | O => Err OutOfFuel
    | S fuel' =>
        '(v, w) <- dr_stage v w ;;
        dr_loop fuel' v w
    end
  else Ok (v, w).

(** The function up to its [return]: the local variables when the loop
    ends. The loop runs at most [ntry - 1] times. *)
Definition run_loop (w : World) : res (Vars * World) :=
  dr_loop (Z.to_nat (ntry - 1))
       (mkVars [old_set; new_set] 1 0 None None) w.

(** [return accept, out_set, outbound] *)
Definition ret (v : Vars) : res (Z * ParameterSet * Z) :=
  match out_set v with
  | None => Err UnboundLocalError
  | Some o =>
      match outbound v with
      | None => Err UnboundLocalError
      | Some b => Ok (accept v, o, b)
      end
  end.

Definition run_delayed_rejection (w : World) : res ((Z * ParameterSet * Z) * World) :=
  '(v, w) <- run_loop w ;;
  r <- ret v ;;
  Ok (r, w).

End Run.

End DelayedRejectionAlgorithm.

(** ** The single-stage Metropolis step *)

Module Utilities.

(** Modelled from the spec: [sample_candidate_from_gaussian_proposal] of
    [samplers/utilities.py] is not part of the sources at hand.  Spec 4.1:
    draw a vector of [npar] standard-normal variates [u] and return
    [current + u.R] reshaped to length [npar], together with [u]. *)
Definition sample_candidate_from_gaussian_proposal (rng : RandomSource)
    (npar : Z) (oldpar : list num) (R : Np.matrix) (w : World)
  : res ((list num * list num) * World) :=
  '(u, w) <- randn rng npar w ;;
  step <- Np.dot u R ;;
  th <- Np.broadcast Num.add oldpar step ;;
  th <- reshape th npar ;;
  Ok ((th, u), w).

(** Modelled from the spec: [is_sample_outside_bounds] of
    [samplers/utilities.py].  Spec 4.1: out of bounds if any component is
    strictly less than its lower limit or strictly greater than its upper
    limit. *)
Definition is_sample_outside_bounds (th lower upper : list num) : res bool :=
  below <- Np.any_lt th lower ;;
  if below then Ok true else Np.any_lt upper th.

(** Modelled from the spec: [set_outside_bounds] of
    [samplers/utilities.py].  Spec 4.2 step 2: [ss = +infinity],
    [prior = 0], [alpha = 0], and the out-of-bounds flag raised. *)
Definition set_outside_bounds (next_set : ParameterSet) : ParameterSet * Z :=
  (mkParameterSet (theta next_set) (Some (Sc PInf)) (Some (Sc Num.zero)) (like next_set)
                  (sigma2 next_set) (Some Num.zero), 1).

(** Modelled from the spec: [acceptance_test] of [samplers/utilities.py].
    Spec 4.2 step 5: accept if [alpha >= 1] or a uniform draw is
    [< alpha]; the draw is made only when the first test fails, as in the
    test of the Delayed Rejection loop, which the spec calls identical in
    form. *)
Definition acceptance_test (rng : RandomSource) (a : num) (w : World) : bool * World :=
  if Num.geb a Num.one then (true, w)
  else let '(r, w) := rand rng w in (Num.ltb r a, w).

End Utilities.

(** [q[idx] = vals] on a copy of [q] *)
Fixpoint assign_each (q : list num) (idx : list Z) (vals : list num) : res (list num) :=
  match idx, vals with
  | i :: idx', x :: vals' =>
      _ <- py_index q i ;;
      let i' := Z.to_nat (if i <? 0 then i + len q else i) in
      assign_each (firstn i' q ++ x :: skipn (S i') q) idx' vals'
  | _, _ => Ok q
  end.

Definition fancy_assign (q : list num) (idx : list Z) (vals : list num) : res (list num) :=
  if (length idx =? length vals)%nat then assign_each q idx vals
  else match vals with
       | [x] => assign_each q idx (repeat x (length idx))
       | _ => Err ValueError
       end.

Module Metropolis.

Import Utilities.

(** [evaluate_likelihood_function(ss1, ss2, sigma2, newprior, oldprior)] *)
Definition evaluate_likelihood_function (ss1 ss2 sigma2 newprior oldprior : ndval)
  : res num :=
  d <- Np.binop Num.sub ss1 ss2 ;;
  t <- Np.binop Num.mul d (Np.unop Num.inv sigma2) ;;
  s <- Np.pysum t ;;
  a <- Np.binop Num.add (Sc s) newprior ;;
  b <- Np.binop Num.sub a oldprior ;;
  Np.pysum (Np.unop Num.exp (Np.unop (Num.mul Num.minus_half) b)).

(** [run_metropolis_step(old_set, parameters, R, prior_object,
    like_object, sos_object)]; [sos_object] defaults to [None]. The
    result is [(accept, newset, outbound, npar_sample_from_normal)]. *)
Definition run_metropolis_step (rng : RandomSource)
    (old_set : ParameterSet) (parameters : ModelParameters) (R : Np.matrix)
    (prior_object : PriorFunction) (like_object : LikelihoodFunction)
    (sos_object : option SumOfSquares) (w : World)
  : res ((bool * ParameterSet * Z * list num) * World) :=
  let oldpar := theta old_set in
  let ss := ss old_set in
  let oldprior := prior old_set in
  let sigma2 := sigma2 old_set in
  '((newpar, npar_sample_from_normal), w) <-
     sample_candidate_from_gaussian_proposal rng (npar parameters) oldpar R w ;;
  lo <- fancy_index (lower_limits parameters) (parind parameters) ;;
  up <- fancy_index (upper_limits parameters) (parind parameters) ;;
  outsidebounds <- is_sample_outside_bounds newpar lo up ;;
  if outsidebounds then
    let newset := mkParameterSet newpar None None None sigma2 None in
    let '(newset, outbound) := set_outside_bounds newset in
    Ok ((false, newset, outbound, npar_sample_from_normal), w)
  else
    let newprior := evaluate_prior prior_object newpar in
    let w := log_model (CallPrior newpar) w in
    let newlike := evaluate_likelihood like_object newpar in
    let w := log_model (CallLikelihood newpar) w in
    let ss2 := ss in
    sos <- match sos_object with
           | Some o => Ok o
           | None => Err AttributeError
           end ;;
    let ss1 := sos_evaluate_sos_function sos newpar in
    let w := log_model (CallSos newpar) w in
    q <- fancy_assign (initial_value parameters) (parind parameters) newpar ;;
    let ss1 := like_evaluate_sos_function like_object q in
    let w := log_model (CallLikeSos q) w in
    ss2 <- need ss2 ;;
    oldprior <- need oldprior ;;
    a <- evaluate_likelihood_function ss1 ss2 sigma2 newprior oldprior ;;
    let '(accept, w) := acceptance_test rng a w in
    let newset :=
      mkParameterSet newpar (Some ss1) (Some newprior) (Some newlike) sigma2 (Some a) in
    Ok ((accept, newset, 0, npar_sample_from_normal), w).

End Metropolis.

(** ** Prediction intervals: control flow and random draws *)

Module PredictionIntervals.

(** The contents of the arrays do not influence which statements of
    [generate_prediction_intervals] run, nor the calls it makes on the
    random source; an array is modelled by its shape.  The model function
    is an external collaborator: every evaluation is recorded, and the
    shape of the array it returns is a function of the data set and of
    the calls made before.  The dimensions kept in [nrow] and [ncol] are
    those of arrays, so [np.zeros([nsample, nrow[ii], ncol[ii]])]
    succeeds; the assignment of the chain row to [theta[parind]] is
    taken to succeed as well, and [s2chain] to have a row for every row
    of the chain.  [interp1d] of scipy is a collaborator
    too: it raises [ValueError] when it is given fewer points than its
    linear kind needs, a number that changed between releases and is the
    parameter [interp_min] here. *)
Definition shape : Type := list Z.

Inductive event : Type :=
| RandUniform (rows cols : Z)    (* np.random.rand(rows, cols) *)
| StandardNormal (sh : shape)    (* np.random.standard_normal(sh) *)
| ModelEval (ii : Z).            (* self.modelfunction(self.datapred[ii], th) *)

(** A computation that appends to the trace of events and may raise; the
    trace is kept when it raises. *)
Definition PM (A : Type) : Type := list event -> list event * res A.

Definition pret {A : Type} (a : A) : PM A := fun t => (t, Ok a).

Definition pbind {A B : Type} (m : PM A) (k : A -> PM B) : PM B :=
  fun t =>
    match m t with
    | (t', Ok a) => k a t'
    | (t', Err e) => (t', Err e)
    end.

Definition lift {A : Type} (r : res A) : PM A := fun t => (t, r).

Definition emit (e : event) : PM unit := fun t => (t ++ [e], Ok tt).

Definition sys_exit {A : Type} (msg : string) : PM A :=
  fun t => (t, Err (SystemExit msg)).

Notation "x <~ m ;; k" := (pbind m (fun x => k))
  (at level 61, m at next level, right associativity).
Notation "' p <~ m ;; k" := (pbind m (fun x => match x with p => k end))
  (at level 61, p pattern, m at next level, right associativity).

(** [for k in ks: body(k)] *)
Fixpoint pfor (ks : list Z) (body : Z -> PM unit) : PM unit :=
  match ks with
  | [] => pret tt
  | k :: ks' => _ <~ body k ;; pfor ks' body
  end.

(** [a, b = sh] *)
Definition unpack2 (sh : shape) : res (Z * Z) :=
  match sh with
  | [a; b] => Ok (a, b)
  | _ => Err ValueError
  end.

Definition size (sh : shape) : Z := fold_right Z.mul 1 sh.

(** The attributes of the object that [generate_prediction_intervals]
    reads; [s2chain_index] is bound only when [_analyze_s2chain] ran. *)
Record Object : Type := mkObject {
  chain : shape;
  s2chain : option shape;
  sstype_attr : Z;
  ndatapred : Z;
  nrow : list Z;
  ncol : list Z;
  s2chain_index : option (list (Z * Z));
  modelfunction : list event -> Z -> shape
}.

(** [self.modelfunction(self.datapred[ii], th)]: the call is recorded;
    the shape of its result may depend on the calls made before. *)
Definition call_model (f : list event -> Z -> shape) (ii : Z) : PM shape :=
  fun t => (t ++ [ModelEval ii], Ok (f t ii)).

(** [y.reshape(r, c)] for dimensions that are not negative. *)
Definition reshape2 (sh : shape) (r c : Z) : res shape :=
  if size sh =? r * c then Ok [r; c] else Err ValueError.

(** How [iisample[kk]] indexes a row: an [int] taken from [range(nsimu)],
    or a one-element array taken from the sampled index column. *)
Inductive row_index : Type :=
| IntIndex
| ArrayIndex.

(** The length of [a[start:stop]] along an axis of length [n]. *)
Definition slice_length (n start stop : Z) : Z :=
  let norm i := Z.max 0 (Z.min n (if i <? 0 then i + n else i)) in
  Z.max 0 (norm stop - norm start).

(** The shape of [s2chain[iisample[kk], start:stop]]. *)
Definition s2elem_shape (s2 : shape) (ix : row_index) (start stop : Z) : res shape :=
  '(_, n) <- unpack2 s2 ;;
  match ix with
  | IntIndex => Ok [slice_length n start stop]
  | ArrayIndex => Ok [1; slice_length n start stop]
  end.

(** The shape of [a * b] for two-dimensional [a] and [b]. *)
Definition broadcast_dim (a b : Z) : res Z :=
  if a =? b then Ok a
  else if a =? 1 then Ok b
  else if b =? 1 then Ok a
  else Err ValueError.

(** [ypred + np.matmul(np.random.standard_normal(ypred.shape),
    np.diagflat(np.sqrt(s2elem))).reshape(ypred.shape)], common to the
    three known values of [sstype]. *)
Definition noisy (ypred s2elem : shape) (my ny : Z) : PM shape :=
  _ <~ emit (StandardNormal ypred) ;;
  if ny =? size s2elem then pret ypred else lift (Err ValueError).

(** [_observation_sample(s2elem, ypred, sstype)] *)
Definition _observation_sample (s2elem ypred : shape) (sstype : Z) : PM shape :=
  '(my, ny) <~ lift (unpack2 ypred) ;;
  '(ms, ns) <~ lift (unpack2 s2elem) ;;
  s2elem <~ (if negb (ns =? ny) && (ns =? 1) then
               r <~ lift (broadcast_dim ms ny) ;; pret [r; 1]
             else if negb (ns =? ny) && negb (ns =? 1) then
               sys_exit "Unclear data structure: error variances do not match size of model output"
             else pret s2elem) ;;
  if sstype =? 0 then noisy ypred s2elem my ny
  else if sstype =? 1 then noisy ypred s2elem my ny
  else if sstype =? 2 then noisy ypred s2elem my ny
  else sys_exit "Unknown sstype".

(** The body of [for kk in xrange(nsample)]. *)
Definition sample_once (o : Object) (s2chain : option shape) (sstype : Z)
           (ix : row_index) (ii : Z) (nr nc : Z) : PM unit :=
  y <~ call_model (modelfunction o) ii ;;
  ypred <~ lift (reshape2 y nr nc) ;;
  match s2chain with
  | Some s2 =>
      idx <~ lift (match s2chain_index o with
                   | Some idx => Ok idx
                   | None => Err AttributeError
                   end) ;;
      '(start, stop) <~ lift (py_index idx ii) ;;
      s2elem <~ lift (s2elem_shape s2 ix start stop) ;;
      _ <~ _observation_sample s2elem ypred sstype ;;
      pret tt
  | None => pret tt
  end.

(** [_empirical_quantiles(x, p)] for [x] of shape [sh] and [np] limits:
    [interp1d(range(n), np.sort(x, 0), axis=0)] evaluated at the points
    [(n-1)*p], which lie between the first and the last of its points. *)
Definition _empirical_quantiles (interp_min : Z) (sh : shape) (np : Z) : PM shape :=
  '(n, m) <~ lift (unpack2 sh) ;;
  if n <? interp_min then lift (Err ValueError) else pret [np; m].

(** The body of [for jj in xrange(self.__ncol[ii])]: the quantiles of
    [ysave[:,:,jj]] and, with error variances, of [osave[:,:,jj]]. *)
Definition quantile_column (interp_min : Z) (s2chain : option shape)
           (nsample nr : Z) : PM unit :=
  let nlims := match s2chain with
               | None => 9
               | Some _ => 3
               end in
  _ <~ _empirical_quantiles interp_min [nsample; nr] nlims ;;
  match s2chain with
  | Some _ => _ <~ _empirical_quantiles interp_min [nsample; nr] nlims ;; pret tt
  | None => pret tt
  end.

(** [generate_prediction_intervals(sstype, nsample, calc_pred_int)];
    [calc_pred_int_on] tells whether [calc_pred_int] is ['on']. *)
Definition generate_prediction_intervals (interp_min : Z) (o : Object)
           (sstype : option Z) (nsample : option Z) (calc_pred_int_on : bool)
  : PM unit :=
  let s2chain := if calc_pred_int_on then s2chain o else None in
  '(nsimu, npar) <~ lift (unpack2 (chain o)) ;;
  let sstype := match sstype with
                | None => sstype_attr o
                | Some _ => 0
                end in
  let nsample := match nsample with
                 | None => nsimu
                 | Some n => n
                 end in
  '(ix, nsample) <~ (if nsample >=? nsimu then pret (IntIndex, nsimu)
                     else
                       _ <~ (if nsample <? 0 then lift (Err ValueError) else pret tt) ;;
                       _ <~ emit (RandUniform nsample 1) ;;
                       pret (ArrayIndex, nsample)) ;;
  pfor (py_range (ndatapred o))
       (fun ii =>
          nr <~ lift (py_index (nrow o) ii) ;;
          nc <~ lift (py_index (ncol o) ii) ;;
          _ <~ pfor (py_range nsample)
                    (fun kk => sample_once o s2chain sstype ix ii nr nc) ;;
          pfor (py_range nc)
               (fun jj => quantile_column interp_min s2chain nsample nr)).

(** What [setup_prediction_interval_calculation] reads: the shapes of the
    data sets, of [results['chain']] and [results['s2chain']], the entry
    [results['sstype']] when the key is there, and the model function,
    of which only the shape of the output matters. *)
Record Setup : Type := mkSetup {
  dshapes : list shape;
  results_chain : shape;
  results_s2chain : option shape;
  results_sstype : option Z;
  model_output : list event -> Z -> shape
}.

(** [self.__s2chain_index[ii,:] = np.array([a, b])] *)
Definition set_row (idx : list (Z * Z)) (ii : Z) (row : Z * Z) : list (Z * Z) :=
  firstn (Z.to_nat ii) idx ++ row :: skipn (S (Z.to_nat ii)) idx.

(** The two loops of [_analyze_s2chain] that chain the column ranges;
    [width ii] is the number of columns of batch [ii]. *)
Fixpoint chain_rows (iis : list Z) (width : Z -> res Z) (idx : list (Z * Z))
  : res (list (Z * Z)) :=
  match iis with
  | [] => Ok idx
  | ii :: iis' =>
      w <- width ii ;;
      if ii =? 1 then chain_rows iis' width (set_row idx ii (0, w))
      else
        '(_, prev) <- py_index idx (ii - 1) ;;
        chain_rows iis' width (set_row idx ii (prev, prev + w))
  end.

(** [_analyze_s2chain()] *)
Definition _analyze_s2chain (s2 : shape) (ndatabatches : Z) (ncol : list Z)
  : PM (list (Z * Z)) :=
  '(m, n) <~ lift (unpack2 s2) ;;
  let total_columns := fold_left Z.add ncol 0 in
  let zeros := repeat (0, 0) (Z.to_nat ndatabatches) in
  if n =? 1 then
    pret (map (fun _ => (0, 1)) zeros)
  else if total_columns =? n then
    lift (chain_rows (py_range ndatabatches) (py_index ncol) zeros)
  else if n =? ndatabatches then
    lift (chain_rows (py_range ndatabatches) (fun _ => Ok 1) zeros)
  else
    sys_exit "Unclear data structure: error variances do not match size of model output".

(** [nrows.append(dshapes[ii][0])] and the matching [ncols] *)
Definition data_dims (dshapes : list shape) (ii : Z) : res (Z * Z) :=
  d <- py_index dshapes ii ;;
  r <- py_index d 0 ;;
  d0 <- py_index dshapes 0 ;;
  if negb (len d0 =? 1) then c <- py_index d 1 ;; Ok (r, c)
  else Ok (r, 1).

(** [self.__nrow.append(sh[0])] and the matching [self.__ncol] *)
Definition output_dims (sh : shape) : res (Z * Z) :=
  if len sh =? 1 then r <- py_index sh 0 ;; Ok (r, 1)
  else r <- py_index sh 0 ;; c <- py_index sh 1 ;; Ok (r, c).

Fixpoint collect (iis : list Z) (f : Z -> PM (Z * Z)) : PM (list Z * list Z) :=
  match iis with
  | [] => pret ([], [])
  | ii :: iis' =>
      '(r, c) <~ f ii ;;
      '(rs, cs) <~ collect iis' f ;;
      pret (r :: rs, c :: cs)
  end.

(** [setup_prediction_interval_calculation(results, data, modelfunction)] *)
Definition setup_prediction_interval_calculation (s : Setup) : PM Object :=
  let ndatabatches := len (dshapes s) in
  _ <~ collect (py_range ndatabatches) (fun ii => lift (data_dims (dshapes s) ii)) ;;
  let sstype := match results_sstype s with
                | Some v => v
                | None => 0
                end in
  '(nrow, ncol) <~ collect (py_range ndatabatches)
                     (fun ii => y <~ call_model (model_output s) ii ;;
                                lift (output_dims y)) ;;
  idx <~ match results_s2chain s with
         | Some s2 => i <~ _analyze_s2chain s2 ndatabatches ncol ;; pret (Some i)
         | None => pret None
         end ;;
  pret (mkObject (results_chain s) (results_s2chain s) sstype ndatabatches
                 nrow ncol idx (model_output s)).

End PredictionIntervals.

(** ** Inputs used in the examples *)

Module Examples.

(** A state with one parameter, one residual sum, prior value zero and
    error variance one. *)
Definition state (th s : R) : ParameterSet :=
  mkParameterSet [Fin th] (Some (Arr [Fin s])) (Some (Arr [Fin 0%R])) None
                 (Arr [Fin 1%R]) None.

(** The sum of squares grows along the path: going back from the last
    state to the one before is accepted for sure. *)
Definition rising_path : list ParameterSet :=
  [state 0 0; state 1 1; state 2 2].

(** The first candidate is better than the current state, the second
    candidate better still. *)
Definition falling_path : list ParameterSet :=
  [state 0 3; state 1 1; state 2 0].

Definition identity1 : Np.matrix := [[Fin 1%R]].

(** One sampled parameter, confined to [[-5, 5]]. *)
Definition box : ModelParameters :=
  mkModelParameters 1 [Fin (-5)%R] [Fin 5%R] [0] [Fin 0%R].

(** A generator whose normal draws are all [u] and whose uniform draws
    are all [v]. *)
Definition constant_rng (u v : R) : RandomSource :=
  mkRandomSource (fun _ _ => Fin u) (fun _ => Fin v).

(** Collaborators that return the same sum of squares [s] and the prior
    value zero everywhere. *)
Definition flat_sos (s : R) : SumOfSquares := mkSumOfSquares (fun _ => Arr [Fin s]).
Definition flat_prior : PriorFunction := mkPriorFunction (fun _ => Arr [Fin 0%R]).
Definition flat_like (s : R) : LikelihoodFunction :=
  mkLikelihoodFunction (fun _ => Arr [Fin 0%R]) (fun _ => Arr [Fin s]).

(** Proposal factors of two stages, the second one halved, and their
    inverses. *)
Definition RDR2 : list Np.matrix := [identity1; [[Fin (1 / 2)%R]]].
Definition invR2 : list Np.matrix := [identity1; [[Fin 2%R]]].

(** Nothing called yet, two acceptance counters at zero. *)
Definition fresh : World := mkWorld [] [] [0; 0] 0.

(** The candidate [theta = 1] with sum of squares 14, as the Metropolis
    step returns it when the current state has sum of squares 10. *)
Definition worse_candidate : ParameterSet :=
  mkParameterSet [Fin 1%R] (Some (Arr [Fin 14%R])) (Some (Arr [Fin 0%R]))
                 (Some (Arr [Fin 0%R])) (Arr [Fin 1%R]) (Some (Fin (exp (- 2)))).

(** The calls of a Metropolis step that evaluates the candidate
    [theta = 1] and draws for the acceptance test. *)
Definition after_rejection : World :=
  mkWorld [Randn 1; Rand]
          [CallPrior [Fin 1%R]; CallLikelihood [Fin 1%R]; CallSos [Fin 1%R];
           CallLikeSos [Fin 1%R]]
          [0; 0] 0.

(** One data set of five observations in one column, a chain of ten
    rows with one error variance each, and [results['sstype'] = 3]. *)
Definition pi_setup : PredictionIntervals.Setup :=
  PredictionIntervals.mkSetup [[5; 1]] [10; 2] (Some [10; 1]) (Some 3)
                              (fun _ _ => [5; 1]).

(** The object that the setup above leaves behind. *)
Definition pi_object : PredictionIntervals.Object :=
  PredictionIntervals.mkObject [10; 2] (Some [10; 1]) 3 1 [5] [1] (Some [(0, 1)])
                               (fun _ _ => [5; 1]).

(** The second-stage candidate [theta = 1/2] with sum of squares 9,
    before and after its alpha is recorded. *)
Definition better_candidate (a : option num) : ParameterSet :=
  mkParameterSet [Fin (1 / 2)%R] (Some (Arr [Fin 9%R])) (Some (Arr [Fin 0%R]))
                 None (Arr [Fin 1%R]) a.

(** The calls of a Delayed Rejection run that evaluates that candidate
    once and accepts it without a uniform draw. *)
Definition after_acceptance : World :=
  mkWorld [Randn 1] [CallSos [Fin (1 / 2)%R]; CallPrior [Fin (1 / 2)%R]] [0; 1] 3.

(** The local variables of [run_delayed_rejection] before its loop. *)
Definition start (old_set new_set : ParameterSet) : DelayedRejectionAlgorithm.Vars :=
  DelayedRejectionAlgorithm.mkVars [old_set; new_set] 1 0 None None.

(** Proposal factors of three stages: the second stage halves the step,
    the third one stretches it twentyfold. *)
Definition RDR3 : list Np.matrix := [identity1; [[Fin (1 / 2)%R]]; [[Fin 20%R]]].
Definition invR3 : list Np.matrix := [identity1; [[Fin 2%R]]; [[Fin (1 / 20)%R]]].

(** Nothing called yet, three acceptance counters at zero. *)
Definition fresh3 : World := mkWorld [] [] [0; 0; 0] 0.

(** The second-stage candidate [theta = 1/2] with sum of squares 14,
    before and after its alpha is recorded. *)
Definition poor_candidate (a : option num) : ParameterSet :=
  mkParameterSet [Fin (1 / 2)%R] (Some (Arr [Fin 14%R])) (Some (Arr [Fin 0%R]))
                 None (Arr [Fin 1%R]) a.

(** The calls of a run of two further stages: the first evaluates its
    candidate and draws for the test, the second only proposes. *)
Definition after_two_stages : World :=
  mkWorld [Randn 1; Rand; Randn 1]
          [CallSos [Fin (1 / 2)%R]; CallPrior [Fin (1 / 2)%R]] [0; 0; 0] 3.

End Examples.

(** ** Predicates used in the statements *)

(** A finite number in [[0, 1]]. *)
Definition unit_interval (a : num) : Prop :=
  exists r : R, a = Fin r /\ (0 <= r <= 1)%R.

(** A finite number in [(0, 1]]. *)
Definition pos_unit (a : num) : Prop :=
  exists r : R, a = Fin r /\ (0 < r <= 1)%R.

(** Some component of [th] is strictly below its lower limit or strictly
    above its upper limit, the limits being selected through [parind]. *)
Definition out_of_box (th : list num) (parameters : ModelParameters) : Prop :=
  exists (j : nat) (x : num) (i : Z),
    nth_error th j = Some x /\
    nth_error (parind parameters) j = Some i /\
    ((exists l, py_index (lower_limits parameters) i = Ok l /\ Num.ltb x l = true) \/
     (exists u, py_index (upper_limits parameters) i = Ok u /\ Num.ltb u x = true)).

(** Every index of [parind] selects a lower and an upper limit, and there
    is one index for each sampled parameter. *)
Definition well_indexed (parameters : ModelParameters) : Prop :=
  len (parind parameters) = npar parameters /\
  (exists lo, fancy_index (lower_limits parameters) (parind parameters) = Ok lo) /\
  (exists up, fancy_index (upper_limits parameters) (parind parameters) = Ok up).

(** The fields the code gives to a candidate that is out of bounds. *)
Definition rejected_out_of_bounds (p : ParameterSet) : Prop :=
  ss p = Some (Sc PInf) /\ prior p = Some (Sc Num.zero) /\ alpha p = Some Num.zero.

(** The uniform draws of a Delayed Rejection stage whose candidate is
    [outside] the bounds or not and whose acceptance probability is [a]. *)
Definition uniform_draws (outside : bool) (a : num) : list rng_call :=
  if outside then []
  else if Num.geb a Num.one then [] else [Rand].

(** ** The outcomes of a Delayed Rejection stage *)

Section StageOutcomes.

Import DelayedRejectionAlgorithm.

Variable rng : RandomSource.
Variables old_set new_set : ParameterSet.
Variable RDR : list Np.matrix.
Variable parameters : ModelParameters.
Variable sosobj : SumOfSquares.
Variable priorobj : PriorFunction.

Let propose := propose rng old_set RDR parameters.

(** The state a stage appends for a candidate [th] it found outside. *)
Definition outside_set (th : list num) : ParameterSet :=
  mkParameterSet th (Some (Sc PInf)) (Some (Sc Num.zero)) None (sigma2 new_set)
                 (Some Num.zero).

(** The state a stage appends for a candidate it evaluated. *)
Definition inside_set (th : list num) (a : num) : ParameterSet :=
  mkParameterSet th (Some (sos_evaluate_sos_function sosobj th))
                 (Some (evaluate_prior priorobj th)) None (sigma2 new_set) (Some a).

(** Every stage that completes is of one of three kinds. *)
Inductive stage_outcome (v : Vars) (w : World) (v' : Vars) (w' : World) : Prop :=
| StageOutside (th : list num) (w1 : World)
    (Hp : propose (itry v + 1) w = Ok (th, w1))
    (Ho : outside_bounds th parameters = Ok true)
    (Hv : v' = mkVars (trypath v ++ [outside_set th]) (itry v + 1) (accept v)
                      (Some old_set) (Some 1))
    (Hw : w' = w1)
| StageAccepted (th : list num) (w1 : World) (a : num) (cnt : Z) (acc : list Z)
                (w2 : World)
    (Hp : propose (itry v + 1) w = Ok (th, w1))
    (Ho : outside_bounds th parameters = Ok false)
    (Ha : unit_interval a)
    (Hd : w2 = w1 /\ Num.geb a Num.one = true \/
          w2 = log_rng Rand w1 /\ Num.geb a Num.one = false)
    (Hv : v' = mkVars (trypath v ++ [inside_set th a]) (itry v + 1) 1
                      (Some (inside_set th a)) (Some 0))
    (Hw : rng_calls w' = rng_calls w2)
| StageRejected (th : list num) (w1 : World) (a : num)
    (Hp : propose (itry v + 1) w = Ok (th, w1))
    (Ho : outside_bounds th parameters = Ok false)
    (Ha : unit_interval a)
    (Hg : Num.geb a Num.one = false)
    (Hv : v' = mkVars (trypath v ++ [inside_set th a]) (itry v + 1) (accept v)
                      (Some old_set) (Some 0))
    (Hw : rng_calls w' = rng_calls (log_rng Rand w1)).

(** The flag after a stage tells whether the state the stage appended
    is outside the bounds. *)
Definition flag_of_last (v : Vars) : Prop :=
  match outbound v with
  | None => True
  | Some b =>
      exists last,
        py_index (trypath v) (-1) = Ok last /\
        3 <= len (trypath v) /\
        (b = 0 \/ b = 1) /\
        outside_bounds (theta last) parameters = Ok (b =? 1)
  end.

End StageOutcomes.

(** [sum((s1 - s2) / g)] over the residual components. *)
Definition misfit (l : list (R * R * R)) : R :=
  fold_left Rplus (map (fun t => let '(s1, s2, g) := t in ((s1 - s2) * / g)%R) l) 0%R.

(** The exception of [sys.exit('Unknown sstype')]. *)
Definition unknown_sstype : pyerror := SystemExit "Unknown sstype".


Definition quiet {A : Type} (m : PredictionIntervals.PM A) : Prop :=
  forall t t', m t <> (t', Err unknown_sstype).

(** ** Further code of the cited files *)

(** [initialize_dr_metrics(options)], with [options.ntry] for [ntry]:
    [np.zeros] raises on a negative length. *)
Definition initialize_dr_metrics (ntry : Z) (w : World) : res World :=
  if ntry <? 0 then Err ValueError
  else Ok (set_dr_step_counter 0 (set_iacce (repeat 0 (Z.to_nat ntry)) w)).

(** ** Notions used in the further properties *)

(** The largest number of evaluations of [alphafun] that one call on a
    path of [n] states can make. *)
Definition call_bound (n : Z) : Z := 3 ^ Z.max 0 (n - 2).

(** A state whose [ss] and [sigma2] are arrays of finite numbers, given
    as pairs, and whose prior is one finite number. *)
Definition array_state (th : list num) (sg : list (R * R)) (p : R) : ParameterSet :=
  mkParameterSet th (Some (Arr (map (fun t => Fin (fst t)) sg)))
                 (Some (Arr [Fin p])) None
                 (Arr (map (fun t => Fin (snd t)) sg)) None.

(** [sum(ss / sigma2)] of such a state. *)
Definition scaled_ss (sg : list (R * R)) : R :=
  fold_left Rplus (map (fun t => (fst t * / snd t)%R) sg) 0%R.

(** The displacement and its image under the inverse factor, squared. *)
Definition step_norm2 (a b : list num) (iR : Np.matrix) : res num :=
  d <- Np.broadcast Num.sub a b ;;
  v <- Np.dot d iR ;;
  Ok (Num.mul (Np.norm v) (Np.norm v)).

(** The calls a Delayed Rejection stage makes on the collaborators for
    the state [p] it appends: none if [p] is outside the bounds. *)
Definition stage_calls (parameters : ModelParameters) (p : ParameterSet)
  : list model_call :=
  match outside_bounds (theta p) parameters with
  | Ok false => [CallSos (theta p); CallPrior (theta p)]
  | _ => []
  end.

(** The calls a Delayed Rejection stage makes on the random source. *)
Definition stage_draws_ok (n : Z) (s : list rng_call) : Prop :=
  s = [Randn n] \/ s = [Randn n; Rand].

(** The two states of a comparison exchanged, for a list of
    (ss1, ss2, sigma2) triples. *)
Definition swap_states (l : list (R * R * R)) : list (R * R * R) :=
  map (fun t => let '(s1, s2, g) := t in (s2, s1, g)) l.

(** Column ranges that follow one another: the first one starts at
    [start], each one is as wide as its entry of [widths] and starts
    where the one before stops. *)
Fixpoint consecutive_ranges (start : Z) (widths : list Z) : list (Z * Z) :=
  match widths with
  | [] => []
  | w :: ws => (start, start + w) :: consecutive_ranges (start + w) ws
  end.

(** * Properties *)

(** ** Arithmetic on extended reals *)

Ltac num_cases :=
  repeat match goal with
         | |- context [Req_dec_T ?a ?b] => destruct (Req_dec_T a b)
         | |- context [Rlt_dec ?a ?b] => destruct (Rlt_dec a b)
         | |- context [Rle_dec ?a ?b] => destruct (Rle_dec a b)
         | H : context [Req_dec_T ?a ?b] |- _ => destruct (Req_dec_T a b)
         | H : context [Rlt_dec ?a ?b] |- _ => destruct (Rlt_dec a b)
         | H : context [Rle_dec ?a ?b] |- _ => destruct (Rle_dec a b)
         end.

Lemma pos_unit_unit (a : num) : pos_unit a -> unit_interval a.
Proof.
  intros (r & -> & Hr). exists r. split; [reflexivity | lra].
Qed.

Lemma unit_interval_one : unit_interval Num.one.
Proof. exists 1%R. split; [reflexivity | lra]. Qed.

Lemma unit_interval_zero : unit_interval Num.zero.
Proof. exists 0%R. split; [reflexivity | lra]. Qed.

Lemma pos_unit_one : pos_unit Num.one.
Proof. exists 1%R. split; [reflexivity | lra]. Qed.

(** [a * (1 - t)] stays in [[0, 1]]. *)
Lemma mul_one_minus_unit (a t : num) :
  unit_interval a -> unit_interval t ->
  unit_interval (Num.mul a (Num.sub Num.one t)).
Proof.
  intros (x & -> & Hx) (y & -> & Hy).
  exists (x * (1 + - y))%R. split; [reflexivity | nra].
Qed.

Lemma eqb_zero_false (a : num) :
  unit_interval a -> Num.eqb a Num.zero = false -> pos_unit a.
Proof.
  intros (x & -> & Hx). unfold Num.eqb, Num.zero. intros H.
  exists x. split; [reflexivity |].
  destruct (Req_dec_T x 0); [discriminate | lra].
Qed.

Lemma eqb_zero_true (a : num) : Num.eqb a Num.zero = true -> a = Num.zero.
Proof.
  destruct a; simpl; try discriminate.
  destruct (Req_dec_T r 0); [intros _; subst; reflexivity | discriminate].
Qed.

(** [min(1, x)] lies in [[0, 1]] as soon as [x] is not negative; [nan]
    and [+inf] are sent to one. *)
Lemma pymin_one_unit (x : num) :
  match x with
  | Fin r => (0 <= r)%R
  | NInf => False
  | PInf | NaN => True
  end ->
  unit_interval (Num.pymin Num.one x).
Proof.
  unfold Num.pymin, Num.one. destruct x as [r| | |]; simpl; intros H.
  - destruct (Rlt_dec r 1).
    + exists r. split; [reflexivity | lra].
    + apply unit_interval_one.
  - apply unit_interval_one.
  - contradiction.
  - apply unit_interval_one.
Qed.

(** The last line of [alphafun]. *)
Lemma final_alpha_unit (y a1 a2 : num) :
  unit_interval a1 -> pos_unit a2 ->
  unit_interval
    (Num.pymin Num.one (Num.mul (Num.mul (Num.exp y) a2) (Num.inv a1))).
Proof.
  intros (x1 & -> & H1) (x2 & -> & H2).
  apply pymin_one_unit.
  pose proof (exp_pos) as Hexp.
  destruct y as [r| | |]; simpl; unfold Num.signed_inf;
    try specialize (Hexp r); num_cases; simpl; unfold Num.signed_inf;
    num_cases; try lra; try exact I; try nra.
  all: assert (0 < / x1)%R by (apply Rinv_0_lt_compat; lra).
  - apply Rmult_le_pos; [apply Rmult_le_pos |]; lra.
  - contradiction.
Qed.

(** With [a1 = 0] the last line of [alphafun] yields one. *)
Lemma final_alpha_zero_a1 (y a2 : num) :
  pos_unit a2 ->
  Num.pymin Num.one (Num.mul (Num.mul (Num.exp y) a2) (Num.inv Num.zero))
  = Num.one.
Proof.
  intros (x2 & -> & H2). unfold Num.zero, Num.inv.
  destruct (Req_dec_T 0 0) as [_|]; [| lra].
  pose proof (exp_pos) as Hexp.
  destruct y as [r| | |]; simpl; unfold Num.signed_inf;
    try specialize (Hexp r); num_cases; simpl; try reflexivity; try nra; try lra.
Qed.

(** ** Slices taken by [alphafun] *)

Lemma py_range_bounds (n k : Z) : In k (py_range n) -> 0 <= k < n.
Proof.
  unfold py_range. rewrite in_map_iff. intros (i & <- & Hi).
  apply in_seq in Hi. lia.
Qed.

Lemma py_slice_prefix_length {A : Type} (l : list A) (k : Z) :
  0 <= k -> k + 2 <= len l ->
  length (py_slice l 0 (k + 2)) = Z.to_nat (k + 2).
Proof.
  unfold py_slice, len. intros Hk Hl.
  replace (0 <? 0) with false by reflexivity.
  replace (k + 2 <? 0) with false by (symmetry; apply Z.ltb_ge; lia).
  replace (Z.max 0 (Z.min (Z.of_nat (length l)) 0)) with 0 by lia.
  replace (Z.max 0 (Z.min (Z.of_nat (length l)) (k + 2))) with (k + 2) by lia.
  simpl. rewrite length_firstn. lia.
Qed.

Lemma py_slice_rev_suffix_length {A : Type} (l : list A) (k : Z) :
  0 <= k -> k + 2 <= len l - 1 ->
  length (py_slice_rev l (len l - 1) (len l - 1 - k - 2)) = Z.to_nat (k + 2).
Proof.
  unfold py_slice_rev, len. intros Hk Hl.
  set (n := Z.of_nat (length l)) in *.
  replace (n - 1 <? 0) with false by (symmetry; apply Z.ltb_ge; lia).
  replace (n - 1 - k - 2 <? 0) with false by (symmetry; apply Z.ltb_ge; lia).
  replace (Z.max (-1) (Z.min (n - 1) (n - 1))) with (n - 1) by lia.
  replace (Z.max (-1) (Z.min (n - 1) (n - 1 - k - 2))) with (n - 1 - k - 2) by lia.
  rewrite length_rev, length_skipn, length_firstn. subst n. lia.
Qed.

(** ** Failures other than running out of fuel *)

Definition fuelled {A : Type} (m : res A) : Prop := m <> Err OutOfFuel.

Lemma fuelled_ok {A : Type} (a : A) : fuelled (Ok a).
Proof. discriminate. Qed.

Lemma fuelled_bind {A B : Type} (m : res A) (k : A -> res B) :
  fuelled m -> (forall a, m = Ok a -> fuelled (k a)) -> fuelled (bind m k).
Proof.
  unfold fuelled. destruct m as [a|e]; simpl; intros Hm Hk.
  - apply Hk. reflexivity.
  - intros [= ->]. apply Hm. reflexivity.
Qed.

Lemma fuelled_py_index {A : Type} (l : list A) (i : Z) : fuelled (py_index l i).
Proof.
  unfold py_index, fuelled.
  destruct (_ && _); [destruct (nth_error _ _) |]; discriminate.
Qed.

Lemma fuelled_need {A : Type} (o : option A) : fuelled (need o).
Proof. destruct o; discriminate. Qed.

Lemma fuelled_broadcast {B : Type} (f : num -> num -> B) (l1 l2 : list num) :
  fuelled (Np.broadcast f l1 l2).
Proof.
  unfold Np.broadcast, fuelled.
  destruct (_ =? _)%nat; [discriminate |].
  destruct l1 as [|x [|x' l1]], l2 as [|y [|y' l2]]; discriminate.
Qed.

Lemma fuelled_binop (f : num -> num -> num) (a b : ndval) : fuelled (Np.binop f a b).
Proof.
  destruct a, b; simpl; try discriminate.
  apply fuelled_bind; [apply fuelled_broadcast | intros; apply fuelled_ok].
Qed.

Lemma fuelled_pysum (a : ndval) : fuelled (Np.pysum a).
Proof. destruct a; discriminate. Qed.

Lemma fuelled_dot (v : list num) (M : Np.matrix) : fuelled (Np.dot v M).
Proof. unfold Np.dot. destruct (_ && _); discriminate. Qed.

Lemma fuelled_any_lt (a b : list num) : fuelled (Np.any_lt a b).
Proof.
  unfold Np.any_lt. apply fuelled_bind; [apply fuelled_broadcast | intros; apply fuelled_ok].
Qed.

Lemma fuelled_fancy_index (a : list num) (idx : list Z) : fuelled (fancy_index a idx).
Proof.
  induction idx as [|i idx IH]; simpl; [apply fuelled_ok |].
  apply fuelled_bind; [apply fuelled_py_index | intros x _].
  apply fuelled_bind; [exact IH | intros; apply fuelled_ok].
Qed.

Lemma fuelled_reshape (a : list num) (n : Z) : fuelled (reshape a n).
Proof. unfold reshape. destruct (_ =? _); discriminate. Qed.

Ltac fuelled_step :=
  first
    [ apply fuelled_ok
    | apply fuelled_py_index
    | apply fuelled_need
    | apply fuelled_broadcast
    | apply fuelled_binop
    | apply fuelled_pysum
    | apply fuelled_dot
    | apply fuelled_any_lt
    | apply fuelled_fancy_index
    | apply fuelled_reshape
    | apply fuelled_bind; [| intros ? ? ] ].

Ltac fuelled_auto := repeat fuelled_step.

(** ** The recursion of [alphafun] *)

Section AlphaFacts.

Import DelayedRejectionAlgorithm.

Variable invR : list Np.matrix.

Lemma fuelled_logposteriorratio (x1 x2 : ParameterSet) :
  fuelled (logposteriorratio x1 x2).
Proof. unfold logposteriorratio. fuelled_auto. Qed.

Lemma fuelled_qfun (iq : Z) (trypath : list ParameterSet) :
  fuelled (qfun iq trypath invR).
Proof. unfold qfun. destruct (_ =? _); fuelled_auto. Qed.

Lemma fuelled_q_loop (trypath : list ParameterSet) (ks : list Z) (y : num) :
  fuelled (q_loop trypath invR ks y).
Proof.
  revert y. induction ks as [|k ks IH]; intros y; simpl; [apply fuelled_ok |].
  apply fuelled_bind; [apply fuelled_qfun | intros q _; apply IH].
Qed.

(** The first loop only looks at [rec] on the two slices of each [k]. *)
Lemma alpha_loop_ext (rec1 rec2 : list ParameterSet -> Z -> res (num * Z))
      (trypath : list ParameterSet) (stage : Z) (ks : list Z) :
  (forall k c, In k ks ->
     rec1 (py_slice trypath 0 (k + 2)) c = rec2 (py_slice trypath 0 (k + 2)) c /\
     rec1 (py_slice_rev trypath stage (stage - k - 2)) c
     = rec2 (py_slice_rev trypath stage (stage - k - 2)) c) ->
  forall a1 a2 cnt,
    alpha_loop rec1 trypath stage ks a1 a2 cnt
    = alpha_loop rec2 trypath stage ks a1 a2 cnt.
Proof.
  induction ks as [|k ks IH]; intros Hrec a1 a2 cnt; simpl; [reflexivity |].
  destruct (Hrec k cnt (or_introl eq_refl)) as [-> _].
  destruct (rec2 (py_slice trypath 0 (k + 2)) cnt) as [[tmp1 c1]|e]; simpl; [| reflexivity].
  destruct (Hrec k c1 (or_introl eq_refl)) as [_ ->].
  destruct (rec2 (py_slice_rev trypath stage (stage - k - 2)) c1) as [[tmp2 c2]|e];
    simpl; [| reflexivity].
  destruct (Num.eqb _ _); [reflexivity |].
  apply IH. intros k' c Hk'. apply Hrec. right. exact Hk'.
Qed.

Lemma alpha_loop_fuelled (rec : list ParameterSet -> Z -> res (num * Z))
      (trypath : list ParameterSet) (stage : Z) (ks : list Z) :
  (forall k c, In k ks ->
     fuelled (rec (py_slice trypath 0 (k + 2)) c) /\
     fuelled (rec (py_slice_rev trypath stage (stage - k - 2)) c)) ->
  forall a1 a2 cnt, fuelled (alpha_loop rec trypath stage ks a1 a2 cnt).
Proof.
  induction ks as [|k ks IH]; intros Hrec a1 a2 cnt; simpl; [apply fuelled_ok |].
  apply fuelled_bind; [apply Hrec; left; reflexivity | intros [tmp1 c1] _].
  apply fuelled_bind; [apply Hrec; left; reflexivity | intros [tmp2 c2] _].
  destruct (Num.eqb _ _); [apply fuelled_ok |].
  apply IH. intros k' c Hk'. apply Hrec. right. exact Hk'.
Qed.

(** Both products stay in [[0, 1]], and the second one is not zero when
    the loop runs to its end. *)
Lemma alpha_loop_unit (rec : list ParameterSet -> Z -> res (num * Z))
      (trypath : list ParameterSet) (stage : Z) (ks : list Z) :
  (forall p c a c', rec p c = Ok (a, c') -> unit_interval a) ->
  forall a1 a2 cnt a1' a2' cnt',
    unit_interval a1 -> pos_unit a2 ->
    alpha_loop rec trypath stage ks a1 a2 cnt = Ok (Continue a1' a2' cnt') ->
    unit_interval a1' /\ pos_unit a2'.
Proof.
  intros Hrec. induction ks as [|k ks IH]; intros a1 a2 cnt a1' a2' cnt' H1 H2; simpl.
  - intros [= <- <- <-]. split; assumption.
  - destruct (rec (py_slice trypath 0 (k + 2)) cnt) as [[tmp1 c1]|e] eqn:E1;
      simpl; [| discriminate].
    destruct (rec (py_slice_rev trypath stage (stage - k - 2)) c1) as [[tmp2 c2]|e] eqn:E2;
      simpl; [| discriminate].
    apply Hrec in E1. apply Hrec in E2.
    destruct (Num.eqb _ _) eqn:E0; [discriminate |].
    apply IH.
    + apply mul_one_minus_unit; assumption.
    + apply eqb_zero_false; [| exact E0].
      apply mul_one_minus_unit; [apply pos_unit_unit |]; assumption.
Qed.

(** Every value [alphafun] returns lies in [[0, 1]]. *)
Lemma alphafun_fuel_unit (fuel : nat) :
  forall trypath cnt a cnt',
    alphafun_fuel fuel invR trypath cnt = Ok (a, cnt') -> unit_interval a.
Proof.
  induction fuel as [|fuel IH]; intros trypath cnt a cnt'; simpl; [discriminate |].
  destruct (alpha_loop _ _ _ _ _ _ _) as [[c|a1 a2 c]|e] eqn:EL; simpl; try discriminate.
  - intros [= <- _]. apply unit_interval_zero.
  - apply alpha_loop_unit in EL;
      [| exact IH | apply unit_interval_one | apply pos_unit_one].
    destruct EL as [H1 H2].
    destruct (py_index trypath 0) as [x1|e]; simpl; [| discriminate].
    destruct (py_index trypath (-1)) as [x2|e]; simpl; [| discriminate].
    destruct (logposteriorratio x1 x2) as [y|e]; simpl; [| discriminate].
    destruct (q_loop _ _ _ _) as [y'|e]; simpl; [| discriminate].
    intros [= <- _]. apply final_alpha_unit; assumption.
Qed.

(** The slices of a path are shorter than the path, so the nesting of
    the recursive calls is bounded by its length. *)
Lemma alphafun_slices_shorter (trypath : list ParameterSet) (k : Z) :
  In k (py_range (len trypath - 1 - 1)) ->
  (length (py_slice trypath 0 (k + 2)) < length trypath)%nat /\
  (length (py_slice_rev trypath (len trypath - 1) (len trypath - 1 - k - 2))
   < length trypath)%nat.
Proof.
  intros Hk. apply py_range_bounds in Hk.
  rewrite py_slice_prefix_length, py_slice_rev_suffix_length by lia.
  unfold len in *. lia.
Qed.

Lemma alphafun_fuel_stable (fuel1 : nat) :
  forall fuel2 trypath cnt,
    (length trypath < fuel1)%nat -> (length trypath < fuel2)%nat ->
    alphafun_fuel fuel1 invR trypath cnt = alphafun_fuel fuel2 invR trypath cnt.
Proof.
  induction fuel1 as [|fuel1 IH]; intros fuel2 trypath cnt H1 H2; [lia |].
  destruct fuel2 as [|fuel2]; [lia |]. simpl.
  rewrite (alpha_loop_ext (alphafun_fuel fuel1 invR) (alphafun_fuel fuel2 invR));
    [reflexivity |].
  intros k c Hk. apply alphafun_slices_shorter in Hk. destruct Hk as [Ha Hb].
  split; apply IH; lia.
Qed.

Lemma alphafun_fuel_fuelled (fuel : nat) :
  forall trypath cnt,
    (length trypath < fuel)%nat -> fuelled (alphafun_fuel fuel invR trypath cnt).
Proof.
  induction fuel as [|fuel IH]; intros trypath cnt Hlen; [lia |]. simpl.
  apply fuelled_bind.
  - apply alpha_loop_fuelled. intros k c Hk.
    apply alphafun_slices_shorter in Hk. destruct Hk as [Ha Hb].
    split; apply IH; lia.
  - intros [c|a1 a2 c] _; [apply fuelled_ok |].
    apply fuelled_bind; [apply fuelled_py_index | intros x1 _].
    apply fuelled_bind; [apply fuelled_py_index | intros x2 _].
    apply fuelled_bind; [apply fuelled_logposteriorratio | intros y _].
    apply fuelled_bind; [apply fuelled_q_loop | intros y' _].
    apply fuelled_ok.
Qed.

(** [alphafun] in terms of itself: the equation its source reads as. *)
Lemma alphafun_unfold (trypath : list ParameterSet) (cnt : Z) :
  alphafun trypath invR cnt =
  (let stage := len trypath - 1 in
   out <- alpha_loop (fun p c => alphafun p invR c) trypath
                     stage (py_range (stage - 1)) Num.one Num.one (cnt + 1) ;;
   match out with
   | Break c => Ok (Num.zero, c)
   | Continue a1 a2 c =>
       x1 <- py_index trypath 0 ;;
       x2 <- py_index trypath (-1) ;;
       y <- logposteriorratio x1 x2 ;;
       y <- q_loop trypath invR (py_range (len trypath - 1)) y ;;
       Ok (Num.pymin Num.one
             (Num.mul (Num.mul (Num.exp y) a2) (Num.inv a1)), c)
   end).
Proof.
  unfold alphafun at 1. simpl.
  rewrite (alpha_loop_ext (alphafun_fuel (length trypath) invR)
                          (fun p c => alphafun p invR c));
    [reflexivity |].
  intros k c Hk. apply alphafun_slices_shorter in Hk. destruct Hk as [Ha Hb].
  unfold alphafun. split; apply alphafun_fuel_stable; lia.
Qed.

Lemma alphafun_unit (trypath : list ParameterSet) (cnt : Z) (a : num) (cnt' : Z) :
  alphafun trypath invR cnt = Ok (a, cnt') -> unit_interval a.
Proof. apply alphafun_fuel_unit. Qed.

Lemma alphafun_fuelled (trypath : list ParameterSet) (cnt : Z) :
  fuelled (alphafun trypath invR cnt).
Proof. apply alphafun_fuel_fuelled. lia. Qed.

End AlphaFacts.

(** ** Evaluating on finite numbers *)

Arguments Num.neg : simpl never.
Arguments Num.add : simpl never.
Arguments Num.sub : simpl never.
Arguments Num.mul : simpl never.
Arguments Num.inv : simpl never.
Arguments Num.exp : simpl never.
Arguments Num.sqrt : simpl never.
Arguments Num.ltb : simpl never.
Arguments Num.geb : simpl never.
Arguments Num.eqb : simpl never.
Arguments Num.pymin : simpl never.

(** From here on [alphafun] is used through [alphafun_unfold]. *)
Opaque DelayedRejectionAlgorithm.alphafun.

Ltac fin_unfold :=
  unfold Num.sum, Num.sub, Num.add, Num.mul, Num.neg, Num.exp,
         Num.minus_half, Num.zero, Num.one; simpl fold_left.

Lemma fin_inv (x : R) : x <> 0%R -> Num.inv (Fin x) = Fin (/ x).
Proof. intros H. unfold Num.inv. destruct (Req_dec_T x 0); [contradiction | reflexivity]. Qed.

Lemma fin_ltb_true (x y : R) : (x < y)%R -> Num.ltb (Fin x) (Fin y) = true.
Proof. intros H. unfold Num.ltb. destruct (Rlt_dec x y); [reflexivity | contradiction]. Qed.

Lemma fin_ltb_false (x y : R) : (y <= x)%R -> Num.ltb (Fin x) (Fin y) = false.
Proof. intros H. unfold Num.ltb. destruct (Rlt_dec x y); [lra | reflexivity]. Qed.

Lemma fin_geb_true (x y : R) : (y <= x)%R -> Num.geb (Fin x) (Fin y) = true.
Proof. intros H. unfold Num.geb. destruct (Rle_dec y x); [reflexivity | contradiction]. Qed.

Lemma fin_geb_false (x y : R) : (x < y)%R -> Num.geb (Fin x) (Fin y) = false.
Proof. intros H. unfold Num.geb. destruct (Rle_dec y x); [lra | reflexivity]. Qed.

Lemma fin_eqb_true (x : R) : Num.eqb (Fin x) (Fin x) = true.
Proof. unfold Num.eqb. destruct (Req_dec_T x x); [reflexivity | contradiction]. Qed.

Lemma fin_eqb_false (x y : R) : x <> y -> Num.eqb (Fin x) (Fin y) = false.
Proof. intros H. unfold Num.eqb. destruct (Req_dec_T x y); [contradiction | reflexivity]. Qed.

Lemma fin_eq (x y : R) : x = y -> Fin x = Fin y.
Proof. intros ->. reflexivity. Qed.

Lemma fin_add (x y : R) : Num.add (Fin x) (Fin y) = Fin (x + y).
Proof. reflexivity. Qed.

Lemma fin_sub (x y : R) : Num.sub (Fin x) (Fin y) = Fin (x - y).
Proof. reflexivity. Qed.

Lemma fin_mul (x y : R) : Num.mul (Fin x) (Fin y) = Fin (x * y).
Proof. reflexivity. Qed.

Lemma fin_exp (x : R) : Num.exp (Fin x) = Fin (exp x).
Proof. reflexivity. Qed.

Lemma norm_sq_singleton (x : R) :
  Num.mul (Np.norm [Fin x]) (Np.norm [Fin x]) = Fin (x * x).
Proof.
  unfold Np.norm. simpl map. fin_unfold. unfold Num.sqrt.
  destruct (Rlt_dec (0 + x * x) 0) as [H|H]; [nra |].
  apply fin_eq. rewrite sqrt_sqrt by nra. lra.
Qed.

Ltac fin_rw :=
  unfold Num.minus_half, Num.zero, Num.one;
  repeat (rewrite fin_add || rewrite fin_sub || rewrite fin_mul
          || rewrite fin_exp || rewrite norm_sq_singleton).

Lemma mul_one_r (a : num) : Num.mul a Num.one = a.
Proof.
  destruct a as [r| | |]; unfold Num.mul, Num.one, Num.signed_inf; num_cases;
    try reflexivity; try lra.
  apply fin_eq. lra.
Qed.

Lemma mul_one_l (a : num) : Num.mul Num.one a = a.
Proof.
  destruct a as [r| | |]; unfold Num.mul, Num.one, Num.signed_inf; num_cases;
    try reflexivity; try lra.
  apply fin_eq. lra.
Qed.

Lemma add_zero_r (a : num) : Num.add a Num.zero = a.
Proof. destruct a as [r| | |]; try reflexivity. apply fin_eq. lra. Qed.

Lemma add_zero_l (a : num) : Num.add Num.zero a = a.
Proof. destruct a as [r| | |]; try reflexivity. apply fin_eq. lra. Qed.

Lemma inv_one : Num.inv Num.one = Num.one.
Proof. unfold Num.one. rewrite fin_inv by lra. apply fin_eq. lra. Qed.

Lemma pymin_one_ge (x : R) : (1 <= x)%R -> Num.pymin Num.one (Fin x) = Num.one.
Proof. intros H. unfold Num.pymin, Num.one. rewrite fin_ltb_false by lra. reflexivity. Qed.

Lemma pymin_one_lt (x : R) : (x < 1)%R -> Num.pymin Num.one (Fin x) = Fin x.
Proof. intros H. unfold Num.pymin, Num.one. rewrite fin_ltb_true by lra. reflexivity. Qed.

Lemma exp_lt_1 (x : R) : (x < 0)%R -> (exp x < 1)%R.
Proof. intros H. rewrite <- exp_0. apply exp_increasing. exact H. Qed.

Lemma exp_ge_1 (x : R) : (0 <= x)%R -> (1 <= exp x)%R.
Proof. intros H. pose proof (exp_ineq1_le x). lra. Qed.

(** ** Paths of two states *)

Section PairFacts.

Import DelayedRejectionAlgorithm.

(** The first Delayed Rejection stage has no earlier stage to look at:
    its alpha is the plain ratio of the two states, capped at one. *)
Lemma alphafun_pair (invR : list Np.matrix) (x1 x2 : ParameterSet) (cnt : Z) :
  alphafun [x1; x2] invR cnt =
  (y <- logposteriorratio x1 x2 ;; Ok (Num.pymin Num.one (Num.exp y), cnt + 1)).
Proof.
  rewrite alphafun_unfold. simpl.
  destruct (logposteriorratio x1 x2) as [y|e]; simpl; [| reflexivity].
  unfold qfun. simpl.
  rewrite add_zero_r, mul_one_r, inv_one, mul_one_r. reflexivity.
Qed.

(** The ratio for one-element arrays of finite numbers. *)
Lemma logposteriorratio_fin (th1 th2 : list num) (l1 l2 : option ndval)
      (a1 a2 : option num) (s1 s2 g1 g2 p1 p2 : R) :
  g1 <> 0%R -> g2 <> 0%R ->
  logposteriorratio
    (mkParameterSet th1 (Some (Arr [Fin s1])) (Some (Arr [Fin p1])) l1 (Arr [Fin g1]) a1)
    (mkParameterSet th2 (Some (Arr [Fin s2])) (Some (Arr [Fin p2])) l2 (Arr [Fin g2]) a2)
  = Ok (Fin (- (1 / 2) * (s2 / g2 - s1 / g1 + p2 - p1))).
Proof.
  intros H1 H2. unfold logposteriorratio. simpl.
  unfold Np.broadcast. simpl.
  rewrite !fin_inv by assumption. fin_unfold.
  f_equal. apply fin_eq. field. split; assumption.
Qed.

End PairFacts.

(** ** The proposal ratio at the stage of the path *)

Section QfunFacts.

Import DelayedRejectionAlgorithm.

(** C8. For every trial path and every list of inverse factors, [qfun]
    returns exactly zero when the stage index [iq] equals the depth of
    the path, [len(trypath) - 2]; no inverse factor and no state of the
    path is read. *)
Theorem qfun_own_stage_zero (iq : Z) (trypath : list ParameterSet)
        (invR : list Np.matrix) :
  iq = len trypath - 2 -> qfun iq trypath invR = Ok Num.zero.
Proof.
  intros ->. unfold qfun.
  replace (len trypath - 1 - 1 =? len trypath - 2) with true
    by (symmetry; apply Z.eqb_eq; lia).
  reflexivity.
Qed.

Lemma qfun_own_stage_zero_witness :
  qfun 1 Examples.rising_path [] = Ok Num.zero.
Proof.
  apply (qfun_own_stage_zero 1 Examples.rising_path []).
  reflexivity.
Defined.

End QfunFacts.

(** ** The early return of [alphafun] *)

Section ShortCircuit.

Import DelayedRejectionAlgorithm.

Lemma alpha_loop_app (rec : list ParameterSet -> Z -> res (num * Z))
      (trypath : list ParameterSet) (stage : Z) (ks1 ks2 : list Z) :
  forall a1 a2 cnt,
    alpha_loop rec trypath stage (ks1 ++ ks2) a1 a2 cnt =
    match alpha_loop rec trypath stage ks1 a1 a2 cnt with
    | Ok (Continue a1' a2' cnt') => alpha_loop rec trypath stage ks2 a1' a2' cnt'
    | other => other
    end.
Proof.
  induction ks1 as [|k ks1 IH]; intros a1 a2 cnt; simpl; [reflexivity |].
  destruct (rec (py_slice trypath 0 (k + 2)) cnt) as [[tmp1 c1]|e]; simpl; [| reflexivity].
  destruct (rec (py_slice_rev trypath stage (stage - k - 2)) c1) as [[tmp2 c2]|e];
    simpl; [| reflexivity].
  destruct (Num.eqb _ _); [reflexivity | apply IH].
Qed.

(** C5. If, at some iteration [k] of the first loop of [alphafun], the
    product [a2] becomes exactly zero, [alphafun] returns zero at once:
    the step counter it hands back is the one left by the second
    recursive call of that iteration, so no further sub-alpha is
    computed, and the result needs neither the posterior ratio nor any
    [qfun] term to be computable. *)
Theorem alphafun_short_circuit (invR : list Np.matrix)
        (trypath : list ParameterSet) (cnt : Z)
        (done rest : list Z) (k : Z) (a1 a2 tmp1 tmp2 : num) (c c1 c2 : Z) :
  py_range (len trypath - 1 - 1) = done ++ k :: rest ->
  alpha_loop (fun p n => alphafun p invR n) trypath (len trypath - 1) done
             Num.one Num.one (cnt + 1) = Ok (Continue a1 a2 c) ->
  alphafun (py_slice trypath 0 (k + 2)) invR c = Ok (tmp1, c1) ->
  alphafun (py_slice_rev trypath (len trypath - 1) (len trypath - 1 - k - 2)) invR c1
  = Ok (tmp2, c2) ->
  Num.mul a2 (Num.sub Num.one tmp2) = Num.zero ->
  alphafun trypath invR cnt = Ok (Num.zero, c2).
Proof.
  intros Hks Hdone H1 H2 Hzero.
  rewrite alphafun_unfold. cbv zeta.
  rewrite Hks, alpha_loop_app, Hdone. simpl.
  rewrite H1. simpl. rewrite H2. simpl.
  rewrite Hzero. unfold Num.zero. rewrite fin_eqb_true. reflexivity.
Qed.

Lemma alphafun_short_circuit_witness :
  qfun 0 Examples.rising_path [] = Err IndexError /\
  alphafun Examples.rising_path [] 0 = Ok (Num.zero, 3).
Proof.
  split; [reflexivity |].
  apply (alphafun_short_circuit [] Examples.rising_path 0 [] [] 0
           Num.one Num.one
           (Num.pymin Num.one (Num.exp (Fin (- (1 / 2) * (1 / 1 - 0 / 1 + 0 - 0)))))
           Num.one 1 2 3).
  - reflexivity.
  - reflexivity.
  - change (py_slice Examples.rising_path 0 (0 + 2))
      with [Examples.state 0 0; Examples.state 1 1].
    rewrite alphafun_pair. unfold Examples.state.
    rewrite logposteriorratio_fin by lra. reflexivity.
  - change (py_slice_rev Examples.rising_path (len Examples.rising_path - 1)
                         (len Examples.rising_path - 1 - 0 - 2))
      with [Examples.state 2 2; Examples.state 1 1].
    rewrite alphafun_pair. unfold Examples.state.
    rewrite logposteriorratio_fin by lra. simpl.
    unfold Num.exp. rewrite pymin_one_ge; [reflexivity |].
    apply exp_ge_1. lra.
  - fin_unfold. apply fin_eq. lra.
Defined.

End ShortCircuit.

(** ** The division by [a1] *)

Section ZeroA1.

Import DelayedRejectionAlgorithm.

Lemma falling_path_q :
  q_loop Examples.falling_path [Examples.identity1; Examples.identity1]
         (py_range 2) (Fin (3 / 2)) = Ok (Fin (3 / 2)).
Proof.
  simpl. unfold qfun. simpl. unfold Np.broadcast. simpl. unfold Np.dot. simpl.
  fin_rw. f_equal. apply fin_eq. lra.
Qed.

Lemma falling_path_loop (invR : list Np.matrix) :
  alpha_loop (fun p n => alphafun p invR n) Examples.falling_path
             (len Examples.falling_path - 1)
             (py_range (len Examples.falling_path - 1 - 1))
             Num.one Num.one (0 + 1)
  = Ok (Continue Num.zero (Fin (1 - exp (- (1 / 2)))) 3).
Proof.
  simpl.
  change (py_slice Examples.falling_path 0 2)
    with [Examples.state 0 3; Examples.state 1 1].
  change (py_slice_rev Examples.falling_path 2 0)
    with [Examples.state 2 0; Examples.state 1 1].
  rewrite !alphafun_pair. unfold Examples.state.
  rewrite !logposteriorratio_fin by lra. simpl.
  rewrite !fin_exp.
  rewrite (pymin_one_ge (exp (- (1 / 2) * (1 / 1 - 3 / 1 + 0 - 0))))
    by (apply exp_ge_1; lra).
  rewrite alphafun_pair, logposteriorratio_fin by lra. simpl. rewrite fin_exp.
  rewrite (pymin_one_lt (exp (- (1 / 2) * (1 / 1 - 0 / 1 + 0 - 0))))
    by (apply exp_lt_1; lra).
  fin_rw.
  assert (Hlt : (exp (- (1 / 2) * (1 / 1 - 0 / 1 + 0 - 0)) < 1)%R)
    by (apply exp_lt_1; lra).
  rewrite fin_eqb_false by lra.
  replace (- (1 / 2) * (1 / 1 - 0 / 1 + 0 - 0))%R with (- (1 / 2))%R by lra.
  f_equal. f_equal; apply fin_eq; lra.
Qed.

(** What [alphafun] returns once its first loop has run to the end. *)
Lemma alphafun_continue (invR : list Np.matrix) (trypath : list ParameterSet)
      (cnt : Z) (a1 a2 : num) (c : Z) (x1 x2 : ParameterSet) (y y' : num) :
  alpha_loop (fun p n => alphafun p invR n) trypath (len trypath - 1)
             (py_range (len trypath - 1 - 1)) Num.one Num.one (cnt + 1)
  = Ok (Continue a1 a2 c) ->
  py_index trypath 0 = Ok x1 ->
  py_index trypath (-1) = Ok x2 ->
  logposteriorratio x1 x2 = Ok y ->
  q_loop trypath invR (py_range (len trypath - 1)) y = Ok y' ->
  alphafun trypath invR cnt
  = Ok (Num.pymin Num.one (Num.mul (Num.mul (Num.exp y') a2) (Num.inv a1)), c).
Proof.
  intros HL H1 H2 Hy Hq. rewrite alphafun_unfold. cbv zeta.
  rewrite HL. simpl. rewrite H1. simpl. rewrite H2. simpl.
  rewrite Hy. simpl. rewrite Hq. reflexivity.
Qed.

(** When the first loop ends, its second product is in [(0, 1]]. *)
Lemma alphafun_loop_products (invR : list Np.matrix) (trypath : list ParameterSet)
      (stage : Z) (ks : list Z) (cnt : Z) (a1 a2 : num) (c : Z) :
  alpha_loop (fun p n => alphafun p invR n) trypath stage ks Num.one Num.one cnt
  = Ok (Continue a1 a2 c) ->
  unit_interval a1 /\ pos_unit a2.
Proof.
  intros HL. eapply alpha_loop_unit; [| apply unit_interval_one | apply pos_unit_one | exact HL].
  intros p n a n' H. eapply alphafun_unit. exact H.
Qed.

(** C4, as stated, fails: on a path whose first candidate is better than
    the current state the forward product [a1] is zero, and [alphafun]
    goes on to the division and returns one; no exception is raised. *)
Lemma alphafun_zero_a1_not_trapped :
  alpha_loop (fun p n => alphafun p [Examples.identity1; Examples.identity1] n)
             Examples.falling_path
             (len Examples.falling_path - 1)
             (py_range (len Examples.falling_path - 1 - 1))
             Num.one Num.one (0 + 1)
  = Ok (Continue Num.zero (Fin (1 - exp (- (1 / 2)))) 3)
  /\ alphafun Examples.falling_path [Examples.identity1; Examples.identity1] 0
     = Ok (Num.one, 3).
Proof.
  split; [apply falling_path_loop |].
  rewrite (alphafun_continue _ _ _ _ _ _ _ _ (Fin (3 / 2)) (Fin (3 / 2))
             (falling_path_loop _) eq_refl eq_refl).
  - rewrite final_alpha_zero_a1; [reflexivity |].
    exists (1 - exp (- (1 / 2)))%R. split; [reflexivity |].
    pose proof (exp_pos (- (1 / 2))).
    assert (exp (- (1 / 2)) < 1)%R by (apply exp_lt_1; lra). lra.
  - unfold Examples.state. rewrite logposteriorratio_fin by lra.
    f_equal. apply fin_eq. lra.
  - apply falling_path_q.
Qed.

(** C4, amended. [alphafun] has no guard on [a1]. When the first loop
    ends with [a1 = 0], the last line is evaluated all the same:
    [a1 ** (-1)] is [+inf], the product is [+inf] or [nan], and
    [min(1, .)] makes the returned alpha equal to one. *)
Theorem alphafun_zero_a1_returns_one (invR : list Np.matrix)
        (trypath : list ParameterSet) (cnt : Z) (a2 : num) (c : Z)
        (x1 x2 : ParameterSet) (y y' : num) :
  alpha_loop (fun p n => alphafun p invR n) trypath (len trypath - 1)
             (py_range (len trypath - 1 - 1)) Num.one Num.one (cnt + 1)
  = Ok (Continue Num.zero a2 c) ->
  py_index trypath 0 = Ok x1 ->
  py_index trypath (-1) = Ok x2 ->
  logposteriorratio x1 x2 = Ok y ->
  q_loop trypath invR (py_range (len trypath - 1)) y = Ok y' ->
  Num.inv Num.zero = PInf /\
  alphafun trypath invR cnt
  = Ok (Num.pymin Num.one (Num.mul (Num.mul (Num.exp y') a2) (Num.inv Num.zero)), c) /\
  alphafun trypath invR cnt = Ok (Num.one, c).
Proof.
  intros HL H1 H2 Hy Hq.
  assert (Hinv : Num.inv Num.zero = PInf).
  { unfold Num.inv, Num.zero. destruct (Req_dec_T 0 0); [reflexivity | contradiction]. }
  pose proof (alphafun_continue _ _ _ _ _ _ _ _ _ _ HL H1 H2 Hy Hq) as Hret.
  split; [exact Hinv |]. split; [exact Hret |].
  rewrite Hret. destruct (alphafun_loop_products _ _ _ _ _ _ _ _ HL) as [_ Hpos].
  rewrite final_alpha_zero_a1 by exact Hpos. reflexivity.
Qed.

Lemma alphafun_zero_a1_returns_one_witness :
  alphafun Examples.falling_path [Examples.identity1; Examples.identity1] 0
  = Ok (Num.one, 3).
Proof.
  apply (alphafun_zero_a1_returns_one
           [Examples.identity1; Examples.identity1] Examples.falling_path 0
           (Fin (1 - exp (- (1 / 2)))) 3
           (Examples.state 0 3) (Examples.state 2 0) (Fin (3 / 2)) (Fin (3 / 2))).
  - apply falling_path_loop.
  - reflexivity.
  - reflexivity.
  - unfold Examples.state. rewrite logposteriorratio_fin by lra.
    f_equal. apply fin_eq. lra.
  - apply falling_path_q.
Defined.

End ZeroA1.

(** ** The bounds check *)

Lemma fancy_index_nth (a : list num) (idx : list Z) (l : list num) :
  fancy_index a idx = Ok l ->
  length l = length idx /\
  forall j i, nth_error idx j = Some i ->
    exists x, py_index a i = Ok x /\ nth_error l j = Some x.
Proof.
  revert l. induction idx as [|i0 idx IH]; intros l; simpl.
  - intros [= <-]. split; [reflexivity |]. intros [|j] i; discriminate.
  - destruct (py_index a i0) as [x0|e] eqn:E0; simpl; [| discriminate].
    destruct (fancy_index a idx) as [xs|e] eqn:E1; simpl; [| discriminate].
    intros [= <-]. destruct (IH xs eq_refl) as [Hlen Hnth].
    split; [simpl; congruence |].
    intros [|j] i; simpl.
    + intros [= <-]. exists x0. split; [exact E0 | reflexivity].
    + apply Hnth.
Qed.

Lemma existsb_zip_with (f : num -> num -> bool) (a b : list num) :
  existsb (fun x => x) (Np.zip_with f a b) = true <->
  exists j x y, nth_error a j = Some x /\ nth_error b j = Some y /\ f x y = true.
Proof.
  revert b. induction a as [|x a IH]; intros [|y b]; simpl.
  - split; [discriminate | intros ([|j] & x & y & H & _); discriminate].
  - split; [discriminate | intros ([|j] & x & y0 & H & _); discriminate].
  - split; [discriminate | intros ([|j] & x0 & y & _ & H & _); discriminate].
  - rewrite orb_true_iff, IH. split.
    + intros [H | (j & x' & y' & Ha & Hb & Hf)].
      * exists 0%nat, x, y. repeat split; assumption.
      * exists (S j), x', y'. repeat split; assumption.
    + intros ([|j] & x' & y' & Ha & Hb & Hf); simpl in Ha, Hb.
      * injection Ha as <-. injection Hb as <-. left. exact Hf.
      * right. exists j, x', y'. repeat split; assumption.
Qed.

Lemma any_lt_same_length (a b : list num) :
  length a = length b ->
  Np.any_lt a b = Ok (existsb (fun x => x) (Np.zip_with Num.ltb a b)).
Proof.
  intros H. unfold Np.any_lt, Np.broadcast.
  rewrite (proj2 (Nat.eqb_eq _ _) H). reflexivity.
Qed.

(** The check of the Delayed Rejection loop answers [True] exactly on
    the candidates that are out of the box. *)
Lemma outside_bounds_spec (th : list num) (parameters : ModelParameters) :
  well_indexed parameters ->
  len th = npar parameters ->
  exists b, outside_bounds th parameters = Ok b /\
            (b = true <-> out_of_box th parameters).
Proof.
  intros (Hn & (lo & Hlo) & (up & Hup)) Hth.
  destruct (fancy_index_nth _ _ _ Hlo) as [Llo Nlo].
  destruct (fancy_index_nth _ _ _ Hup) as [Lup Nup].
  assert (Hlen : length th = length (parind parameters)).
  { unfold len in *. lia. }
  unfold outside_bounds. rewrite Hlo. simpl.
  rewrite any_lt_same_length by congruence. simpl.
  destruct (existsb _ (Np.zip_with Num.ltb th lo)) eqn:Elo.
  - exists true. split; [reflexivity |]. split; [intros _ | reflexivity].
    apply existsb_zip_with in Elo. destruct Elo as (j & x & l & Hx & Hl & Hlt).
    destruct (nth_error (parind parameters) j) as [i|] eqn:Ei.
    + exists j, x, i. repeat split; try assumption. left.
      destruct (Nlo j i Ei) as (l' & Hpi & Hl'). exists l. split; congruence.
    + apply nth_error_None in Ei.
      assert (nth_error th j <> None) as Hj by congruence.
      apply nth_error_Some in Hj. lia.
  - rewrite Hup. simpl. rewrite any_lt_same_length by congruence.
    eexists. split; [reflexivity |]. rewrite existsb_zip_with. split.
    + intros (j & u & x & Hu & Hx & Hlt).
      destruct (nth_error (parind parameters) j) as [i|] eqn:Ei.
      * exists j, x, i. repeat split; try assumption. right.
        destruct (Nup j i Ei) as (u' & Hpi & Hu'). exists u. split; congruence.
      * apply nth_error_None in Ei.
      assert (nth_error th j <> None) as Hj by congruence.
      apply nth_error_Some in Hj. lia.
    + intros (j & x & i & Hx & Hi & [(l & Hl & Hlt) | (u & Hu & Hlt)]).
      * exfalso. destruct (Nlo j i Hi) as (l' & Hpi & Hl').
        assert (existsb (fun x => x) (Np.zip_with Num.ltb th lo) = true).
        { apply existsb_zip_with. exists j, x, l. repeat split; congruence. }
        congruence.
      * destruct (Nup j i Hi) as (u' & Hpi & Hu').
        exists j, u, x. repeat split; congruence.
Qed.

(** ** The Delayed Rejection loop *)

Lemma py_index_last {A : Type} (l : list A) (x : A) : py_index (l ++ [x]) (-1) = Ok x.
Proof.
  unfold py_index, len. rewrite length_app. simpl length.
  replace (-1 <? 0) with true by reflexivity.
  replace (-1 + Z.of_nat (length l + 1)) with (Z.of_nat (length l)) by lia.
  replace (0 <=? Z.of_nat (length l)) with true by (symmetry; apply Z.leb_le; lia).
  replace (Z.of_nat (length l) <? Z.of_nat (length l + 1)) with true
    by (symmetry; apply Z.ltb_lt; lia).
  simpl. rewrite Nat2Z.id, nth_error_app2 by lia.
  rewrite Nat.sub_diag. reflexivity.
Qed.

Lemma fuelled_py_incr (l : list Z) (i : Z) : fuelled (py_incr l i).
Proof. unfold py_incr. fuelled_auto. Qed.

Section DRFacts.

Import DelayedRejectionAlgorithm.

Variable rng : RandomSource.
Variables old_set new_set : ParameterSet.
Variable RDR : list Np.matrix.
Variable ntry : Z.
Variable parameters : ModelParameters.
Variable invR : list Np.matrix.
Variable sosobj : SumOfSquares.
Variable priorobj : PriorFunction.

Let propose := propose rng old_set RDR parameters.
Let dr_stage := dr_stage rng old_set new_set RDR parameters invR sosobj priorobj.
Let dr_loop := dr_loop rng old_set new_set RDR ntry parameters invR sosobj priorobj.
Let run_loop := run_loop rng old_set new_set RDR ntry parameters invR sosobj priorobj.
Let run_delayed_rejection :=
  run_delayed_rejection rng old_set new_set RDR ntry parameters invR sosobj priorobj.
Let outside_set := outside_set new_set.
Let inside_set := inside_set new_set sosobj priorobj.
Let stage_outcome := stage_outcome rng old_set new_set RDR parameters sosobj priorobj.

(** Drawing a candidate makes one call, [randn(1, npar)], and nothing
    else; the candidate has [npar] components. *)
Lemma propose_inv (i : Z) (w : World) (th : list num) (w1 : World) :
  propose i w = Ok (th, w1) ->
  w1 = log_rng (Randn (npar parameters)) w /\ len th = npar parameters.
Proof.
  unfold propose, DelayedRejectionAlgorithm.propose, randn.
  destruct (npar parameters <? 0); simpl; [discriminate |].
  destruct (py_index RDR (i - 1)) as [R|e]; simpl; [| discriminate].
  destruct (Np.dot _ R) as [step|e]; simpl; [| discriminate].
  destruct (Np.broadcast _ _ _) as [t|e]; simpl; [| discriminate].
  unfold reshape. destruct (len t =? npar parameters) eqn:E; simpl; [| discriminate].
  intros [= <- <-]. split; [reflexivity | apply Z.eqb_eq; exact E].
Qed.

Lemma fuelled_propose (i : Z) (w : World) : fuelled (propose i w).
Proof.
  unfold propose, DelayedRejectionAlgorithm.propose, randn.
  destruct (npar parameters <? 0); simpl; [discriminate |]. fuelled_auto.
Qed.

Lemma fuelled_outside_bounds (th : list num) : fuelled (outside_bounds th parameters).
Proof.
  unfold outside_bounds. fuelled_auto.
  match goal with |- context [if ?b then _ else _] => destruct b end; fuelled_auto.
Qed.

(** A stage on a candidate outside the bounds. *)
Lemma dr_stage_outside (v : Vars) (w : World) (th : list num) (w1 : World) :
  propose (itry v + 1) w = Ok (th, w1) ->
  outside_bounds th parameters = Ok true ->
  dr_stage v w
  = Ok (mkVars (trypath v ++ [outside_set th]) (itry v + 1) (accept v)
               (Some old_set) (Some 1), w1).
Proof.
  intros Hp Ho. unfold dr_stage, DelayedRejectionAlgorithm.dr_stage.
  fold propose. rewrite Hp. simpl. rewrite Ho. reflexivity.
Qed.

Lemma dr_stage_inv (v : Vars) (w : World) (v' : Vars) (w' : World) :
  dr_stage v w = Ok (v', w') -> stage_outcome v w v' w'.
Proof.
  unfold dr_stage, DelayedRejectionAlgorithm.dr_stage. fold propose.
  destruct (propose (itry v + 1) w) as [[th w1]|e] eqn:Hp; simpl; [| discriminate].
  destruct (outside_bounds th parameters) as [[|]|e] eqn:Ho; simpl; [| | discriminate].
  - intros [= <- <-]. eapply StageOutside; eauto.
  - destruct (alphafun _ invR _) as [[a cnt]|e] eqn:Ha; simpl; [| discriminate].
    assert (Hu : unit_interval a) by (eapply alphafun_unit; exact Ha).
    destruct (Num.geb a Num.one) eqn:Hg.
    + destruct (py_incr _ _) as [acc|e]; simpl; [| discriminate].
      intros [= <- <-].
      eapply StageAccepted with (w2 := w1); eauto.
    + destruct (Num.ltb _ a) eqn:Hlt.
      * destruct (py_incr _ _) as [acc|e]; simpl; [| discriminate].
        intros [= <- <-].
        eapply StageAccepted with (w2 := log_rng Rand w1); eauto.
      * intros [= <- <-]. eapply StageRejected; eauto.
Qed.

Lemma dr_stage_itry (v : Vars) (w : World) (v' : Vars) (w' : World) :
  dr_stage v w = Ok (v', w') -> itry v' = itry v + 1.
Proof.
  intros H. apply dr_stage_inv in H. destruct H; subst v'; reflexivity.
Qed.

Lemma fuelled_dr_stage (v : Vars) (w : World) : fuelled (dr_stage v w).
Proof.
  unfold dr_stage, DelayedRejectionAlgorithm.dr_stage.
  apply fuelled_bind; [apply fuelled_propose | intros [th w1] _].
  apply fuelled_bind; [apply fuelled_outside_bounds | intros [|] _];
    [apply fuelled_ok |].
  apply fuelled_bind; [apply alphafun_fuelled | intros [a cnt] _].
  destruct (Num.geb a Num.one).
  - apply fuelled_bind; [apply fuelled_py_incr | intros; apply fuelled_ok].
  - simpl. destruct (Num.ltb _ a); [| apply fuelled_ok].
    apply fuelled_bind; [apply fuelled_py_incr | intros; apply fuelled_ok].
Qed.

(** The loop never runs out of fuel: each iteration moves [itry] one
    step towards [ntry]. *)
Lemma fuelled_dr_loop (fuel : nat) :
  forall v w, ntry - itry v <= Z.of_nat fuel -> fuelled (dr_loop fuel v w).
Proof.
  induction fuel as [|fuel IH]; intros v w Hf; simpl.
  - destruct (accept v =? 0); simpl; [| apply fuelled_ok].
    destruct (itry v <? ntry) eqn:E; [| apply fuelled_ok].
    apply Z.ltb_lt in E. lia.
  - destruct ((accept v =? 0) && (itry v <? ntry)); [| apply fuelled_ok].
    apply fuelled_bind; [apply fuelled_dr_stage | intros [v' w'] Hs].
    apply IH. apply dr_stage_itry in Hs. lia.
Qed.

Lemma fuelled_run_delayed_rejection (w : World) :
  fuelled (run_delayed_rejection w).
Proof.
  unfold run_delayed_rejection, DelayedRejectionAlgorithm.run_delayed_rejection.
  apply fuelled_bind.
  - apply fuelled_dr_loop. simpl. lia.
  - intros [v w'] _. apply fuelled_bind; [| intros; apply fuelled_ok].
    unfold ret. destruct (out_set v); [destruct (outbound v) |]; discriminate.
Qed.

End DRFacts.

Section DRClaims.

Import DelayedRejectionAlgorithm.

Variable rng : RandomSource.
Variables old_set new_set : ParameterSet.
Variable RDR : list Np.matrix.
Variable parameters : ModelParameters.
Variable invR : list Np.matrix.
Variable sosobj : SumOfSquares.
Variable priorobj : PriorFunction.

(** C3. With [ntry = 1] the loop of [run_delayed_rejection] is not
    entered: no trial is made and nothing is called.  The [return] then
    reads [out_set] and [outbound], which only the loop assigns, and the
    call ends in [UnboundLocalError] instead of returning the outcome of
    the Metropolis trial. *)
Theorem run_delayed_rejection_ntry_1 (w : World) :
  run_loop rng old_set new_set RDR 1 parameters invR sosobj priorobj w
  = Ok (mkVars [old_set; new_set] 1 0 None None, w) /\
  run_delayed_rejection rng old_set new_set RDR 1 parameters invR sosobj priorobj w
  = Err UnboundLocalError.
Proof. split; reflexivity. Qed.

Variable ntry : Z.

Let dr_stage := dr_stage rng old_set new_set RDR parameters invR sosobj priorobj.
Let dr_loop := dr_loop rng old_set new_set RDR ntry parameters invR sosobj priorobj.

(** C7, amended. A stage that completes makes exactly one call
    [randn(1, npar)] first.  It then makes one call [rand(1)] only if the
    candidate is inside the bounds and the stage's alpha is below one;
    for a candidate outside the bounds, or an alpha of one, it makes no
    uniform draw at all. *)
Theorem dr_stage_draws (v : Vars) (w : World) (v' : Vars) (w' : World) :
  dr_stage v w = Ok (v', w') ->
  exists (last : ParameterSet) (a : num) (outside : bool),
    py_index (trypath v') (-1) = Ok last /\
    alpha last = Some a /\
    outside_bounds (theta last) parameters = Ok outside /\
    rng_calls w' =
    rng_calls w ++ Randn (npar parameters) :: uniform_draws outside a.
Proof.
  intros H. apply dr_stage_inv in H.
  destruct H as [th w1 Hp Ho Hv Hw | th w1 a cnt acc w2 Hp Ho Ha Hd Hv Hw
                 | th w1 a Hp Ho Ha Hg Hv Hw];
    apply propose_inv in Hp; destruct Hp as [-> _]; subst v'; simpl trypath.
  - exists (outside_set new_set th), Num.zero, true.
    rewrite py_index_last. subst w'. repeat split; assumption.
  - exists (inside_set new_set sosobj priorobj th a), a, false.
    rewrite py_index_last. repeat split; try assumption.
    rewrite Hw. unfold uniform_draws.
    destruct Hd as [[-> ->] | [-> ->]]; simpl; [reflexivity |].
    rewrite <- app_assoc. reflexivity.
  - exists (inside_set new_set sosobj priorobj th a), a, false.
    rewrite py_index_last. repeat split; try assumption.
    rewrite Hw. unfold uniform_draws. rewrite Hg. simpl.
    rewrite <- app_assoc. reflexivity.
Qed.

Lemma dr_stage_flag (v : Vars) (w : World) (v' : Vars) (w' : World) :
  2 <= len (trypath v) ->
  dr_stage v w = Ok (v', w') ->
  flag_of_last parameters v' /\ 3 <= len (trypath v') /\ outbound v' <> None.
Proof.
  intros Hlen H. apply dr_stage_inv in H.
  assert (Happ : forall x, 3 <= len (trypath v ++ [x])).
  { intros x. unfold len in *. rewrite length_app. simpl. lia. }
  destruct H as [th w1 Hp Ho Hv Hw | th w1 a cnt acc w2 Hp Ho Ha Hd Hv Hw
                 | th w1 a Hp Ho Ha Hg Hv Hw];
    subst v'; unfold flag_of_last; simpl;
    (split; [| split; [apply Happ | discriminate]]);
    eexists; rewrite py_index_last;
    (split; [reflexivity |]); (split; [apply Happ |]); simpl; auto.
Qed.

Lemma dr_loop_flag (fuel : nat) :
  forall v w v' w',
    2 <= len (trypath v) ->
    flag_of_last parameters v ->
    dr_loop fuel v w = Ok (v', w') ->
    flag_of_last parameters v'.
Proof.
  induction fuel as [|fuel IH]; intros v w v' w' Hlen Hinv; simpl.
  - destruct (_ && _); [discriminate |]. intros [= <- <-]. exact Hinv.
  - destruct (_ && _); [| intros [= <- <-]; exact Hinv].
    fold dr_stage.
    destruct (dr_stage v w) as [[v1 w1]|e] eqn:Hs; simpl; [| discriminate].
    apply dr_stage_flag in Hs; [| exact Hlen]. destruct Hs as (Hf & Hl & _).
    intros HL. eapply IH; [| | exact HL]; [lia | exact Hf].
Qed.

(** C10. When [run_delayed_rejection] returns, its flag [outbound]
    describes the last trial of the path and nothing else: it is [1] if
    the candidate of the last stage performed is outside the bounds and
    [0] if it is inside, whatever the earlier stages were. *)
Theorem outbound_reflects_last_trial (w : World) (acc : Z) (out : ParameterSet)
        (flag : Z) (w' : World) :
  run_delayed_rejection rng old_set new_set RDR ntry parameters invR sosobj priorobj w
  = Ok ((acc, out, flag), w') ->
  exists (v : Vars) (last : ParameterSet),
    run_loop rng old_set new_set RDR ntry parameters invR sosobj priorobj w
    = Ok (v, w') /\
    py_index (trypath v) (-1) = Ok last /\
    3 <= len (trypath v) /\
    (flag = 0 \/ flag = 1) /\
    outside_bounds (theta last) parameters = Ok (flag =? 1).
Proof.
  unfold run_delayed_rejection.
  destruct (run_loop _ _ _ _ _ _ _ _ _ w) as [[v w1]|e] eqn:HL; simpl; [| discriminate].
  destruct (ret v) as [[[acc' out'] flag']|e] eqn:HR; simpl; [| discriminate].
  intros [= -> -> -> ->].
  unfold run_loop in HL. fold dr_loop in HL.
  apply dr_loop_flag in HL; [| unfold len; simpl; lia | exact I].
  unfold ret in HR. unfold flag_of_last in HL.
  destruct (out_set v); [| discriminate].
  destruct (outbound v) as [b|]; [| discriminate].
  injection HR as _ _ ->.
  destruct HL as (last & H1 & H2 & H3 & H4).
  exists v, last. repeat split; assumption.
Qed.

End DRClaims.

(** ** A stage whose candidate leaves the box *)

Section FarStage.

Import DelayedRejectionAlgorithm.
Import Examples.

Let old_set := state 0 10.
Let new_set := state 1 12.

Lemma far_propose (v : R) (i : Z) (w : World) :
  i = 2 ->
  propose (constant_rng 20 v) old_set RDR2 box i w
  = Ok ([Fin 10], log_rng (Randn 1) w).
Proof.
  intros ->. unfold propose, randn. simpl.
  unfold Np.dot. simpl. unfold Np.broadcast. simpl. unfold reshape. simpl.
  fin_rw. do 2 f_equal. f_equal. apply fin_eq. lra.
Qed.

Lemma far_outside : outside_bounds [Fin 10] box = Ok true.
Proof.
  unfold outside_bounds. simpl. unfold Np.any_lt, Np.broadcast. simpl.
  rewrite fin_ltb_false by lra. simpl.
  rewrite fin_ltb_true by lra. reflexivity.
Qed.

Lemma far_out_of_box : out_of_box [Fin 10] box.
Proof.
  exists 0%nat, (Fin 10), 0. repeat split. right.
  exists (Fin 5). split; [reflexivity | apply fin_ltb_true; lra].
Qed.

Lemma box_well_indexed : well_indexed box.
Proof. repeat split; eexists; reflexivity. Qed.

Lemma far_stage (v : R) :
  dr_stage (constant_rng 20 v) old_set new_set RDR2 box invR2 (flat_sos 9) flat_prior
           (start old_set new_set) fresh
  = Ok (mkVars [old_set; new_set; outside_set new_set [Fin 10]] 2 0
               (Some old_set) (Some 1),
        log_rng (Randn 1) fresh).
Proof.
  apply (dr_stage_outside (constant_rng 20 v) old_set new_set RDR2 box invR2
           (flat_sos 9) flat_prior (start old_set new_set) fresh [Fin 10]).
  - apply far_propose. reflexivity.
  - apply far_outside.
Qed.

Lemma far_run (v : R) :
  run_delayed_rejection (constant_rng 20 v) old_set new_set RDR2 2 box invR2
                        (flat_sos 9) flat_prior fresh
  = Ok ((0, old_set, 1), log_rng (Randn 1) fresh).
Proof.
  unfold run_delayed_rejection, run_loop. simpl dr_loop.
  change (mkVars [old_set; new_set] 1 0 None None) with (start old_set new_set).
  rewrite far_stage. reflexivity.
Qed.

End FarStage.

Section DRWitnesses.

Import DelayedRejectionAlgorithm.
Import Examples.

Lemma dr_stage_draws_witness :
  exists (last : ParameterSet) (a : num) (outside : bool),
    py_index [state 0 10; state 1 12; outside_set (state 1 12) [Fin 10]] (-1)
    = Ok last /\
    alpha last = Some a /\
    outside_bounds (theta last) box = Ok outside /\
    rng_calls (log_rng (Randn 1) fresh) =
    rng_calls fresh ++ Randn (npar box) :: uniform_draws outside a.
Proof.
  apply (dr_stage_draws (constant_rng 20 (1 / 2)) (state 0 10) (state 1 12) RDR2 box
           invR2 (flat_sos 9) flat_prior (start (state 0 10) (state 1 12)) fresh
           (mkVars [state 0 10; state 1 12; outside_set (state 1 12) [Fin 10]] 2 0
                   (Some (state 0 10)) (Some 1))
           (log_rng (Randn 1) fresh)).
  apply far_stage.
Defined.

End DRWitnesses.

(** ** Candidates outside the bounds *)

Section OutOfBounds.

Import DelayedRejectionAlgorithm.
Import Utilities.
Import Metropolis.

(** Under [well_indexed], the check of the Metropolis step is the check
    of the Delayed Rejection loop. *)
Lemma is_sample_outside_bounds_spec (th : list num) (parameters : ModelParameters)
      (lo up : list num) :
  fancy_index (lower_limits parameters) (parind parameters) = Ok lo ->
  fancy_index (upper_limits parameters) (parind parameters) = Ok up ->
  is_sample_outside_bounds th lo up = outside_bounds th parameters.
Proof.
  intros Hlo Hup. unfold is_sample_outside_bounds, outside_bounds.
  rewrite Hlo. simpl. destruct (Np.any_lt th lo) as [[|]|e]; simpl; try reflexivity.
  rewrite Hup. reflexivity.
Qed.

Lemma sample_candidate_inv (rng : RandomSource) (n : Z) (oldpar : list num)
      (R : Np.matrix) (w : World) (th u : list num) (w1 : World) :
  sample_candidate_from_gaussian_proposal rng n oldpar R w = Ok ((th, u), w1) ->
  w1 = log_rng (Randn n) w /\ len th = n.
Proof.
  unfold sample_candidate_from_gaussian_proposal, randn.
  destruct (n <? 0); simpl; [discriminate |].
  destruct (Np.dot _ R) as [step|e]; simpl; [| discriminate].
  destruct (Np.broadcast _ _ _) as [t|e]; simpl; [| discriminate].
  unfold reshape. destruct (len t =? n) eqn:E; simpl; [| discriminate].
  intros [= <- _ <-]. split; [reflexivity | apply Z.eqb_eq; exact E].
Qed.

(** C6. A candidate with a component strictly below its lower limit or
    strictly above its upper limit, the limits taken through [parind]:

    - a Delayed Rejection stage appends to the trial path a state with
      [ss = +inf], [prior = 0] and [alpha = 0], leaves [accept] as it
      was, sets [outbound = 1] and [out_set = old_set], calls no
      collaborator, and has used up one try: the loop goes on from
      [itry + 1];
    - the Metropolis step returns [accept = False], [outbound = 1] and a
      state with [ss = +inf], [prior = 0] and [alpha = 0], and calls no
      collaborator. *)
Theorem out_of_bounds_candidate :
  (forall (rng : RandomSource) (old_set new_set : ParameterSet)
          (RDR : list Np.matrix) (ntry : Z) (parameters : ModelParameters)
          (invR : list Np.matrix) (sosobj : SumOfSquares) (priorobj : PriorFunction)
          (v : Vars) (w : World) (th : list num) (w1 : World),
      well_indexed parameters ->
      propose rng old_set RDR parameters (itry v + 1) w = Ok (th, w1) ->
      out_of_box th parameters ->
      exists next v',
        dr_stage rng old_set new_set RDR parameters invR sosobj priorobj v w
        = Ok (v', w1) /\
        v' = mkVars (trypath v ++ [next]) (itry v + 1) (accept v)
                    (Some old_set) (Some 1) /\
        theta next = th /\
        rejected_out_of_bounds next /\
        model_calls w1 = model_calls w /\
        (accept v = 0 -> itry v < ntry ->
         forall fuel,
           dr_loop rng old_set new_set RDR ntry parameters invR sosobj priorobj
                   (S fuel) v w
           = dr_loop rng old_set new_set RDR ntry parameters invR sosobj priorobj
                     fuel v' w1))
  /\
  (forall (rng : RandomSource) (old_set : ParameterSet) (parameters : ModelParameters)
          (R : Np.matrix) (prior_object : PriorFunction)
          (like_object : LikelihoodFunction) (sos_object : option SumOfSquares)
          (w : World) (newpar u : list num) (w1 : World),
      well_indexed parameters ->
      sample_candidate_from_gaussian_proposal rng (npar parameters) (theta old_set) R w
      = Ok ((newpar, u), w1) ->
      out_of_box newpar parameters ->
      exists newset,
        run_metropolis_step rng old_set parameters R prior_object like_object
                            sos_object w
        = Ok ((false, newset, 1, u), w1) /\
        theta newset = newpar /\
        rejected_out_of_bounds newset /\
        model_calls w1 = model_calls w).
Proof.
  split.
  - intros rng old_set new_set RDR ntry parameters invR sosobj priorobj v w th w1
           Hwi Hp Hout.
    destruct (propose_inv _ _ _ _ _ _ _ _ Hp) as [Hw1 Hlen].
    destruct (outside_bounds_spec th parameters Hwi Hlen) as (b & Hb & Hiff).
    apply Hiff in Hout. subst b.
    pose proof (dr_stage_outside rng old_set new_set RDR parameters invR sosobj
                  priorobj v w th w1 Hp Hb) as Hs.
    exists (outside_set new_set th). eexists.
    split; [exact Hs |]. split; [reflexivity |]. split; [reflexivity |].
    split; [repeat split |]. split; [subst w1; reflexivity |].
    intros Hacc Hit fuel. simpl.
    replace ((accept v =? 0) && (itry v <? ntry)) with true.
    + rewrite Hs. reflexivity.
    + symmetry. apply andb_true_iff. split; [apply Z.eqb_eq | apply Z.ltb_lt]; lia.
  - intros rng old_set parameters R prior_object like_object sos_object w newpar u w1
           Hwi Hs Hout.
    destruct (sample_candidate_inv _ _ _ _ _ _ _ _ Hs) as [Hw1 Hlen].
    destruct (outside_bounds_spec newpar parameters Hwi Hlen) as (b & Hb & Hiff).
    apply Hiff in Hout. subst b.
    destruct Hwi as (_ & (lo & Hlo) & (up & Hup)).
    unfold run_metropolis_step. rewrite Hs. simpl. rewrite Hlo, Hup. simpl.
    rewrite (is_sample_outside_bounds_spec newpar parameters lo up Hlo Hup), Hb.
    simpl. eexists. split; [reflexivity |]. split; [reflexivity |].
    split; [repeat split |]. subst w1. reflexivity.
Qed.

End OutOfBounds.

Section OutOfBoundsWitness.

Import DelayedRejectionAlgorithm.
Import Utilities.
Import Metropolis.
Import Examples.

Lemma far_sample (w : World) :
  sample_candidate_from_gaussian_proposal (constant_rng 20 (1 / 2)) (npar box)
                                          (theta (state 0 10)) identity1 w
  = Ok (([Fin 20], [Fin 20]), log_rng (Randn 1) w).
Proof.
  unfold sample_candidate_from_gaussian_proposal, randn. simpl.
  unfold Np.dot. simpl. unfold Np.broadcast. simpl. unfold reshape. simpl.
  fin_rw. do 3 f_equal. f_equal. apply fin_eq. lra.
Qed.

Lemma farther_out_of_box : out_of_box [Fin 20] box.
Proof.
  exists 0%nat, (Fin 20), 0. repeat split. right.
  exists (Fin 5). split; [reflexivity | apply fin_ltb_true; lra].
Qed.

Lemma out_of_bounds_candidate_witness :
  (exists next v',
      dr_stage (constant_rng 20 (1 / 2)) (state 0 10) (state 1 12) RDR2 box invR2
               (flat_sos 9) flat_prior (start (state 0 10) (state 1 12)) fresh
      = Ok (v', log_rng (Randn 1) fresh) /\
      v' = mkVars ([state 0 10; state 1 12] ++ [next]) (1 + 1) 0
                  (Some (state 0 10)) (Some 1) /\
      theta next = [Fin 10] /\
      rejected_out_of_bounds next /\
      model_calls (log_rng (Randn 1) fresh) = model_calls fresh /\
      (0 = 0 -> 1 < 3 ->
       forall fuel,
         dr_loop (constant_rng 20 (1 / 2)) (state 0 10) (state 1 12) RDR2 3 box invR2
                 (flat_sos 9) flat_prior (S fuel) (start (state 0 10) (state 1 12)) fresh
         = dr_loop (constant_rng 20 (1 / 2)) (state 0 10) (state 1 12) RDR2 3 box
                   invR2 (flat_sos 9) flat_prior fuel v' (log_rng (Randn 1) fresh)))
  /\
  (exists newset,
      run_metropolis_step (constant_rng 20 (1 / 2)) (state 0 10) box identity1
                          flat_prior (flat_like 9) (Some (flat_sos 9)) fresh
      = Ok ((false, newset, 1, [Fin 20]), log_rng (Randn 1) fresh) /\
      theta newset = [Fin 20] /\
      rejected_out_of_bounds newset /\
      model_calls (log_rng (Randn 1) fresh) = model_calls fresh).
Proof.
  split.
  - apply (proj1 out_of_bounds_candidate (constant_rng 20 (1 / 2)) (state 0 10)
             (state 1 12) RDR2 3 box invR2 (flat_sos 9) flat_prior
             (start (state 0 10) (state 1 12)) fresh [Fin 10] (log_rng (Randn 1) fresh)).
    + apply box_well_indexed.
    + apply far_propose. reflexivity.
    + apply far_out_of_box.
  - apply (proj2 out_of_bounds_candidate (constant_rng 20 (1 / 2)) (state 0 10) box
             identity1 flat_prior (flat_like 9) (Some (flat_sos 9)) fresh
             [Fin 20] [Fin 20] (log_rng (Randn 1) fresh)).
    + apply box_well_indexed.
    + apply far_sample.
    + apply farther_out_of_box.
Defined.

End OutOfBoundsWitness.

(** ** The acceptance ratio of the Metropolis step *)

Section Likelihood.

Import Metropolis.

Lemma sum_fin_from (rs : list R) (acc : R) :
  fold_left Num.add (map Fin rs) (Fin acc) = Fin (fold_left Rplus rs acc).
Proof.
  revert acc. induction rs as [|r rs IH]; intros acc; simpl; [reflexivity |].
  rewrite fin_add. apply IH.
Qed.

Lemma misfit_terms (l : list (R * R * R)) :
  (forall s1 s2 g, In (s1, s2, g) l -> g <> 0%R) ->
  Np.zip_with Num.mul
    (Np.zip_with Num.sub (map (fun t => Fin (fst (fst t))) l)
                         (map (fun t => Fin (snd (fst t))) l))
    (map Num.inv (map (fun t => Fin (snd t)) l))
  = map Fin (map (fun t => let '(s1, s2, g) := t in ((s1 - s2) * / g)%R) l).
Proof.
  induction l as [|[[s1 s2] g] l IH]; intros Hg; simpl; [reflexivity |].
  rewrite fin_inv by (apply (Hg s1 s2 g); left; reflexivity).
  rewrite fin_sub, fin_mul. f_equal.
  apply IH. intros a b c H. apply (Hg a b c). right. exact H.
Qed.

(** The value [evaluate_likelihood_function] computes on arrays of finite
    numbers, one entry per residual component and one prior value. *)
Lemma evaluate_likelihood_function_fin (l : list (R * R * R)) (p1 p2 : R) :
  (forall s1 s2 g, In (s1, s2, g) l -> g <> 0%R) ->
  evaluate_likelihood_function
    (Arr (map (fun t => Fin (fst (fst t))) l))
    (Arr (map (fun t => Fin (snd (fst t))) l))
    (Arr (map (fun t => Fin (snd t)) l))
    (Arr [Fin p1]) (Arr [Fin p2])
  = Ok (Fin (exp (- (1 / 2) * (misfit l + p1 - p2)))).
Proof.
  intros Hg. unfold evaluate_likelihood_function. simpl.
  unfold Np.broadcast at 1. rewrite !length_map, Nat.eqb_refl. simpl.
  unfold Np.broadcast at 1. rewrite length_map.
  assert (Hz : forall (f : num -> num -> num) (a b : list num),
             length a = length b -> length (Np.zip_with f a b) = length a).
  { intros f a. induction a as [|x a IH]; intros [|y b]; simpl; try reflexivity;
      try discriminate. intros [= H]. f_equal. apply IH. exact H. }
  rewrite Hz by (rewrite !length_map; reflexivity).
  rewrite !length_map, Nat.eqb_refl. simpl.
  rewrite misfit_terms by exact Hg.
  unfold Num.sum, Num.zero. rewrite sum_fin_from. fold (misfit l). simpl.
  fin_rw. f_equal. apply fin_eq. f_equal. lra.
Qed.

End Likelihood.

Section AcceptanceProbabilities.

Import DelayedRejectionAlgorithm.
Import Metropolis.
Import Examples.

(** C1, as stated, fails for the single-stage ratio: for a candidate
    whose sum of squares is lower than the current one,
    [evaluate_likelihood_function] returns [exp(1)], which is above one;
    [min(1, exp(y))] would be one. *)
Lemma evaluate_likelihood_function_exceeds_one :
  evaluate_likelihood_function (Arr [Fin 0]) (Arr [Fin 2]) (Arr [Fin 1])
                               (Arr [Fin 0]) (Arr [Fin 0])
  = Ok (Fin (exp 1)) /\
  (1 < exp 1)%R /\
  Num.pymin Num.one (Num.exp (Fin 1)) = Num.one /\
  ~ unit_interval (Fin (exp 1)).
Proof.
  assert (H1 : (1 < exp 1)%R) by (pose proof (exp_ineq1 1); lra).
  split; [| split; [exact H1 | split]].
  - assert (Hg : forall s1 s2 g : R, In (s1, s2, g) [(0, 2, 1)%R] -> g <> 0%R).
    { intros s1 s2 g [[= <- <- <-] | []]. lra. }
    pose proof (evaluate_likelihood_function_fin [(0, 2, 1)%R] 0 0 Hg) as E.
    simpl in E. rewrite E. unfold misfit. simpl.
    f_equal. apply fin_eq. f_equal. lra.
  - rewrite fin_exp. apply pymin_one_ge. lra.
  - intros (r & [= <-] & Hr). lra.
Qed.

(** What [np.exp] keeps of the order, also when its value is rounded:
    at least one from zero on, above one from one on. *)
Lemma exp_order (y : num) :
  (Num.geb y Num.zero = true -> Num.geb (Num.exp y) Num.one = true) /\
  (Num.geb y Num.one = true -> Num.ltb Num.one (Num.exp y) = true).
Proof.
  destruct y as [r| | |]; unfold Num.geb, Num.ltb, Num.exp, Num.zero, Num.one; split;
    try discriminate; try reflexivity.
  - destruct (Rle_dec 0 r) as [H|H]; [| discriminate]. intros _.
    pose proof (exp_ge_1 r H). destruct (Rle_dec 1 (exp r)); [reflexivity | lra].
  - destruct (Rle_dec 1 r) as [H|H]; [| discriminate]. intros _.
    pose proof (exp_ineq1 r). destruct (Rlt_dec 1 (exp r)); [reflexivity | lra].
Qed.

Lemma length_zip_with {B : Type} (f : num -> num -> B) (a : list num) :
  forall b : list num, length a = length b -> length (Np.zip_with f a b) = length a.
Proof.
  induction a as [|x a IH]; intros [|y b]; simpl; try reflexivity; try discriminate.
  intros [= H]. f_equal. apply IH. exact H.
Qed.

(** The operations of [evaluate_likelihood_function], one after the
    other, on arrays of equal length and one prior value each. *)
Lemma evaluate_likelihood_function_arrays (s1 s2 g : list num) (p1 p2 : num) :
  length s1 = length s2 ->
  length s2 = length g ->
  evaluate_likelihood_function (Arr s1) (Arr s2) (Arr g) (Arr [p1]) (Arr [p2])
  = Ok (Num.exp
          (Num.mul Num.minus_half
             (Num.sub (Num.add (Num.sum (Np.zip_with Num.mul (Np.zip_with Num.sub s1 s2)
                                                     (map Num.inv g)))
                               p1)
                      p2))).
Proof.
  intros H12 H2g. unfold evaluate_likelihood_function. cbn [Np.binop Np.unop].
  unfold Np.broadcast at 1. rewrite (proj2 (Nat.eqb_eq _ _) H12).
  cbn [bind Np.binop Np.unop].
  unfold Np.broadcast at 1.
  rewrite length_zip_with, length_map by exact H12.
  rewrite (proj2 (Nat.eqb_eq _ _) (eq_trans H12 H2g)).
  cbn [bind Np.pysum Np.binop map].
  unfold Np.broadcast. cbn [length Nat.eqb bind Np.zip_with Np.unop map Np.pysum].
  unfold Num.sum at 1. cbn [fold_left]. rewrite add_zero_l. reflexivity.
Qed.

(** C1, amended. [evaluate_likelihood_function] returns [exp(y)] itself,
    with [y = -0.5 * (sum((ss1 - ss2) / sigma2) + newprior - oldprior)]
    as the code computes it, and not [min(1, exp(y))]: the value is at
    least one whenever [y >= 0] and above one whenever [y >= 1], so it
    need not lie in [[0, 1]].  Every alpha that [alphafun] returns lies
    in [[0, 1]]. *)
Theorem acceptance_probabilities :
  (forall (s1 s2 g : list num) (p1 p2 : num),
      length s1 = length s2 ->
      length s2 = length g ->
      let y := Num.mul Num.minus_half
                 (Num.sub (Num.add (Num.sum (Np.zip_with Num.mul
                                               (Np.zip_with Num.sub s1 s2)
                                               (map Num.inv g)))
                                   p1)
                          p2) in
      evaluate_likelihood_function (Arr s1) (Arr s2) (Arr g) (Arr [p1]) (Arr [p2])
      = Ok (Num.exp y) /\
      (Num.geb y Num.zero = true -> Num.geb (Num.exp y) Num.one = true) /\
      (Num.geb y Num.one = true -> Num.ltb Num.one (Num.exp y) = true))
  /\
  (forall (invR : list Np.matrix) (trypath : list ParameterSet) (cnt : Z)
          (a : num) (cnt' : Z),
      alphafun trypath invR cnt = Ok (a, cnt') -> unit_interval a).
Proof.
  split.
  - intros s1 s2 g p1 p2 H12 H2g y.
    split; [apply evaluate_likelihood_function_arrays; assumption |].
    apply exp_order.
  - intros invR trypath cnt a cnt'. apply alphafun_unit.
Qed.

Lemma acceptance_probabilities_witness :
  (let y := Num.mul Num.minus_half
              (Num.sub (Num.add (Num.sum (Np.zip_with Num.mul
                                            (Np.zip_with Num.sub [Fin 0] [Fin 2])
                                            (map Num.inv [Fin 1])))
                                (Fin 0))
                       (Fin 0)) in
   evaluate_likelihood_function (Arr [Fin 0]) (Arr [Fin 2]) (Arr [Fin 1])
                                (Arr [Fin 0]) (Arr [Fin 0])
   = Ok (Num.exp y) /\
   Num.geb (Num.exp y) Num.one = true /\
   Num.ltb Num.one (Num.exp y) = true)
  /\ unit_interval (Num.pymin Num.one (Fin (exp (- (1 / 2) * (1 / 1 - 0 / 1 + 0 - 0))))).
Proof.
  split.
  - assert (Hy : Num.mul Num.minus_half
                   (Num.sub (Num.add (Num.sum (Np.zip_with Num.mul
                                                 (Np.zip_with Num.sub [Fin 0] [Fin 2])
                                                 (map Num.inv [Fin 1])))
                                     (Fin 0))
                            (Fin 0)) = Fin 1).
    { cbn [Np.zip_with map]. rewrite fin_inv by lra. unfold Num.sum. cbn [fold_left].
      fin_rw. apply fin_eq. lra. }
    destruct (proj1 acceptance_probabilities [Fin 0] [Fin 2] [Fin 1] (Fin 0) (Fin 0)
                    eq_refl eq_refl) as (He & H0 & H1).
    split; [exact He |]. split.
    + apply H0. rewrite Hy. unfold Num.zero. apply fin_geb_true. lra.
    + apply H1. rewrite Hy. unfold Num.one. apply fin_geb_true. lra.
  - apply (proj2 acceptance_probabilities [] [state 0 0; state 1 1] 0
             (Num.pymin Num.one (Fin (exp (- (1 / 2) * (1 / 1 - 0 / 1 + 0 - 0))))) 1).
    rewrite alphafun_pair. unfold state.
    rewrite logposteriorratio_fin by lra. reflexivity.
Defined.

End AcceptanceProbabilities.

(** ** What the Metropolis step returns *)

Section MetropolisResult.

Import Utilities.
Import Metropolis.
Import Examples.

Lemma near_sample (v : R) (w : World) :
  sample_candidate_from_gaussian_proposal (constant_rng 1 v) 1 [Fin 0] identity1 w
  = Ok (([Fin 1], [Fin 1]), log_rng (Randn 1) w).
Proof.
  unfold sample_candidate_from_gaussian_proposal, randn. simpl.
  unfold Np.dot. simpl. unfold Np.broadcast. simpl. unfold reshape. simpl.
  fin_rw. do 3 f_equal. f_equal. apply fin_eq. lra.
Qed.

Lemma exp_minus_2 : (exp (- 2) < 9 / 10)%R.
Proof.
  replace (-2)%R with (Ropp 2) by lra.
  rewrite exp_Ropp. pose proof (exp_ineq1_le 2) as H.
  assert (H3 : (3 <= exp 2)%R) by lra.
  assert (Hi : (/ exp 2 <= / 3)%R) by (apply Rinv_le_contravar; lra).
  lra.
Qed.

Opaque Metropolis.evaluate_likelihood_function.

Lemma near_step :
  run_metropolis_step (constant_rng 1 (9 / 10)) (state 0 10) box identity1
                      flat_prior (flat_like 14) (Some (flat_sos 14)) fresh
  = Ok ((false, worse_candidate, 0, [Fin 1]), after_rejection).
Proof.
  unfold run_metropolis_step. simpl theta. simpl npar.
  rewrite near_sample. simpl.
  unfold is_sample_outside_bounds, Np.any_lt, Np.broadcast. simpl.
  rewrite !fin_ltb_false by lra. simpl.
  assert (Hg : forall s1 s2 g : R, In (s1, s2, g) [(14, 10, 1)%R] -> g <> 0%R).
  { intros s1 s2 g [[= <- <- <-] | []]. lra. }
  pose proof (evaluate_likelihood_function_fin [(14, 10, 1)%R] 0 0 Hg) as E.
  simpl in E. rewrite E. clear E. simpl.
  replace (- (1 / 2) * (misfit [(14, 10, 1)%R] + 0 - 0))%R with (- 2)%R
    by (unfold misfit; simpl; lra).
  pose proof exp_minus_2 as H2.
  unfold acceptance_test, Num.one. rewrite fin_geb_false by lra. simpl.
  rewrite fin_ltb_false by lra. reflexivity.
Qed.

(** C2, as stated, fails: the step below rejects a candidate that is
    inside the bounds, and the state it returns is that candidate, with
    [theta = 1] and [ss = 14], not the current state with [theta = 0]
    and [ss = 10]. *)
Lemma rejected_step_returns_candidate :
  run_metropolis_step (constant_rng 1 (9 / 10)) (state 0 10) box identity1
                      flat_prior (flat_like 14) (Some (flat_sos 14)) fresh
  = Ok ((false, worse_candidate, 0, [Fin 1]), after_rejection) /\
  theta worse_candidate = [Fin 1] /\
  theta (state 0 10) = [Fin 0] /\
  worse_candidate <> state 0 10.
Proof.
  split; [apply near_step |]. split; [reflexivity |]. split; [reflexivity |].
  intros H. apply (f_equal theta) in H. simpl in H.
  injection H as H. lra.
Qed.

(** C2, amended. When the Metropolis step rejects a candidate that is
    inside the bounds, the state it returns is the rejected candidate:
    its [theta] is the proposed vector, its [ss], [prior] and [like] are
    those the collaborators gave for it, its [sigma2] is the current
    one, and its [alpha] is the value that [evaluate_likelihood_function]
    computed for it against the current state, which is below one and
    not above the uniform draw.  The current state is not returned. *)
Theorem rejected_step_result (rng : RandomSource) (old_set : ParameterSet)
        (parameters : ModelParameters) (R : Np.matrix)
        (prior_object : PriorFunction) (like_object : LikelihoodFunction)
        (sos_object : option SumOfSquares) (w : World)
        (newset : ParameterSet) (u : list num) (w' : World) :
  run_metropolis_step rng old_set parameters R prior_object like_object sos_object w
  = Ok ((false, newset, 0, u), w') ->
  exists (newpar q : list num) (a : num) (w1 : World) (ss2 oldprior : ndval),
    sample_candidate_from_gaussian_proposal rng (npar parameters) (theta old_set) R w
    = Ok ((newpar, u), w1) /\
    fancy_assign (initial_value parameters) (parind parameters) newpar = Ok q /\
    newset = mkParameterSet newpar
                            (Some (like_evaluate_sos_function like_object q))
                            (Some (evaluate_prior prior_object newpar))
                            (Some (evaluate_likelihood like_object newpar))
                            (sigma2 old_set) (Some a) /\
    ss old_set = Some ss2 /\
    prior old_set = Some oldprior /\
    evaluate_likelihood_function (like_evaluate_sos_function like_object q) ss2
                                 (sigma2 old_set)
                                 (evaluate_prior prior_object newpar) oldprior
    = Ok a /\
    Num.geb a Num.one = false /\
    Num.ltb (rand_at rng (rng_calls w1)) a = false.
Proof.
  unfold run_metropolis_step.
  destruct (sample_candidate_from_gaussian_proposal _ _ _ _ _)
    as [[[newpar u'] w1]|e] eqn:Hs; simpl; [| discriminate].
  destruct (fancy_index (lower_limits parameters) _) as [lo|e]; simpl; [| discriminate].
  destruct (fancy_index (upper_limits parameters) _) as [up|e]; simpl; [| discriminate].
  destruct (is_sample_outside_bounds newpar lo up) as [[|]|e]; simpl;
    [discriminate | | discriminate].
  destruct sos_object as [sos|]; simpl; [| discriminate].
  destruct (fancy_assign _ _ newpar) as [q|e] eqn:Hq; simpl; [| discriminate].
  destruct (ss old_set) as [ss2|] eqn:Hss; simpl; [| discriminate].
  destruct (prior old_set) as [p2|] eqn:Hp; simpl; [| discriminate].
  destruct (evaluate_likelihood_function _ _ _ _ _) as [a|e] eqn:Ha; simpl;
    [| discriminate].
  unfold acceptance_test. destruct (Num.geb a Num.one) eqn:Hg.
  - discriminate.
  - simpl. intros [= Hlt <- <- <-].
    exists newpar, q, a, w1, ss2, p2. repeat split; assumption.
Qed.

Lemma rejected_step_result_witness :
  exists (newpar q : list num) (a : num) (w1 : World) (ss2 oldprior : ndval),
    sample_candidate_from_gaussian_proposal (constant_rng 1 (9 / 10)) (npar box)
                                            (theta (state 0 10)) identity1 fresh
    = Ok ((newpar, [Fin 1]), w1) /\
    fancy_assign (initial_value box) (parind box) newpar = Ok q /\
    worse_candidate
    = mkParameterSet newpar
                     (Some (like_evaluate_sos_function (flat_like 14) q))
                     (Some (evaluate_prior flat_prior newpar))
                     (Some (evaluate_likelihood (flat_like 14) newpar))
                     (sigma2 (state 0 10)) (Some a) /\
    ss (state 0 10) = Some ss2 /\
    prior (state 0 10) = Some oldprior /\
    evaluate_likelihood_function (like_evaluate_sos_function (flat_like 14) q) ss2
                                 (sigma2 (state 0 10))
                                 (evaluate_prior flat_prior newpar) oldprior
    = Ok a /\
    Num.geb a Num.one = false /\
    Num.ltb (rand_at (constant_rng 1 (9 / 10)) (rng_calls w1)) a = false.
Proof.
  apply (rejected_step_result (constant_rng 1 (9 / 10)) (state 0 10) box identity1
           flat_prior (flat_like 14) (Some (flat_sos 14)) fresh
           worse_candidate [Fin 1] after_rejection).
  apply near_step.
Defined.

End MetropolisResult.

(** ** Prediction intervals: where an unknown [sstype] is noticed *)

Section UnknownSstype.

Import PredictionIntervals.


Lemma pbind_inv {A B : Type} (m : PM A) (k : A -> PM B) (t t' : list event)
      (r : res B) :
  pbind m k t = (t', r) ->
  (exists e, m t = (t', Err e) /\ r = Err e) \/
  (exists a t1, m t = (t1, Ok a) /\ k a t1 = (t', r)).
Proof.
  unfold pbind. destruct (m t) as [t1 [a|e]].
  - intros H. right. exists a, t1. split; [reflexivity | exact H].
  - intros [= <- <-]. left. exists e. split; reflexivity.
Qed.











Section Loops.

Variable interp_min : Z.
Variable o : Object.
Variable sstype : Z.
Variable ix : row_index.
Variable nsample : Z.











End Loops.

(** *** The setup does not look at [sstype] *)






Lemma quiet_emit (e : event) : quiet (emit e).
Proof. unfold quiet, emit. discriminate. Qed.






(** *** The sampling loop reports it after the first draw *)


End UnknownSstype.

Section UnknownSstypeClaim.

Import PredictionIntervals.
Import Examples.




End UnknownSstypeClaim.

(** ** A run that accepts at the second stage *)

Section NearStage.

Import DelayedRejectionAlgorithm.
Import Examples.

Let old_set := state 0 10.
Let new_set := state 1 12.

Lemma near_propose (v : R) (w : World) :
  propose (constant_rng 1 v) old_set RDR2 box 2 w
  = Ok ([Fin (1 / 2)], log_rng (Randn 1) w).
Proof.
  unfold propose, randn. simpl.
  unfold Np.dot. simpl. unfold Np.broadcast. simpl. unfold reshape. simpl.
  fin_rw. do 2 f_equal. f_equal. apply fin_eq. lra.
Qed.

Lemma near_inside : outside_bounds [Fin (1 / 2)] box = Ok false.
Proof.
  unfold outside_bounds. simpl. unfold Np.any_lt, Np.broadcast. simpl.
  rewrite !fin_ltb_false by lra. reflexivity.
Qed.

Lemma near_loop :
  alpha_loop (fun p n => alphafun p invR2 n)
             [old_set; new_set; better_candidate None] 2 (py_range 1)
             Num.one Num.one 1
  = Ok (Continue (Fin (1 - exp (- 1))) (Fin (1 - exp (- (3 / 2)))) 3).
Proof.
  simpl.
  change (py_slice [old_set; new_set; better_candidate None] 0 2)
    with [old_set; new_set].
  change (py_slice_rev [old_set; new_set; better_candidate None] 2 0)
    with [better_candidate None; new_set].
  subst old_set new_set. unfold state, better_candidate.
  rewrite alphafun_pair, logposteriorratio_fin by lra. simpl. rewrite fin_exp.
  replace (- (1 / 2) * (12 / 1 - 10 / 1 + 0 - 0))%R with (- 1)%R by lra.
  rewrite pymin_one_lt by (apply exp_lt_1; lra).
  rewrite alphafun_pair, logposteriorratio_fin by lra. simpl. rewrite fin_exp.
  replace (- (1 / 2) * (12 / 1 - 9 / 1 + 0 - 0))%R with (- (3 / 2))%R by lra.
  rewrite pymin_one_lt by (apply exp_lt_1; lra).
  fin_rw.
  assert (Hlt : (exp (- (3 / 2)) < 1)%R) by (apply exp_lt_1; lra).
  rewrite fin_eqb_false by lra.
  f_equal. f_equal; apply fin_eq; lra.
Qed.

Lemma near_q :
  q_loop [old_set; new_set; better_candidate None] invR2 (py_range 2) (Fin (1 / 2))
  = Ok (Fin (7 / 8)).
Proof.
  simpl. unfold qfun. simpl. unfold Np.broadcast. simpl. unfold Np.dot. simpl.
  fin_rw. f_equal. apply fin_eq. lra.
Qed.

(** The stage's alpha: [exp(7/8) * (1 - exp(-3/2)) / (1 - exp(-1))],
    which is above one, capped at one. *)
Lemma near_alpha :
  alphafun [old_set; new_set; better_candidate None] invR2 0 = Ok (Num.one, 3).
Proof.
  rewrite (alphafun_continue invR2 _ 0 _ _ _ old_set (better_candidate None)
             (Fin (1 / 2)) (Fin (7 / 8)) near_loop eq_refl eq_refl).
  - assert (H1 : (exp (- 1) < 1)%R) by (apply exp_lt_1; lra).
    assert (H2 : (exp (- (3 / 2)) < exp (- 1))%R) by (apply exp_increasing; lra).
    assert (H3 : (1 <= exp (7 / 8))%R) by (apply exp_ge_1; lra).
    pose proof (exp_pos (- (3 / 2))) as H4.
    rewrite fin_inv by lra. fin_rw.
    rewrite pymin_one_ge; [reflexivity |].
    assert (Hi : (0 < / (1 - exp (- 1)))%R) by (apply Rinv_0_lt_compat; lra).
    assert (Hone : ((1 - exp (- 1)) * / (1 - exp (- 1)) = 1)%R)
      by (apply Rinv_r; lra).
    assert (Hge : (1 <= (1 - exp (- (3 / 2))) * / (1 - exp (- 1)))%R) by nra.
    assert (Hmul : (exp (7 / 8) * (1 - exp (- (3 / 2))) * / (1 - exp (- 1))
                    = exp (7 / 8) * ((1 - exp (- (3 / 2))) * / (1 - exp (- 1))))%R)
      by ring.
    rewrite Hmul. nra.
  - subst old_set. unfold state, better_candidate.
    rewrite logposteriorratio_fin by lra. f_equal. apply fin_eq. lra.
  - apply near_q.
Qed.

Lemma near_stage (v : R) :
  dr_stage (constant_rng 1 v) old_set new_set RDR2 box invR2 (flat_sos 9) flat_prior
           (start old_set new_set) fresh
  = Ok (mkVars [old_set; new_set; better_candidate (Some Num.one)] 2 1
               (Some (better_candidate (Some Num.one))) (Some 0),
        after_acceptance).
Proof.
  unfold dr_stage. simpl itry. rewrite near_propose. simpl.
  rewrite near_inside. simpl.
  change (mkParameterSet [Fin (1 / 2)] (Some (Arr [Fin 9])) (Some (Arr [Fin 0])) None
                         (Arr [Fin 1]) None)
    with (better_candidate None).
  change ([state 0 10; state 1 12] ++ [better_candidate None])
    with [old_set; new_set; better_candidate None].
  rewrite near_alpha. simpl.
  unfold Num.one. rewrite fin_geb_true by lra. reflexivity.
Qed.

(** A complete call: the second-stage candidate is inside the bounds
    and accepted because its alpha is one; no uniform number is drawn,
    and the flag returned is zero. *)
Lemma near_run (v : R) :
  run_delayed_rejection (constant_rng 1 v) old_set new_set RDR2 2 box invR2
                        (flat_sos 9) flat_prior fresh
  = Ok ((1, better_candidate (Some Num.one), 0), after_acceptance).
Proof.
  unfold run_delayed_rejection, run_loop. simpl dr_loop.
  change (mkVars [old_set; new_set] 1 0 None None) with (start old_set new_set).
  rewrite near_stage. reflexivity.
Qed.

End NearStage.

(** ** A run of two stages: rejected inside the bounds, then outside *)

Section TwoStages.

Import DelayedRejectionAlgorithm.
Import Examples.

Let old_set := state 0 10.
Let new_set := state 1 12.

Lemma mid_propose (v : R) (w : World) :
  propose (constant_rng 1 v) old_set RDR3 box 2 w
  = Ok ([Fin (1 / 2)], log_rng (Randn 1) w).
Proof.
  unfold propose, randn. simpl.
  unfold Np.dot. simpl. unfold Np.broadcast. simpl. unfold reshape. simpl.
  fin_rw. do 2 f_equal. f_equal. apply fin_eq. lra.
Qed.

Lemma last_propose (v : R) (w : World) :
  propose (constant_rng 1 v) old_set RDR3 box 3 w
  = Ok ([Fin 20], log_rng (Randn 1) w).
Proof.
  unfold propose, randn. simpl.
  unfold Np.dot. simpl. unfold Np.broadcast. simpl. unfold reshape. simpl.
  fin_rw. do 2 f_equal. f_equal. apply fin_eq. lra.
Qed.

Lemma last_outside : outside_bounds [Fin 20] box = Ok true.
Proof.
  unfold outside_bounds. simpl. unfold Np.any_lt, Np.broadcast. simpl.
  rewrite fin_ltb_false by lra. simpl.
  rewrite fin_ltb_true by lra. reflexivity.
Qed.

(** Going back from the poor candidate to the first one is accepted for
    sure, so the second stage has alpha zero. *)
Lemma mid_alpha :
  alphafun [old_set; new_set; poor_candidate None] invR3 0 = Ok (Num.zero, 3).
Proof.
  rewrite alphafun_unfold. simpl.
  change (py_slice [old_set; new_set; poor_candidate None] 0 2)
    with [old_set; new_set].
  change (py_slice_rev [old_set; new_set; poor_candidate None] 2 0)
    with [poor_candidate None; new_set].
  subst old_set new_set. unfold state, poor_candidate.
  rewrite alphafun_pair, logposteriorratio_fin by lra. simpl. rewrite fin_exp.
  rewrite alphafun_pair, logposteriorratio_fin by lra. simpl. rewrite fin_exp.
  replace (- (1 / 2) * (12 / 1 - 14 / 1 + 0 - 0))%R with 1%R by lra.
  rewrite (pymin_one_ge (exp 1)) by (apply exp_ge_1; lra).
  fin_rw. replace (1 * (1 - 1))%R with 0%R by lra.
  rewrite fin_eqb_true. reflexivity.
Qed.

Lemma mid_stage :
  dr_stage (constant_rng 1 (1 / 2)) old_set new_set RDR3 box invR3 (flat_sos 14)
           flat_prior (start old_set new_set) fresh3
  = Ok (mkVars [old_set; new_set; poor_candidate (Some Num.zero)] 2 0
               (Some old_set) (Some 0),
        mkWorld [Randn 1; Rand] [CallSos [Fin (1 / 2)]; CallPrior [Fin (1 / 2)]]
                [0; 0; 0] 3).
Proof.
  unfold dr_stage. simpl itry. rewrite mid_propose. simpl.
  rewrite near_inside. simpl.
  change (mkParameterSet [Fin (1 / 2)] (Some (Arr [Fin 14])) (Some (Arr [Fin 0])) None
                         (Arr [Fin 1]) None)
    with (poor_candidate None).
  change ([state 0 10; state 1 12] ++ [poor_candidate None])
    with [old_set; new_set; poor_candidate None].
  rewrite mid_alpha. simpl.
  unfold Num.zero, Num.one. rewrite fin_geb_false by lra.
  unfold rand. simpl. rewrite fin_ltb_false by lra. reflexivity.
Qed.

(** A complete call with [ntry = 3]: the second-stage candidate is
    inside the bounds and rejected, the third-stage candidate is outside
    the bounds; the flag returned is that of the third stage. *)
Lemma two_stage_run :
  run_delayed_rejection (constant_rng 1 (1 / 2)) old_set new_set RDR3 3 box invR3
                        (flat_sos 14) flat_prior fresh3
  = Ok ((0, old_set, 1), after_two_stages).
Proof.
  unfold run_delayed_rejection, run_loop. simpl dr_loop.
  change (mkVars [old_set; new_set] 1 0 None None) with (start old_set new_set).
  rewrite mid_stage. simpl.
  set (v := mkVars [old_set; new_set; poor_candidate (Some Num.zero)] 2 0
                   (Some old_set) (Some 0)).
  set (w := mkWorld [Randn 1; Rand] [CallSos [Fin (1 / 2)]; CallPrior [Fin (1 / 2)]]
                    [0; 0; 0] 3).
  rewrite (dr_stage_outside (constant_rng 1 (1 / 2)) old_set new_set RDR3 box invR3
             (flat_sos 14) flat_prior v w [Fin 20] (log_rng (Randn 1) w)
             (last_propose (1 / 2) w) last_outside).
  reflexivity.
Qed.

Lemma outbound_reflects_last_trial_witness :
  exists (v : Vars) (last : ParameterSet),
    run_loop (constant_rng 1 (1 / 2)) (state 0 10) (state 1 12) RDR3 3 box invR3
             (flat_sos 14) flat_prior fresh3
    = Ok (v, after_two_stages) /\
    py_index (trypath v) (-1) = Ok last /\
    3 <= len (trypath v) /\
    (1 = 0 \/ 1 = 1) /\
    outside_bounds (theta last) box = Ok (1 =? 1).
Proof.
  apply (outbound_reflects_last_trial (constant_rng 1 (1 / 2)) (state 0 10)
           (state 1 12) RDR3 box invR3 (flat_sos 14) flat_prior 3 fresh3
           0 (state 0 10) 1 after_two_stages).
  apply two_stage_run.
Defined.

End TwoStages.

Section NoUniformDraw.

Import DelayedRejectionAlgorithm.
Import Examples.

(** C7, as stated, fails, in both cases it names. A stage whose
    candidate is outside the bounds draws the normal vector and goes
    straight to the next iteration; a stage whose alpha is one accepts
    without drawing. In either case the only call on the random source
    is [randn(1, 1)]. *)
Lemma dr_stage_without_uniform_draw :
  (dr_stage (constant_rng 20 (1 / 2)) (state 0 10) (state 1 12) RDR2 box invR2
            (flat_sos 9) flat_prior (start (state 0 10) (state 1 12)) fresh
   = Ok (mkVars [state 0 10; state 1 12; outside_set (state 1 12) [Fin 10]] 2 0
                (Some (state 0 10)) (Some 1),
         log_rng (Randn 1) fresh) /\
   rng_calls (log_rng (Randn 1) fresh) = [Randn 1])
  /\
  (dr_stage (constant_rng 1 (1 / 2)) (state 0 10) (state 1 12) RDR2 box invR2
            (flat_sos 9) flat_prior (start (state 0 10) (state 1 12)) fresh
   = Ok (mkVars [state 0 10; state 1 12; better_candidate (Some Num.one)] 2 1
                (Some (better_candidate (Some Num.one))) (Some 0),
         after_acceptance) /\
   rng_calls after_acceptance = [Randn 1])
  /\
  rng_calls fresh = [] /\
  ~ In Rand [Randn 1].
Proof.
  split; [split; [apply far_stage | reflexivity] |].
  split; [split; [apply near_stage | reflexivity] |].
  split; [reflexivity |].
  simpl. intros [H | []]. discriminate.
Qed.

End NoUniformDraw.

(** * Further properties *)

(** ** Short paths *)

Section ShortPaths.

Import DelayedRejectionAlgorithm.

(** X1. On a path of two states [alphafun] is the plain Metropolis
    ratio of the two states capped at one: no proposal factor is read,
    and the step counter goes up by one. *)
Theorem alphafun_two_states (invR : list Np.matrix) (x1 x2 : ParameterSet) (cnt : Z) :
  alphafun [x1; x2] invR cnt =
  (y <- logposteriorratio x1 x2 ;; Ok (Num.pymin Num.one (Num.exp y), cnt + 1)).
Proof. apply alphafun_pair. Qed.

(** X2. On the empty path [alphafun] raises [IndexError]; on a path of
    one state it compares the state with itself. *)
Theorem alphafun_degenerate_paths (invR : list Np.matrix) (cnt : Z) :
  alphafun [] invR cnt = Err IndexError /\
  forall x : ParameterSet,
    alphafun [x] invR cnt =
    (y <- logposteriorratio x x ;; Ok (Num.pymin Num.one (Num.exp y), cnt + 1)).
Proof.
  split.
  - rewrite alphafun_unfold. reflexivity.
  - intros x. rewrite alphafun_unfold. simpl.
    destruct (logposteriorratio x x) as [y|e]; simpl; [| reflexivity].
    rewrite mul_one_r, inv_one, mul_one_r. reflexivity.
Qed.

(** X3. On a path of three states whose backward alpha is below one,
    [alphafun] is the two-stage ratio
    [min(1, exp(l02 + q0) * (1 - a21) / (1 - a01))], where [a01] and
    [a21] are the capped ratios of the pairs [(y0, y1)] and [(y2, y1)];
    it has evaluated [alphafun] three times. *)
Theorem alphafun_three_states (invR : list Np.matrix) (x0 x1 x2 : ParameterSet)
        (cnt : Z) (l01 l21 l02 q : num) :
  logposteriorratio x0 x1 = Ok l01 ->
  logposteriorratio x2 x1 = Ok l21 ->
  logposteriorratio x0 x2 = Ok l02 ->
  qfun 0 [x0; x1; x2] invR = Ok q ->
  Num.eqb (Num.sub Num.one (Num.pymin Num.one (Num.exp l21))) Num.zero = false ->
  alphafun [x0; x1; x2] invR cnt =
  Ok (Num.pymin Num.one
        (Num.mul (Num.mul (Num.exp (Num.add l02 q))
                          (Num.sub Num.one (Num.pymin Num.one (Num.exp l21))))
                 (Num.inv (Num.sub Num.one (Num.pymin Num.one (Num.exp l01))))),
      cnt + 3).
Proof.
  intros H01 H21 H02 Hq Hne.
  rewrite alphafun_unfold. simpl.
  change (py_slice [x0; x1; x2] 0 2) with [x0; x1].
  change (py_slice_rev [x0; x1; x2] 2 0) with [x2; x1].
  rewrite alphafun_pair, H01. simpl.
  rewrite alphafun_pair, H21. simpl.
  rewrite !mul_one_l, Hne. simpl.
  rewrite H02. simpl. rewrite Hq. simpl.
  unfold qfun. simpl. rewrite add_zero_r.
  do 2 f_equal. lia.
Qed.

End ShortPaths.

Section ShortPathsWitness.

Import DelayedRejectionAlgorithm.
Import Examples.

Lemma near_qfun :
  qfun 0 [state 0 10; state 1 12; better_candidate None] invR2 = Ok (Fin (3 / 8)).
Proof.
  unfold qfun. simpl. unfold Np.broadcast. simpl. unfold Np.dot. simpl.
  fin_rw. f_equal. apply fin_eq. lra.
Qed.

Lemma alphafun_three_states_witness :
  alphafun [state 0 10; state 1 12; better_candidate None] invR2 0 =
  Ok (Num.pymin Num.one
        (Num.mul (Num.mul (Num.exp (Num.add (Fin (1 / 2)) (Fin (3 / 8))))
                          (Num.sub Num.one
                                   (Num.pymin Num.one (Num.exp (Fin (- (3 / 2)))))))
                 (Num.inv (Num.sub Num.one
                                   (Num.pymin Num.one (Num.exp (Fin (- 1))))))),
      0 + 3).
Proof.
  apply (alphafun_three_states invR2 (state 0 10) (state 1 12) (better_candidate None)
           0 (Fin (- 1)) (Fin (- (3 / 2))) (Fin (1 / 2)) (Fin (3 / 8))).
  - unfold state. rewrite logposteriorratio_fin by lra. f_equal. apply fin_eq. lra.
  - unfold state, better_candidate. rewrite logposteriorratio_fin by lra.
    f_equal. apply fin_eq. lra.
  - unfold state, better_candidate. rewrite logposteriorratio_fin by lra.
    f_equal. apply fin_eq. lra.
  - apply near_qfun.
  - rewrite fin_exp. rewrite pymin_one_lt by (apply exp_lt_1; lra).
    unfold Num.one, Num.zero. rewrite fin_sub.
    assert (exp (- (3 / 2)) < 1)%R by (apply exp_lt_1; lra).
    apply fin_eqb_false. lra.
Defined.

End ShortPathsWitness.

(** ** The cost of the recursion *)

Section CallCount.

Import DelayedRejectionAlgorithm.

Variable invR : list Np.matrix.

Lemma call_bound_pos (n : Z) : 1 <= call_bound n.
Proof.
  unfold call_bound.
  assert (0 < 3 ^ Z.max 0 (n - 2)) by (apply Z.pow_pos_nonneg; lia). lia.
Qed.

Lemma call_bound_slice (k : Z) : 0 <= k -> call_bound (k + 2) = 3 ^ k.
Proof. intros H. unfold call_bound. f_equal. lia. Qed.

(** The loop over [k = i, ..., i + n - 1] adds at most
    [3^(i+n) - 3^i] evaluations. *)
Lemma alpha_loop_calls (rec : list ParameterSet -> Z -> res (num * Z))
      (trypath : list ParameterSet) (n : nat) :
  forall (i : nat) (a1 a2 : num) (cnt : Z) (out : loop_out),
    (forall k c a c',
        (i <= k < i + n)%nat ->
        (rec (py_slice trypath 0 (Z.of_nat k + 2)) c = Ok (a, c') \/
         rec (py_slice_rev trypath (len trypath - 1)
                           (len trypath - 1 - Z.of_nat k - 2)) c = Ok (a, c')) ->
        c + 1 <= c' <= c + 3 ^ Z.of_nat k) ->
    alpha_loop rec trypath (len trypath - 1) (map Z.of_nat (seq i n)) a1 a2 cnt
    = Ok out ->
    let c' := match out with Break c => c | Continue _ _ c => c end in
    cnt <= c' <= cnt + 3 ^ Z.of_nat (i + n) - 3 ^ Z.of_nat i.
Proof.
  induction n as [|n IH]; intros i a1 a2 cnt out Hrec; simpl.
  - intros [= <-]. simpl. rewrite Nat.add_0_r. lia.
  - destruct (rec (py_slice trypath 0 (Z.of_nat i + 2)) cnt) as [[tmp1 c1]|e] eqn:E1;
      simpl; [| discriminate].
    destruct (rec (py_slice_rev trypath (len trypath - 1)
                                (len trypath - 1 - Z.of_nat i - 2)) c1)
      as [[tmp2 c2]|e] eqn:E2; simpl; [| discriminate].
    assert (H1 : cnt + 1 <= c1 <= cnt + 3 ^ Z.of_nat i).
    { apply (Hrec i cnt tmp1 c1); [lia | left; exact E1]. }
    assert (H2 : c1 + 1 <= c2 <= c1 + 3 ^ Z.of_nat i).
    { apply (Hrec i c1 tmp2 c2); [lia | right; exact E2]. }
    assert (Hpow : 3 ^ Z.of_nat (S i) = 3 * 3 ^ Z.of_nat i).
    { rewrite Nat2Z.inj_succ, Z.pow_succ_r by lia. reflexivity. }
    assert (Hmono : 3 ^ Z.of_nat (S i) <= 3 ^ Z.of_nat (i + S n)).
    { apply Z.pow_le_mono_r; lia. }
    destruct (Num.eqb _ _).
    + intros [= <-]. simpl. lia.
    + intros HL. apply IH in HL.
      * replace (S i + n)%nat with (i + S n)%nat in HL by lia.
        destruct out; cbv beta iota zeta in *; lia.
      * intros k c a c' Hk. apply Hrec. lia.
Qed.

Lemma alphafun_calls (trypath : list ParameterSet) :
  forall (cnt : Z) (a : num) (cnt' : Z),
    alphafun trypath invR cnt = Ok (a, cnt') ->
    cnt + 1 <= cnt' <= cnt + call_bound (len trypath).
Proof.
  remember (length trypath) as m eqn:Hm.
  revert trypath Hm.
  induction m as [m IH] using (well_founded_induction lt_wf).
  intros trypath Hm cnt a cnt'. rewrite alphafun_unfold. cbv zeta.
  destruct (alpha_loop _ _ _ _ _ _ _) as [out|e] eqn:EL; simpl; [| discriminate].
  assert (Hout : let c' := match out with Break c => c | Continue _ _ c => c end in
                 cnt + 1 <= c' <= cnt + 1 + 3 ^ Z.of_nat (0 + Z.to_nat (len trypath - 1 - 1))
                                   - 3 ^ Z.of_nat 0).
  { unfold py_range in EL.
    apply (alpha_loop_calls (fun p n => alphafun p invR n) trypath
             (Z.to_nat (len trypath - 1 - 1)) 0%nat Num.one Num.one (cnt + 1) out);
      [| exact EL].
    intros k c a0 c0 Hk Hor.
    assert (Hin : In (Z.of_nat k) (py_range (len trypath - 1 - 1))).
    { unfold py_range. apply in_map, in_seq. lia. }
    destruct (alphafun_slices_shorter trypath (Z.of_nat k) Hin) as [Ha Hb].
    assert (Hr : 0 <= Z.of_nat k < len trypath - 1 - 1) by (apply py_range_bounds; exact Hin).
    assert (La : len (py_slice trypath 0 (Z.of_nat k + 2)) = Z.of_nat k + 2).
    { unfold len at 1. rewrite py_slice_prefix_length by lia. lia. }
    assert (Lb : len (py_slice_rev trypath (len trypath - 1)
                                   (len trypath - 1 - Z.of_nat k - 2))
                 = Z.of_nat k + 2).
    { unfold len at 1. rewrite py_slice_rev_suffix_length by lia. lia. }
    destruct Hor as [Hor | Hor].
    - pose proof (IH _ ltac:(subst m; exact Ha) _ eq_refl c a0 c0 Hor) as Hb1.
      rewrite La, call_bound_slice in Hb1 by lia. exact Hb1.
    - pose proof (IH _ ltac:(subst m; exact Hb) _ eq_refl c a0 c0 Hor) as Hb1.
      rewrite Lb, call_bound_slice in Hb1 by lia. exact Hb1. }
  assert (Hbound : 3 ^ Z.of_nat (0 + Z.to_nat (len trypath - 1 - 1))
                   = call_bound (len trypath)).
  { unfold call_bound. f_equal. lia. }
  cbv zeta in Hout. rewrite Hbound in Hout.
  replace (3 ^ Z.of_nat 0) with 1 in Hout by reflexivity.
  destruct out as [c|a1 a2 c]; cbv beta iota in Hout.
  - intros [= _ <-]. lia.
  - destruct (py_index trypath 0) as [x1|e]; simpl; [| discriminate].
    destruct (py_index trypath (-1)) as [x2|e]; simpl; [| discriminate].
    destruct (logposteriorratio x1 x2) as [y|e]; simpl; [| discriminate].
    destruct (q_loop _ _ _ _) as [y'|e]; simpl; [| discriminate].
    intros [= _ <-]. lia.
Qed.

(** X4. A call of [alphafun] that returns on a path of [n] states has
    raised the step counter by at least one and at most [3^(n-2)]
    (by one for [n <= 2]): the number of evaluations grows at most
    threefold with each further stage. *)
Theorem alphafun_call_count (trypath : list ParameterSet) (cnt : Z) (a : num)
        (cnt' : Z) :
  alphafun trypath invR cnt = Ok (a, cnt') ->
  cnt + 1 <= cnt' <= cnt + call_bound (len trypath).
Proof. apply alphafun_calls. Qed.

End CallCount.

Section CallCountWitness.

Import DelayedRejectionAlgorithm.
Import Examples.

Lemma alphafun_call_count_witness :
  0 + 1 <= 3 <= 0 + call_bound (len [state 0 10; state 1 12; better_candidate None]).
Proof.
  apply (alphafun_call_count invR2 [state 0 10; state 1 12; better_candidate None]
           0 Num.one 3).
  apply near_alpha.
Defined.

End CallCountWitness.

(** ** The posterior ratio of two states *)

Section PosteriorRatio.

Import DelayedRejectionAlgorithm.

Lemma zip_with_scaled (sg : list (R * R)) :
  (forall t, In t sg -> snd t <> 0%R) ->
  Np.zip_with Num.mul (map (fun t => Fin (fst t)) sg)
              (map Num.inv (map (fun t => Fin (snd t)) sg))
  = map Fin (map (fun t => (fst t * / snd t)%R) sg).
Proof.
  induction sg as [|[s g] sg IH]; intros Hg; simpl; [reflexivity |].
  rewrite fin_inv by (apply (Hg (s, g)); left; reflexivity).
  rewrite fin_mul. f_equal. apply IH. intros t Ht. apply Hg. right. exact Ht.
Qed.

Lemma sum_of_differences (A B : list R) :
  length A = length B ->
  forall a0 b0 : R,
    fold_left Num.add (Np.zip_with Num.sub (map Fin A) (map Fin B)) (Fin (a0 - b0))
    = Fin (fold_left Rplus A a0 - fold_left Rplus B b0).
Proof.
  revert B. induction A as [|a A IH]; intros [|b B] Hlen a0 b0; simpl;
    try reflexivity; try discriminate.
  rewrite fin_sub, fin_add.
  replace (a0 - b0 + (a - b))%R with ((a0 + a) - (b0 + b))%R by lra.
  apply IH. simpl in Hlen. congruence.
Qed.

(** The ratio of two states with arrays of finite numbers. *)
Lemma logposteriorratio_arrays (th1 th2 : list num) (sg1 sg2 : list (R * R))
      (p1 p2 : R) :
  length sg1 = length sg2 ->
  (forall t, In t sg1 -> snd t <> 0%R) ->
  (forall t, In t sg2 -> snd t <> 0%R) ->
  logposteriorratio (array_state th1 sg1 p1) (array_state th2 sg2 p2)
  = Ok (Fin (- (1 / 2) * (scaled_ss sg2 - scaled_ss sg1 + p2 - p1))).
Proof.
  intros Hlen H1 H2. unfold logposteriorratio, array_state. simpl.
  unfold Np.broadcast at 1. rewrite !length_map, Nat.eqb_refl. simpl.
  unfold Np.broadcast at 1. rewrite !length_map, Nat.eqb_refl. simpl.
  rewrite !zip_with_scaled by assumption.
  unfold Np.broadcast at 1. rewrite !length_map.
  rewrite (proj2 (Nat.eqb_eq _ _) (eq_sym Hlen)). simpl.
  unfold Num.sum at 2. unfold Num.zero.
  replace 0%R with (0 - 0)%R at 1 by lra.
  rewrite sum_of_differences by (rewrite !length_map; congruence).
  fold (scaled_ss sg2). fold (scaled_ss sg1).
  fin_rw. unfold Num.sum. simpl. fin_rw.
  f_equal. apply fin_eq. lra.
Qed.

(** X5. Of the two directions between two states with arrays of
    finite numbers, at least one has alpha equal to one: both log
    ratios are computed without an exception, and [alphafun] on the
    pair returns exactly one in one order or in the other. *)
Theorem one_direction_has_alpha_one (th1 th2 : list num) (sg1 sg2 : list (R * R))
        (p1 p2 : R) (invR : list Np.matrix) (cnt : Z) :
  length sg1 = length sg2 ->
  (forall t, In t sg1 -> snd t <> 0%R) ->
  (forall t, In t sg2 -> snd t <> 0%R) ->
  (exists l12 l21 : num,
      logposteriorratio (array_state th1 sg1 p1) (array_state th2 sg2 p2) = Ok l12 /\
      logposteriorratio (array_state th2 sg2 p2) (array_state th1 sg1 p1) = Ok l21) /\
  (alphafun [array_state th1 sg1 p1; array_state th2 sg2 p2] invR cnt
   = Ok (Num.one, cnt + 1) \/
   alphafun [array_state th2 sg2 p2; array_state th1 sg1 p1] invR cnt
   = Ok (Num.one, cnt + 1)).
Proof.
  intros Hlen H1 H2.
  assert (Hback :
            logposteriorratio (array_state th2 sg2 p2) (array_state th1 sg1 p1)
            = Ok (Fin (- (- (1 / 2) * (scaled_ss sg2 - scaled_ss sg1 + p2 - p1))))).
  { rewrite logposteriorratio_arrays by (try assumption; congruence).
    f_equal. apply fin_eq. lra. }
  split.
  - eexists. eexists. split; [apply logposteriorratio_arrays; assumption | exact Hback].
  - rewrite !alphafun_pair, Hback, logposteriorratio_arrays by assumption. simpl.
    rewrite !fin_exp.
    destruct (Rle_dec 0 (- (1 / 2) * (scaled_ss sg2 - scaled_ss sg1 + p2 - p1)))
      as [H|H].
    + left. rewrite pymin_one_ge by (apply exp_ge_1; exact H). reflexivity.
    + right. rewrite pymin_one_ge by (apply exp_ge_1; lra). reflexivity.
Qed.

(** X6. Two out-of-bounds states cannot be compared: their [ss] and
    [prior] are the plain numbers [inf] and [0], the quantity handed to
    the final [sum] is a number, not an array, and [logposteriorratio]
    raises [TypeError].  A path that starts with a state followed by two
    out-of-bounds states makes [alphafun] raise that error as soon as
    the first pair has been evaluated. *)
Theorem logposteriorratio_two_outside (new_set : ParameterSet) (th1 th2 : list num) :
  logposteriorratio (outside_set new_set th1) (outside_set new_set th2)
  = Err TypeError /\
  forall (invR : list Np.matrix) (x : ParameterSet) (cnt : Z) (t : num) (c : Z),
    alphafun [x; outside_set new_set th1] invR (cnt + 1) = Ok (t, c) ->
    alphafun [x; outside_set new_set th1; outside_set new_set th2] invR cnt
    = Err TypeError.
Proof.
  assert (H : forall a b,
             logposteriorratio (outside_set new_set a) (outside_set new_set b)
             = Err TypeError).
  { intros a b. unfold logposteriorratio, outside_set. simpl.
    destruct (sigma2 new_set) as [g|g]; simpl; [reflexivity |].
    unfold Np.broadcast. rewrite !length_map, Nat.eqb_refl. reflexivity. }
  split; [apply H |].
  intros invR x cnt t c Hpair.
  rewrite alphafun_unfold. simpl.
  change (py_slice [x; outside_set new_set th1; outside_set new_set th2] 0 2)
    with [x; outside_set new_set th1].
  change (py_slice_rev [x; outside_set new_set th1; outside_set new_set th2] 2 0)
    with [outside_set new_set th2; outside_set new_set th1].
  rewrite Hpair. simpl. rewrite alphafun_pair, H. reflexivity.
Qed.

End PosteriorRatio.

Section IntoOutside.

Import DelayedRejectionAlgorithm.

Lemma scaled_inf (g : list R) :
  (forall x, In x g -> (0 < x)%R) ->
  map (Num.mul PInf) (map Num.inv (map Fin g)) = repeat PInf (length g).
Proof.
  induction g as [|x g IH]; intros Hg; simpl; [reflexivity |].
  assert (Hx : (0 < x)%R) by (apply Hg; left; reflexivity).
  rewrite fin_inv by lra.
  assert (Hi : (0 < / x)%R) by (apply Rinv_0_lt_compat; exact Hx).
  f_equal.
  - unfold Num.mul, Num.signed_inf.
    destruct (Req_dec_T (/ x) 0); [lra |]. destruct (Rlt_dec 0 (/ x)); [reflexivity | lra].
  - apply IH. intros y Hy. apply Hg. right. exact Hy.
Qed.

Lemma inf_minus_finite (rs : list R) :
  Np.zip_with Num.sub (repeat PInf (length rs)) (map Fin rs) = repeat PInf (length rs).
Proof. induction rs as [|r rs IH]; simpl; [reflexivity | f_equal; exact IH]. Qed.

Lemma sum_inf (n : nat) : fold_left Num.add (repeat PInf n) PInf = PInf.
Proof. induction n as [|n IH]; simpl; [reflexivity | exact IH]. Qed.

Lemma into_outside (th th' : list num) (sg : list (R * R)) (p : R)
        (new_set : ParameterSet) (g : list R) (invR : list Np.matrix) (cnt : Z) :
  sigma2 new_set = Arr (map Fin g) ->
  g <> [] ->
  length g = length sg ->
  (forall x, In x g -> (0 < x)%R) ->
  (forall t, In t sg -> snd t <> 0%R) ->
  logposteriorratio (array_state th sg p) (outside_set new_set th') = Ok NInf /\
  alphafun [array_state th sg p; outside_set new_set th'] invR cnt
  = Ok (Num.zero, cnt + 1).
Proof.
  intros Hs Hne Hlen Hg Hsg.
  assert (HL : logposteriorratio (array_state th sg p) (outside_set new_set th')
               = Ok NInf).
  { unfold logposteriorratio, outside_set, array_state. simpl. rewrite Hs. simpl.
    rewrite scaled_inf by exact Hg.
    unfold Np.broadcast at 1. rewrite !length_map, Nat.eqb_refl. simpl.
    rewrite zip_with_scaled by exact Hsg.
    unfold Np.broadcast at 1. rewrite repeat_length, !length_map.
    rewrite (proj2 (Nat.eqb_eq _ _) Hlen). simpl.
    replace (length g) with (length (map (fun t => (fst t * / snd t)%R) sg))
      by (rewrite length_map; congruence).
    rewrite inf_minus_finite. rewrite length_map, <- Hlen.
    destruct g as [|x g]; [contradiction |]. simpl.
    unfold Num.sum. simpl. rewrite sum_inf. simpl.
    unfold Num.mul, Num.minus_half, Num.signed_inf.
    destruct (Req_dec_T (- (1 / 2)) 0); [lra |].
    destruct (Rlt_dec 0 (- (1 / 2))); [lra | reflexivity]. }
  split; [exact HL |].
  rewrite alphafun_pair, HL. simpl.
  unfold Num.exp, Num.one. rewrite pymin_one_lt by lra. reflexivity.
Qed.

(** X7. Seen from a state with finite arrays, an out-of-bounds state has
    log ratio [-inf], and the pair has alpha zero, the value the loop
    stores for it: the variances being positive, [inf / sigma2] is
    [+inf] in every component. *)
Theorem alphafun_into_outside (th th' : list num) (sg : list (R * R)) (p : R)
        (new_set : ParameterSet) (g : list R) (invR : list Np.matrix) (cnt : Z) :
  sigma2 new_set = Arr (map Fin g) ->
  g <> [] ->
  length g = length sg ->
  (forall x, In x g -> (0 < x)%R) ->
  (forall t, In t sg -> snd t <> 0%R) ->
  logposteriorratio (array_state th sg p) (outside_set new_set th') = Ok NInf /\
  alphafun [array_state th sg p; outside_set new_set th'] invR cnt
  = Ok (Num.zero, cnt + 1).
Proof. apply into_outside. Qed.

End IntoOutside.

Section PosteriorRatioWitness.

Import DelayedRejectionAlgorithm.
Import Examples.

Lemma one_direction_has_alpha_one_witness :
  (exists l12 l21 : num,
      logposteriorratio (array_state [Fin 0] [(10, 1)%R] (1 / 5))
                        (array_state [Fin 1] [(12, 1)%R] (3 / 10)) = Ok l12 /\
      logposteriorratio (array_state [Fin 1] [(12, 1)%R] (3 / 10))
                        (array_state [Fin 0] [(10, 1)%R] (1 / 5)) = Ok l21) /\
  (alphafun [array_state [Fin 0] [(10, 1)%R] (1 / 5);
             array_state [Fin 1] [(12, 1)%R] (3 / 10)] [] 0 = Ok (Num.one, 0 + 1) \/
   alphafun [array_state [Fin 1] [(12, 1)%R] (3 / 10);
             array_state [Fin 0] [(10, 1)%R] (1 / 5)] [] 0 = Ok (Num.one, 0 + 1)).
Proof.
  apply (one_direction_has_alpha_one [Fin 0] [Fin 1] [(10, 1)%R] [(12, 1)%R]
           (1 / 5) (3 / 10) [] 0).
  - reflexivity.
  - intros t [<- | []]. simpl. lra.
  - intros t [<- | []]. simpl. lra.
Defined.

Lemma alphafun_into_outside_witness :
  logposteriorratio (array_state [Fin 0] [(10, 1)%R] 0)
                    (outside_set (state 1 12) [Fin 10]) = Ok NInf /\
  alphafun [array_state [Fin 0] [(10, 1)%R] 0; outside_set (state 1 12) [Fin 10]]
           [] 1 = Ok (Num.zero, 1 + 1).
Proof.
  apply (alphafun_into_outside [Fin 0] [Fin 10] [(10, 1)%R] 0 (state 1 12) [1%R] [] 1).
  - reflexivity.
  - discriminate.
  - reflexivity.
  - intros x [<- | []]. lra.
  - intros t [<- | []]. simpl. lra.
Defined.

Lemma first_pair_into_outside :
  alphafun [state 0 10; outside_set (state 1 12) [Fin 10]] [] (0 + 1)
  = Ok (Num.zero, 1 + 1).
Proof.
  apply (into_outside [Fin 0] [Fin 10] [(10, 1)%R] 0 (state 1 12) [1%R] [] 1).
  - reflexivity.
  - discriminate.
  - reflexivity.
  - intros x [<- | []]. lra.
  - intros t [<- | []]. simpl. lra.
Qed.

Lemma logposteriorratio_two_outside_witness :
  logposteriorratio (outside_set (state 1 12) [Fin 10])
                    (outside_set (state 1 12) [Fin 20]) = Err TypeError /\
  alphafun [state 0 10; outside_set (state 1 12) [Fin 10];
            outside_set (state 1 12) [Fin 20]] [] 0
  = Err TypeError.
Proof.
  split.
  - apply (proj1 (logposteriorratio_two_outside (state 1 12) [Fin 10] [Fin 20])).
  - apply (proj2 (logposteriorratio_two_outside (state 1 12) [Fin 10] [Fin 20])
             [] (state 0 10) 0 Num.zero (1 + 1)).
    apply first_pair_into_outside.
Defined.

End PosteriorRatioWitness.

(** ** The proposal ratio on the reversed path *)

Section QfunReversal.

Import DelayedRejectionAlgorithm.

Lemma py_index_rev {A : Type} (l : list A) (i : Z) :
  0 <= i < len l -> py_index (rev l) i = py_index l (len l - 1 - i).
Proof.
  intros Hi. unfold py_index, len in *. rewrite length_rev.
  replace (i <? 0) with false by (symmetry; apply Z.ltb_ge; lia).
  replace (Z.of_nat (length l) - 1 - i <? 0) with false
    by (symmetry; apply Z.ltb_ge; lia).
  replace (0 <=? i) with true by (symmetry; apply Z.leb_le; lia).
  replace (i <? Z.of_nat (length l)) with true by (symmetry; apply Z.ltb_lt; lia).
  replace (0 <=? Z.of_nat (length l) - 1 - i) with true
    by (symmetry; apply Z.leb_le; lia).
  replace (Z.of_nat (length l) - 1 - i <? Z.of_nat (length l)) with true
    by (symmetry; apply Z.ltb_lt; lia).
  simpl. rewrite nth_error_rev.
  replace (Z.to_nat i <? length l)%nat with true
    by (symmetry; apply Nat.ltb_lt; lia).
  replace (Z.to_nat (Z.of_nat (length l) - 1 - i)) with (length l - S (Z.to_nat i))%nat
    by lia.
  reflexivity.
Qed.

Lemma py_index_in_range {A : Type} (l : list A) (i : Z) :
  0 <= i < len l -> exists a, py_index l i = Ok a.
Proof.
  intros Hi. unfold py_index, len in *.
  replace (i <? 0) with false by (symmetry; apply Z.ltb_ge; lia).
  replace (0 <=? i) with true by (symmetry; apply Z.leb_le; lia).
  replace (i <? Z.of_nat (length l)) with true by (symmetry; apply Z.ltb_lt; lia).
  simpl. destruct (nth_error l (Z.to_nat i)) as [a|] eqn:E; [eexists; reflexivity |].
  apply nth_error_None in E. lia.
Qed.

Lemma broadcast_err {B : Type} (f : num -> num -> B) (l1 l2 : list num) (e : pyerror) :
  Np.broadcast f l1 l2 = Err e -> e = ValueError.
Proof.
  unfold Np.broadcast. destruct (_ =? _)%nat; [discriminate |].
  destruct l1 as [|x [|x' l1]], l2 as [|y [|y' l2]]; try discriminate;
    intros [= <-]; reflexivity.
Qed.

Lemma dot_err (v : list num) (M : Np.matrix) (e : pyerror) :
  Np.dot v M = Err e -> e = ValueError.
Proof.
  unfold Np.dot. destruct (_ && _); [discriminate | intros [= <-]; reflexivity].
Qed.

(** [-0.5 * (b - a)] is the opposite of [-0.5 * (a - b)], infinities and
    [nan] included. *)
Lemma half_difference_swap (a b : num) :
  Num.mul Num.minus_half (Num.sub b a)
  = Num.neg (Num.mul Num.minus_half (Num.sub a b)).
Proof.
  unfold Num.minus_half.
  destruct a as [x| | |], b as [y| | |];
    unfold Num.sub, Num.add, Num.neg, Num.mul, Num.signed_inf;
    num_cases; try reflexivity; try lra.
  apply fin_eq. lra.
Qed.

Lemma step_norm2_err (a b : list num) (iR : Np.matrix) (e : pyerror) :
  step_norm2 a b iR = Err e -> e = ValueError.
Proof.
  unfold step_norm2.
  destruct (Np.broadcast Num.sub a b) as [d|e'] eqn:E1; simpl.
  - destruct (Np.dot d iR) as [v|e''] eqn:E2; simpl; [discriminate |].
    intros [= <-]. eapply dot_err. exact E2.
  - intros [= <-]. eapply broadcast_err. exact E1.
Qed.

Lemma qfun_general (iq : Z) (trypath : list ParameterSet) (invR : list Np.matrix)
      (iR : Np.matrix) (p1 p2 p3 p4 : ParameterSet) :
  len trypath - 1 - 1 <> iq ->
  py_index invR iq = Ok iR ->
  py_index trypath 0 = Ok p1 ->
  py_index trypath (iq + 1) = Ok p2 ->
  py_index trypath (len trypath - 1 - 1 + 1) = Ok p3 ->
  py_index trypath (len trypath - 1 - 1 - iq) = Ok p4 ->
  qfun iq trypath invR =
  (n43 <- step_norm2 (theta p4) (theta p3) iR ;;
   n21 <- step_norm2 (theta p2) (theta p1) iR ;;
   Ok (Num.mul Num.minus_half (Num.sub n43 n21))).
Proof.
  intros Hne HR H1 H2 H3 H4. unfold qfun, step_norm2.
  replace (len trypath - 1 - 1 =? iq) with false by (symmetry; apply Z.eqb_neq; exact Hne).
  rewrite HR. simpl. rewrite H1. simpl. rewrite H2. simpl. rewrite H3. simpl.
  rewrite H4. simpl.
  destruct (Np.broadcast Num.sub (theta p4) (theta p3)) as [d43|e]; simpl; [| reflexivity].
  destruct (Np.dot d43 iR) as [v43|e]; simpl; [| reflexivity].
  destruct (Np.broadcast Num.sub (theta p2) (theta p1)) as [d21|e]; simpl; [| reflexivity].
  destruct (Np.dot d21 iR) as [v21|e]; simpl; reflexivity.
Qed.

(** X8. Reversing the trial path changes the sign of every proposal
    term: for a stage index inside the path, [qfun] on the reversed path
    is the opposite of [qfun] on the path, and it raises when the other
    raises.  The forward and the backward step exchange their roles. *)
Theorem qfun_reversed_path (iq : Z) (trypath : list ParameterSet)
        (invR : list Np.matrix) :
  0 <= iq <= len trypath - 2 ->
  qfun iq (rev trypath) invR =
  match qfun iq trypath invR with
  | Ok q => Ok (Num.neg q)
  | Err e => Err e
  end.
Proof.
  intros Hiq.
  assert (Hlen : len (rev trypath) = len trypath) by (unfold len; rewrite length_rev; reflexivity).
  destruct (Z.eq_dec (len trypath - 1 - 1) iq) as [Heq|Hne].
  { unfold qfun. rewrite Hlen.
    rewrite (proj2 (Z.eqb_eq _ _) Heq). f_equal. unfold Num.neg, Num.zero.
    apply fin_eq. lra. }
  destruct (py_index invR iq) as [iR|e] eqn:HR.
  2:{ unfold qfun. rewrite Hlen.
      replace (len trypath - 1 - 1 =? iq) with false
        by (symmetry; apply Z.eqb_neq; exact Hne).
      rewrite HR. reflexivity. }
  destruct (py_index_in_range trypath 0 ltac:(lia)) as (p1 & H1).
  destruct (py_index_in_range trypath (iq + 1) ltac:(lia)) as (p2 & H2).
  destruct (py_index_in_range trypath (len trypath - 1 - 1 + 1) ltac:(lia)) as (p3 & H3).
  destruct (py_index_in_range trypath (len trypath - 1 - 1 - iq) ltac:(lia)) as (p4 & H4).
  rewrite (qfun_general iq trypath invR iR p1 p2 p3 p4 Hne HR H1 H2 H3 H4).
  rewrite (qfun_general iq (rev trypath) invR iR p3 p4 p1 p2).
  - destruct (step_norm2 (theta p4) (theta p3) iR) as [n43|e] eqn:E43; simpl.
    + destruct (step_norm2 (theta p2) (theta p1) iR) as [n21|e] eqn:E21; simpl.
      * f_equal. apply half_difference_swap.
      * reflexivity.
    + apply step_norm2_err in E43. subst e.
      destruct (step_norm2 (theta p2) (theta p1) iR) as [n21|e] eqn:E21; simpl.
      * reflexivity.
      * apply step_norm2_err in E21. subst e. reflexivity.
  - rewrite Hlen. exact Hne.
  - exact HR.
  - rewrite py_index_rev by lia. rewrite <- H3. f_equal. lia.
  - rewrite py_index_rev by lia. rewrite <- H4. f_equal. lia.
  - rewrite Hlen, py_index_rev by lia. rewrite <- H1. f_equal. lia.
  - rewrite Hlen, py_index_rev by lia. rewrite <- H2. f_equal. lia.
Qed.

End QfunReversal.

Section QfunReversalWitness.

Import DelayedRejectionAlgorithm.
Import Examples.

Lemma qfun_reversed_path_witness :
  qfun 0 (rev [state 0 10; state 1 12; better_candidate None]) invR2 =
  match qfun 0 [state 0 10; state 1 12; better_candidate None] invR2 with
  | Ok q => Ok (Num.neg q)
  | Err e => Err e
  end.
Proof.
  apply (qfun_reversed_path 0 [state 0 10; state 1 12; better_candidate None] invR2).
  unfold len. simpl. lia.
Defined.

End QfunReversalWitness.

(** ** A whole call of [run_delayed_rejection] *)

Section RunFacts.

Import DelayedRejectionAlgorithm.

Variable rng : RandomSource.
Variables old_set new_set : ParameterSet.
Variable RDR : list Np.matrix.
Variable ntry : Z.
Variable parameters : ModelParameters.
Variable invR : list Np.matrix.
Variable sosobj : SumOfSquares.
Variable priorobj : PriorFunction.

Let dr_stage := dr_stage rng old_set new_set RDR parameters invR sosobj priorobj.
Let dr_loop := dr_loop rng old_set new_set RDR ntry parameters invR sosobj priorobj.
Let run_loop := run_loop rng old_set new_set RDR ntry parameters invR sosobj priorobj.
Let run_delayed_rejection :=
  run_delayed_rejection rng old_set new_set RDR ntry parameters invR sosobj priorobj.

(** Everything one completed stage does. *)
Lemma dr_stage_detail (v : Vars) (w : World) (v' : Vars) (w' : World) :
  dr_stage v w = Ok (v', w') ->
  exists (next : ParameterSet) (outside : bool) (draws : list rng_call),
    trypath v' = trypath v ++ [next] /\
    itry v' = itry v + 1 /\
    outside_bounds (theta next) parameters = Ok outside /\
    rng_calls w' = rng_calls w ++ draws /\
    stage_draws_ok (npar parameters) draws /\
    model_calls w' = model_calls w ++ stage_calls parameters next /\
    dr_step_counter w <= dr_step_counter w' /\
    ((accept v' = accept v /\ out_set v' = Some old_set /\
      (exists b, outbound v' = Some b) /\ iacce w' = iacce w) \/
     (accept v' = 1 /\ out_set v' = Some next /\ outbound v' = Some 0 /\
      outside = false /\ (exists a, alpha next = Some a /\ unit_interval a) /\
      py_incr (iacce w) (itry v) = Ok (iacce w'))).
Proof.
  unfold dr_stage, DelayedRejectionAlgorithm.dr_stage.
  destruct (propose rng old_set RDR parameters (itry v + 1) w) as [[th w1]|e] eqn:Hp;
    simpl; [| discriminate].
  destruct (propose_inv _ _ _ _ _ _ _ _ Hp) as [-> _].
  destruct (outside_bounds th parameters) as [[|]|e] eqn:Ho; simpl; [| | discriminate].
  - intros [= <- <-].
    exists (mkParameterSet th (Some (Sc PInf)) (Some (Sc Num.zero)) None
                           (sigma2 new_set) (Some Num.zero)), true, [Randn (npar parameters)].
    unfold stage_calls. simpl. rewrite Ho, app_nil_r.
    split; [reflexivity |]. split; [reflexivity |]. split; [reflexivity |].
    split; [reflexivity |]. split; [left; reflexivity |]. split; [reflexivity |].
    split; [lia |]. left.
    split; [reflexivity |]. split; [reflexivity |]. split; [eexists; reflexivity |].
    reflexivity.
  - destruct (alphafun _ invR _) as [[a cnt]|e] eqn:Ha; simpl; [| discriminate].
    assert (Hu : unit_interval a) by (eapply alphafun_unit; exact Ha).
    assert (Hc : dr_step_counter w <= cnt).
    { apply alphafun_calls in Ha. simpl in Ha. lia. }
    replace (itry v + 1 - 1) with (itry v) by lia.
    assert (Hcalls : forall al,
               stage_calls parameters
                 (mkParameterSet th (Some (sos_evaluate_sos_function sosobj th))
                                 (Some (evaluate_prior priorobj th)) None
                                 (sigma2 new_set) al)
               = [CallSos th; CallPrior th]).
    { intros al. unfold stage_calls. simpl. rewrite Ho. reflexivity. }
    destruct (Num.geb a Num.one) eqn:Hg.
    + destruct (py_incr _ _) as [acc|e] eqn:Hi; simpl; [| discriminate].
      intros [= <- <-]. eexists. exists false, [Randn (npar parameters)].
      simpl. rewrite Hcalls, <- app_assoc. simpl in Hi.
      split; [reflexivity |]. split; [reflexivity |]. split; [exact Ho |].
      split; [reflexivity |]. split; [left; reflexivity |]. split; [reflexivity |].
      split; [exact Hc |]. right.
      split; [reflexivity |]. split; [reflexivity |]. split; [reflexivity |].
      split; [reflexivity |]. split; [eexists; split; [reflexivity | exact Hu] |].
      first [reflexivity | exact Hi].
    + destruct (Num.ltb _ a) eqn:Hlt.
      * destruct (py_incr _ _) as [acc|e] eqn:Hi; simpl; [| discriminate].
        intros [= <- <-]. eexists. exists false, [Randn (npar parameters); Rand].
        simpl. rewrite Hcalls, <- !app_assoc. simpl in Hi.
        split; [reflexivity |]. split; [reflexivity |]. split; [exact Ho |].
        split; [reflexivity |]. split; [right; reflexivity |]. split; [reflexivity |].
        split; [exact Hc |]. right.
        split; [reflexivity |]. split; [reflexivity |]. split; [reflexivity |].
        split; [reflexivity |]. split; [eexists; split; [reflexivity | exact Hu] |].
        first [reflexivity | exact Hi].
      * intros [= <- <-]. eexists. exists false, [Randn (npar parameters); Rand].
        simpl. rewrite Hcalls, <- !app_assoc.
        split; [reflexivity |]. split; [reflexivity |]. split; [exact Ho |].
        split; [reflexivity |]. split; [right; reflexivity |]. split; [reflexivity |].
        split; [exact Hc |]. left.
        split; [reflexivity |]. split; [reflexivity |]. split; [eexists; reflexivity |].
        reflexivity.
Qed.

(** What the loop adds to the path and to the logs. *)
Lemma dr_loop_trace (fuel : nat) :
  forall v w v' w',
    dr_loop fuel v w = Ok (v', w') ->
    exists (added : list ParameterSet) (stages : list (list rng_call)),
      trypath v' = trypath v ++ added /\
      itry v' = itry v + len added /\
      length stages = length added /\
      rng_calls w' = rng_calls w ++ concat stages /\
      Forall (stage_draws_ok (npar parameters)) stages /\
      model_calls w' = model_calls w ++ flat_map (stage_calls parameters) added /\
      dr_step_counter w <= dr_step_counter w'.
Proof.
  induction fuel as [|fuel IH]; intros v w v' w'; simpl.
  - destruct (_ && _); [discriminate |]. intros [= <- <-].
    exists [], []. simpl. rewrite !app_nil_r. unfold len. simpl.
    repeat split; try reflexivity; try lia. constructor.
  - destruct (_ && _).
    + fold dr_stage.
      destruct (dr_stage v w) as [[v1 w1]|e] eqn:Hs; simpl; [| discriminate].
      intros HL. apply IH in HL.
      destruct HL as (added & stages & Hp & Hi & Hl & Hr & Hf & Hm & Hc).
      apply dr_stage_detail in Hs.
      destruct Hs as (next & outside & draws & Sp & Si & _ & Sr & Sd & Sm & Sc & _).
      exists (next :: added), (draws :: stages). simpl.
      repeat split.
      * rewrite Hp, Sp, <- app_assoc. reflexivity.
      * rewrite Hi, Si. unfold len. simpl length. lia.
      * simpl. congruence.
      * rewrite Hr, Sr, <- app_assoc. reflexivity.
      * constructor; assumption.
      * rewrite Hm, Sm, <- app_assoc. reflexivity.
      * lia.
    + intros [= <- <-].
      exists [], []. simpl. rewrite !app_nil_r. unfold len. simpl.
      repeat split; try reflexivity; try lia. constructor.
Qed.

(** How the loop ends when it starts with [accept = 0]. *)
Lemma dr_loop_outcome (fuel : nat) :
  forall v w v' w',
    accept v = 0 ->
    dr_loop fuel v w = Ok (v', w') ->
    (v' = v /\ w' = w /\ ntry <= itry v) \/
    (itry v < ntry /\ accept v' = 0 /\ out_set v' = Some old_set /\
     (exists b, outbound v' = Some b) /\ itry v' = ntry /\ iacce w' = iacce w) \/
    (itry v < ntry /\ accept v' = 1 /\ itry v < itry v' <= ntry /\
     exists out a,
       py_index (trypath v') (-1) = Ok out /\ out_set v' = Some out /\
       outbound v' = Some 0 /\ outside_bounds (theta out) parameters = Ok false /\
       alpha out = Some a /\ unit_interval a /\
       py_incr (iacce w) (itry v' - 1) = Ok (iacce w')).
Proof.
  induction fuel as [|fuel IH]; intros v w v' w' Hacc; simpl; rewrite Hacc; simpl.
  - destruct (itry v <? ntry) eqn:E; [discriminate |].
    intros [= <- <-]. left. apply Z.ltb_ge in E. auto.
  - destruct (itry v <? ntry) eqn:E.
    2:{ intros [= <- <-]. left. apply Z.ltb_ge in E. auto. }
    apply Z.ltb_lt in E. fold dr_stage.
    destruct (dr_stage v w) as [[v1 w1]|e] eqn:Hs; simpl; [| discriminate].
    apply dr_stage_detail in Hs.
    destruct Hs as (next & outside & draws & Sp & Si & So & _ & _ & _ & _ & Sout).
    destruct Sout as [(Sa & Sos & Sb & Sia) | (Sa & Sos & Sb & Sof & (a & Sal & Su) & Sinc)].
    + intros HL. apply IH in HL; [| congruence].
      destruct HL as [(-> & -> & Hn) | [(Hlt & H1 & H2 & H3 & H4 & H5) | (Hlt & H1 & H2 & H3)]].
      * right. left. repeat split; try assumption; try congruence. lia.
      * right. left. repeat split; try assumption. congruence.
      * right. right. repeat split; try assumption; try lia.
        destruct H3 as (out & a & G1 & G2 & G3 & G4 & G5 & G6 & G7).
        exists out, a. repeat split; try assumption. congruence.
    + destruct fuel as [|fuel']; simpl; rewrite Sa; simpl;
        intros [= <- <-]; right; right;
        (repeat split; [exact E | exact Sa | lia | lia |]);
        exists next, a; rewrite Sp, py_index_last;
        (repeat split; try assumption; try reflexivity;
         [congruence | rewrite Si; replace (itry v + 1 - 1) with (itry v) by lia; exact Sinc]).
Qed.

End RunFacts.

Lemma py_index_last_of_app {A : Type} (l added : list A) :
  added <> [] -> py_index (l ++ added) (-1) = py_index added (-1).
Proof.
  intros Hne. destruct (exists_last Hne) as (front & x & ->).
  rewrite app_assoc, !py_index_last. reflexivity.
Qed.

Lemma py_incr_inv (l : list Z) (i : Z) (l' : list Z) :
  0 <= i ->
  py_incr l i = Ok l' ->
  i < len l /\
  length l' = length l /\
  fold_left Z.add l' 0 = fold_left Z.add l 0 + 1 /\
  forall j, 0 <= j -> j <> i -> py_index l' j = py_index l j.
Proof.
  intros Hi. unfold py_incr.
  destruct (py_index l i) as [x|e] eqn:E; simpl; [| discriminate].
  intros [= <-].
  unfold py_index in E.
  replace (i <? 0) with false in * by (symmetry; apply Z.ltb_ge; lia).
  destruct ((0 <=? i) && (i <? len l)) eqn:Eb; [| discriminate].
  apply andb_true_iff in Eb. destruct Eb as [_ Eb]. apply Z.ltb_lt in Eb.
  destruct (nth_error l (Z.to_nat i)) as [y|] eqn:En; [| discriminate].
  injection E as ->.
  apply nth_error_split in En. destruct En as (l1 & l2 & -> & Hl1).
  rewrite <- Hl1.
  assert (Hf : firstn (length l1) (l1 ++ x :: l2) = l1).
  { clear. induction l1 as [|z l1 IHl]; simpl; [reflexivity | f_equal; exact IHl]. }
  assert (Hs : skipn (S (length l1)) (l1 ++ x :: l2) = l2).
  { clear. induction l1 as [|z l1 IHl]; simpl; [reflexivity | exact IHl]. }
  change (match l1 ++ x :: l2 with
          | [] => []
          | _ :: l => skipn (length l1) l
          end) with (skipn (S (length l1)) (l1 ++ x :: l2)).
  rewrite Hf, Hs. clear Hf Hs.
  split; [exact Eb |]. split; [rewrite !length_app; reflexivity |].
  split.
  - rewrite !fold_left_app. simpl.
    assert (Hacc : forall (m : list Z) a b, fold_left Z.add m (a + b) = fold_left Z.add m a + b).
    { induction m as [|z m IHm]; intros a b; simpl; [reflexivity |].
      replace (a + b + z) with (a + z + b) by lia. apply IHm. }
    replace (fold_left Z.add l1 0 + (x + 1)) with (fold_left Z.add l1 0 + x + 1) by lia.
    apply Hacc.
  - intros j Hj Hne. unfold py_index, len.
    rewrite !length_app. simpl length.
    replace (j <? 0) with false by (symmetry; apply Z.ltb_ge; lia).
    destruct ((0 <=? j) && (j <? Z.of_nat (length l1 + S (length l2)))); [| reflexivity].
    assert (Hnth : nth_error (l1 ++ x + 1 :: l2) (Z.to_nat j)
                   = nth_error (l1 ++ x :: l2) (Z.to_nat j)).
    { destruct (Nat.lt_ge_cases (Z.to_nat j) (length l1)) as [Hlt | Hge].
      - rewrite !nth_error_app1 by exact Hlt. reflexivity.
      - rewrite !nth_error_app2 by exact Hge.
        destruct (Z.to_nat j - length l1)%nat as [|k] eqn:Ek; [| reflexivity].
        exfalso. apply Hne. lia. }
    rewrite Hnth. reflexivity.
Qed.

Section RunClaims.

Import DelayedRejectionAlgorithm.

Variable rng : RandomSource.
Variables old_set new_set : ParameterSet.
Variable RDR : list Np.matrix.
Variable ntry : Z.
Variable parameters : ModelParameters.
Variable invR : list Np.matrix.
Variable sosobj : SumOfSquares.
Variable priorobj : PriorFunction.

Let run_loop := run_loop rng old_set new_set RDR ntry parameters invR sosobj priorobj.
Let run_delayed_rejection :=
  run_delayed_rejection rng old_set new_set RDR ntry parameters invR sosobj priorobj.

(** The facts about a call that returns, in one place. *)
Lemma run_summary (w : World) (acc : Z) (out : ParameterSet) (flag : Z) (w' : World) :
  run_delayed_rejection w = Ok ((acc, out, flag), w') ->
  exists (v : Vars) (trials : list ParameterSet) (stages : list (list rng_call)),
    run_loop w = Ok (v, w') /\
    trypath v = old_set :: new_set :: trials /\
    1 <= len trials <= ntry - 1 /\
    length stages = length trials /\
    rng_calls w' = rng_calls w ++ concat stages /\
    Forall (stage_draws_ok (npar parameters)) stages /\
    model_calls w' = model_calls w ++ flat_map (stage_calls parameters) trials /\
    dr_step_counter w <= dr_step_counter w' /\
    ((acc = 0 /\ out = old_set /\ len trials = ntry - 1 /\ iacce w' = iacce w) \/
     (acc = 1 /\ flag = 0 /\ py_index trials (-1) = Ok out /\
      outside_bounds (theta out) parameters = Ok false /\
      (exists a, alpha out = Some a /\ unit_interval a) /\
      py_incr (iacce w) (len trials) = Ok (iacce w'))).
Proof.
  unfold run_delayed_rejection, DelayedRejectionAlgorithm.run_delayed_rejection.
  fold run_loop.
  destruct (run_loop w) as [[v w1]|e] eqn:HL; simpl; [| discriminate].
  destruct (ret v) as [[[acc' out'] flag']|e] eqn:HR; simpl; [| discriminate].
  intros [= -> -> -> ->].
  unfold run_loop, DelayedRejectionAlgorithm.run_loop in HL.
  pose proof (dr_loop_trace rng old_set new_set RDR ntry parameters invR sosobj priorobj
                _ _ _ _ _ HL) as (added & stages & Hp & Hi & Hl & Hr & Hf & Hm & Hc).
  pose proof (dr_loop_outcome rng old_set new_set RDR ntry parameters invR sosobj priorobj
                _ (mkVars [old_set; new_set] 1 0 None None) w v w' eq_refl HL) as Hout.
  cbn [itry trypath app] in Hp, Hi.
  assert (Hlen : len added = Z.of_nat (length added)) by reflexivity.
  unfold ret in HR.
  destruct Hout as [(-> & _ & _) | [(Hlt & H1 & H2 & H3 & H4 & H5) | (Hlt & H1 & H2 & H3)]].
  - simpl in HR. discriminate.
  - cbn [itry] in Hlt. rewrite H2 in HR. destruct H3 as (b & H3). rewrite H3 in HR.
    injection HR as <- <- <-.
    exists v, added, stages.
    split; [reflexivity |]. split; [exact Hp |]. split; [lia |].
    split; [exact Hl |]. split; [exact Hr |]. split; [exact Hf |].
    split; [exact Hm |]. split; [exact Hc |].
    left. repeat split; try assumption. lia.
  - cbn [itry] in Hlt, H2. destruct H3 as (o & a & G1 & G2 & G3 & G4 & G5 & G6 & G7).
    rewrite G2, G3 in HR. injection HR as <- <- <-.
    assert (Hne : added <> []).
    { intros ->. unfold len in Hi. simpl length in Hi. lia. }
    exists v, added, stages.
    split; [reflexivity |]. split; [exact Hp |]. split; [lia |].
    split; [exact Hl |]. split; [exact Hr |]. split; [exact Hf |].
    split; [exact Hm |]. split; [exact Hc |].
    right. split; [exact H1 |]. split; [reflexivity |].
    split.
    { rewrite Hp in G1.
      change (old_set :: new_set :: added) with ([old_set; new_set] ++ added) in G1.
      rewrite py_index_last_of_app in G1 by exact Hne. exact G1. }
    split; [exact G4 |]. split; [exists a; split; assumption |].
    replace (len added) with (itry v - 1) by lia. exact G7.
Qed.

(** X9. When [run_delayed_rejection] returns, between one and
    [ntry - 1] trials were added to the path.  Either nothing was
    accepted: then the state returned is [old_set], all [ntry - 1]
    stages were used and the acceptance counters are untouched.  Or the
    last trial was accepted: then it is the state returned, it lies
    inside the bounds, it carries its alpha, the flag is zero, and the
    counter of that stage was raised by one. *)
Theorem run_delayed_rejection_outcome (w : World) (acc : Z) (out : ParameterSet)
        (flag : Z) (w' : World) :
  run_delayed_rejection w = Ok ((acc, out, flag), w') ->
  exists (v : Vars) (trials : list ParameterSet),
    run_loop w = Ok (v, w') /\
    trypath v = old_set :: new_set :: trials /\
    1 <= len trials <= ntry - 1 /\
    ((acc = 0 /\ out = old_set /\ len trials = ntry - 1 /\ iacce w' = iacce w) \/
     (acc = 1 /\ flag = 0 /\ py_index trials (-1) = Ok out /\
      outside_bounds (theta out) parameters = Ok false /\
      (exists a, alpha out = Some a /\ unit_interval a) /\
      py_incr (iacce w) (len trials) = Ok (iacce w'))).
Proof.
  intros H. apply run_summary in H.
  destruct H as (v & trials & stages & H1 & H2 & H3 & _ & _ & _ & _ & _ & H4).
  exists v, trials. repeat split; try assumption; lia.
Qed.

(** X10. When [run_delayed_rejection] returns, the calls it has made on
    the random source are, stage after stage, one [randn(1, npar)]
    followed by at most one [rand(1)], for between one and [ntry - 1]
    stages, as many as there are trials on the path. *)
Theorem run_delayed_rejection_draws (w : World) (acc : Z) (out : ParameterSet)
        (flag : Z) (w' : World) :
  run_delayed_rejection w = Ok ((acc, out, flag), w') ->
  exists (v : Vars) (trials : list ParameterSet) (stages : list (list rng_call)),
    run_loop w = Ok (v, w') /\
    trypath v = old_set :: new_set :: trials /\
    length stages = length trials /\
    1 <= len stages <= ntry - 1 /\
    rng_calls w' = rng_calls w ++ concat stages /\
    Forall (stage_draws_ok (npar parameters)) stages.
Proof.
  intros H. apply run_summary in H.
  destruct H as (v & trials & stages & H1 & H2 & H3 & H4 & H5 & H6 & _).
  exists v, trials, stages. repeat split; try assumption; unfold len in *; lia.
Qed.

(** X11. When [run_delayed_rejection] returns, the collaborators were
    called for the trials inside the bounds and for no other vector:
    for each of them, in the order of the stages, the sum of squares and
    then the prior, once each. *)
Theorem run_delayed_rejection_model_calls (w : World) (acc : Z) (out : ParameterSet)
        (flag : Z) (w' : World) :
  run_delayed_rejection w = Ok ((acc, out, flag), w') ->
  exists (v : Vars) (trials : list ParameterSet),
    run_loop w = Ok (v, w') /\
    trypath v = old_set :: new_set :: trials /\
    model_calls w' = model_calls w ++ flat_map (stage_calls parameters) trials.
Proof.
  intros H. apply run_summary in H.
  destruct H as (v & trials & stages & H1 & H2 & _ & _ & _ & _ & H7 & _).
  exists v, trials. repeat split; assumption.
Qed.

(** X12. After [initialize_dr_metrics] with the same [ntry], a call of
    [run_delayed_rejection] that returns leaves [ntry] acceptance
    counters whose sum is the returned [accept]; the first counter, the
    one of the Metropolis stage, is still zero, and the step counter has
    not gone below zero. *)
Theorem initialized_counters (w0 w : World) (acc : Z) (out : ParameterSet)
        (flag : Z) (w' : World) :
  initialize_dr_metrics ntry w0 = Ok w ->
  run_delayed_rejection w = Ok ((acc, out, flag), w') ->
  len (iacce w') = ntry /\
  fold_left Z.add (iacce w') 0 = acc /\
  py_index (iacce w') 0 = Ok 0 /\
  0 <= dr_step_counter w'.
Proof.
  unfold initialize_dr_metrics. destruct (ntry <? 0) eqn:En; [discriminate |].
  apply Z.ltb_ge in En. intros [= <-] H. apply run_summary in H.
  destruct H as (v & trials & stages & _ & _ & Hn & _ & _ & _ & _ & Hc & Hout).
  simpl in Hc, Hout.
  assert (Hsum : forall n, fold_left Z.add (repeat 0 n) 0 = 0).
  { induction n as [|n IHn]; simpl; [reflexivity | exact IHn]. }
  assert (Hzero : py_index (repeat 0 (Z.to_nat ntry)) 0 = Ok 0).
  { unfold py_index, len. rewrite repeat_length. simpl.
    replace (0 <? Z.of_nat (Z.to_nat ntry)) with true by (symmetry; apply Z.ltb_lt; lia).
    destruct (Z.to_nat ntry) as [|k] eqn:Ek; [lia | reflexivity]. }
  destruct Hout as [(-> & _ & _ & ->) | (-> & _ & _ & _ & _ & Hinc)].
  - unfold len. rewrite repeat_length.
    split; [lia |]. split; [apply Hsum |]. split; [exact Hzero | lia].
  - apply py_incr_inv in Hinc; [| lia].
    destruct Hinc as (_ & Hl & Hs & Hj).
    unfold len. rewrite Hl, repeat_length.
    split; [lia |]. split; [rewrite Hs, Hsum; reflexivity |].
    split; [| lia]. rewrite Hj by lia. exact Hzero.
Qed.

End RunClaims.

Section RunWitnesses.

Import DelayedRejectionAlgorithm.
Import Examples.

Lemma run_delayed_rejection_outcome_witness :
  exists (v : Vars) (trials : list ParameterSet),
    run_loop (constant_rng 1 (1 / 2)) (state 0 10) (state 1 12) RDR2 2 box invR2
             (flat_sos 9) flat_prior fresh = Ok (v, after_acceptance) /\
    trypath v = state 0 10 :: state 1 12 :: trials /\
    1 <= len trials <= 2 - 1 /\
    ((1 = 0 /\ better_candidate (Some Num.one) = state 0 10 /\ len trials = 2 - 1 /\
      iacce after_acceptance = iacce fresh) \/
     (1 = 1 /\ 0 = 0 /\ py_index trials (-1) = Ok (better_candidate (Some Num.one)) /\
      outside_bounds (theta (better_candidate (Some Num.one))) box = Ok false /\
      (exists a, alpha (better_candidate (Some Num.one)) = Some a /\ unit_interval a) /\
      py_incr (iacce fresh) (len trials) = Ok (iacce after_acceptance))).
Proof.
  apply (run_delayed_rejection_outcome (constant_rng 1 (1 / 2)) (state 0 10)
           (state 1 12) RDR2 2 box invR2 (flat_sos 9) flat_prior fresh
           1 (better_candidate (Some Num.one)) 0 after_acceptance).
  apply near_run.
Defined.

Lemma run_delayed_rejection_draws_witness :
  exists (v : Vars) (trials : list ParameterSet) (stages : list (list rng_call)),
    run_loop (constant_rng 20 (1 / 2)) (state 0 10) (state 1 12) RDR2 2 box invR2
             (flat_sos 9) flat_prior fresh = Ok (v, log_rng (Randn 1) fresh) /\
    trypath v = state 0 10 :: state 1 12 :: trials /\
    length stages = length trials /\
    1 <= len stages <= 2 - 1 /\
    rng_calls (log_rng (Randn 1) fresh) = rng_calls fresh ++ concat stages /\
    Forall (stage_draws_ok (npar box)) stages.
Proof.
  apply (run_delayed_rejection_draws (constant_rng 20 (1 / 2)) (state 0 10)
           (state 1 12) RDR2 2 box invR2 (flat_sos 9) flat_prior fresh
           0 (state 0 10) 1 (log_rng (Randn 1) fresh)).
  apply far_run.
Defined.

Lemma run_delayed_rejection_model_calls_witness :
  exists (v : Vars) (trials : list ParameterSet),
    run_loop (constant_rng 1 (1 / 2)) (state 0 10) (state 1 12) RDR2 2 box invR2
             (flat_sos 9) flat_prior fresh = Ok (v, after_acceptance) /\
    trypath v = state 0 10 :: state 1 12 :: trials /\
    model_calls after_acceptance
    = model_calls fresh ++ flat_map (stage_calls box) trials.
Proof.
  apply (run_delayed_rejection_model_calls (constant_rng 1 (1 / 2)) (state 0 10)
           (state 1 12) RDR2 2 box invR2 (flat_sos 9) flat_prior fresh
           1 (better_candidate (Some Num.one)) 0 after_acceptance).
  apply near_run.
Defined.

Lemma initialized_counters_witness :
  len (iacce after_acceptance) = 2 /\
  fold_left Z.add (iacce after_acceptance) 0 = 1 /\
  py_index (iacce after_acceptance) 0 = Ok 0 /\
  0 <= dr_step_counter after_acceptance.
Proof.
  apply (initialized_counters (constant_rng 1 (1 / 2)) (state 0 10) (state 1 12) RDR2 2
           box invR2 (flat_sos 9) flat_prior (mkWorld [] [] [7] 5) fresh
           1 (better_candidate (Some Num.one)) 0 after_acceptance).
  - reflexivity.
  - apply near_run.
Defined.

End RunWitnesses.

(** ** The Metropolis step *)

Section MetropolisFacts.

Import Utilities.
Import Metropolis.

Lemma inside_candidate (th : list num) (parameters : ModelParameters) (lo up : list num) :
  well_indexed parameters ->
  len th = npar parameters ->
  ~ out_of_box th parameters ->
  fancy_index (lower_limits parameters) (parind parameters) = Ok lo ->
  fancy_index (upper_limits parameters) (parind parameters) = Ok up ->
  is_sample_outside_bounds th lo up = Ok false.
Proof.
  intros Hwi Hlen Hin Hlo Hup.
  rewrite (is_sample_outside_bounds_spec th parameters lo up Hlo Hup).
  destruct (outside_bounds_spec th parameters Hwi Hlen) as (b & Hb & Hiff).
  rewrite Hb. destruct b; [| reflexivity].
  exfalso. apply Hin, Hiff. reflexivity.
Qed.

(** X13. The sum-of-squares object matters only by being there: the
    value it returns is overwritten before use, so any two objects give
    the same step; and with the default [sos_object=None] every step
    whose candidate is inside the bounds ends in [AttributeError]. *)
Theorem sos_object_only_needs_to_exist (rng : RandomSource) (old_set : ParameterSet)
        (parameters : ModelParameters) (R : Np.matrix)
        (prior_object : PriorFunction) (like_object : LikelihoodFunction) (w : World) :
  (forall s1 s2 : SumOfSquares,
      run_metropolis_step rng old_set parameters R prior_object like_object (Some s1) w
      = run_metropolis_step rng old_set parameters R prior_object like_object (Some s2) w)
  /\
  (forall (newpar u : list num) (w1 : World),
      well_indexed parameters ->
      sample_candidate_from_gaussian_proposal rng (npar parameters) (theta old_set) R w
      = Ok ((newpar, u), w1) ->
      ~ out_of_box newpar parameters ->
      run_metropolis_step rng old_set parameters R prior_object like_object None w
      = Err AttributeError).
Proof.
  split.
  - intros s1 s2. unfold run_metropolis_step.
    destruct (sample_candidate_from_gaussian_proposal _ _ _ _ _)
      as [[[newpar u] w1]|e]; simpl; [| reflexivity].
    destruct (fancy_index (lower_limits parameters) _) as [lo|e]; simpl; [| reflexivity].
    destruct (fancy_index (upper_limits parameters) _) as [up|e]; simpl; [| reflexivity].
    destruct (is_sample_outside_bounds newpar lo up) as [[|]|e]; reflexivity.
  - intros newpar u w1 Hwi Hs Hin.
    destruct (sample_candidate_inv _ _ _ _ _ _ _ _ Hs) as [_ Hlen].
    pose proof Hwi as (_ & (lo & Hlo) & (up & Hup)).
    unfold run_metropolis_step. rewrite Hs. simpl. rewrite Hlo, Hup. simpl.
    rewrite (inside_candidate newpar parameters lo up Hwi Hlen Hin Hlo Hup).
    reflexivity.
Qed.

(** X14. A step whose candidate is inside the bounds calls the
    collaborators four times, in this order: the prior, the likelihood
    and the sum of squares on the candidate, then the sum of squares of
    the likelihood object on the full parameter vector [q], which is
    [initial_value] with the entries at [parind] replaced by the
    candidate. *)
Theorem metropolis_model_calls (rng : RandomSource) (old_set : ParameterSet)
        (parameters : ModelParameters) (R : Np.matrix)
        (prior_object : PriorFunction) (like_object : LikelihoodFunction)
        (sos_object : option SumOfSquares) (w : World)
        (accept : bool) (newset : ParameterSet) (u : list num) (w' : World) :
  run_metropolis_step rng old_set parameters R prior_object like_object sos_object w
  = Ok ((accept, newset, 0, u), w') ->
  exists q : list num,
    fancy_assign (initial_value parameters) (parind parameters) (theta newset) = Ok q /\
    model_calls w' =
    model_calls w ++ [CallPrior (theta newset); CallLikelihood (theta newset);
                      CallSos (theta newset); CallLikeSos q] /\
    ss newset = Some (like_evaluate_sos_function like_object q).
Proof.
  unfold run_metropolis_step.
  destruct (sample_candidate_from_gaussian_proposal _ _ _ _ _)
    as [[[newpar u'] w1]|e] eqn:Hs; simpl; [| discriminate].
  destruct (sample_candidate_inv _ _ _ _ _ _ _ _ Hs) as [-> _].
  destruct (fancy_index (lower_limits parameters) _) as [lo|e]; simpl; [| discriminate].
  destruct (fancy_index (upper_limits parameters) _) as [up|e]; simpl; [| discriminate].
  destruct (is_sample_outside_bounds newpar lo up) as [[|]|e]; simpl;
    [discriminate | | discriminate].
  destruct sos_object as [sos|]; simpl; [| discriminate].
  destruct (fancy_assign _ _ newpar) as [q|e] eqn:Hq; simpl; [| discriminate].
  destruct (need (ss old_set)) as [ss2|e]; simpl; [| discriminate].
  destruct (need (prior old_set)) as [p2|e]; simpl; [| discriminate].
  destruct (evaluate_likelihood_function _ _ _ _ _) as [a|e]; simpl; [| discriminate].
  unfold acceptance_test. destruct (Num.geb a Num.one).
  - intros [= <- <- <- <-]. simpl. exists q.
    split; [exact Hq |]. split; [| reflexivity].
    rewrite <- !app_assoc. reflexivity.
  - simpl. intros [= <- <- <- <-]. simpl. exists q.
    split; [exact Hq |]. split; [| reflexivity].
    rewrite <- !app_assoc. reflexivity.
Qed.

End MetropolisFacts.

Section MetropolisWitnesses.

Import Utilities.
Import Metropolis.
Import Examples.

Lemma near_inside_box : ~ out_of_box [Fin 1] box.
Proof.
  intros (j & x & i & Hx & Hi & H).
  destruct j as [|j]; simpl in Hx, Hi.
  - injection Hx as <-. injection Hi as <-.
    destruct H as [(l & Hl & Hlt) | (u & Hu & Hlt)].
    + injection Hl as <-. rewrite fin_ltb_false in Hlt by lra. discriminate.
    + injection Hu as <-. rewrite fin_ltb_false in Hlt by lra. discriminate.
  - destruct j; discriminate.
Qed.

Lemma sos_object_only_needs_to_exist_witness :
  run_metropolis_step (constant_rng 1 (9 / 10)) (state 0 10) box identity1
                      flat_prior (flat_like 14) (Some (flat_sos 14)) fresh
  = run_metropolis_step (constant_rng 1 (9 / 10)) (state 0 10) box identity1
                        flat_prior (flat_like 14) (Some (flat_sos 0)) fresh
  /\
  run_metropolis_step (constant_rng 1 (9 / 10)) (state 0 10) box identity1
                      flat_prior (flat_like 14) None fresh
  = Err AttributeError.
Proof.
  split.
  - apply (proj1 (sos_object_only_needs_to_exist (constant_rng 1 (9 / 10)) (state 0 10)
                    box identity1 flat_prior (flat_like 14) fresh)).
  - apply (proj2 (sos_object_only_needs_to_exist (constant_rng 1 (9 / 10)) (state 0 10)
                    box identity1 flat_prior (flat_like 14) fresh)
             [Fin 1] [Fin 1] (log_rng (Randn 1) fresh)).
    + apply box_well_indexed.
    + apply near_sample.
    + apply near_inside_box.
Defined.

Lemma metropolis_model_calls_witness :
  exists q : list num,
    fancy_assign (initial_value box) (parind box) (theta worse_candidate) = Ok q /\
    model_calls after_rejection =
    model_calls fresh ++ [CallPrior (theta worse_candidate);
                          CallLikelihood (theta worse_candidate);
                          CallSos (theta worse_candidate); CallLikeSos q] /\
    ss worse_candidate = Some (like_evaluate_sos_function (flat_like 14) q).
Proof.
  apply (metropolis_model_calls (constant_rng 1 (9 / 10)) (state 0 10) box identity1
           flat_prior (flat_like 14) (Some (flat_sos 14)) fresh
           false worse_candidate [Fin 1] after_rejection).
  apply near_step.
Defined.

End MetropolisWitnesses.

(** ** The acceptance ratio in the two directions *)

Section TwoDirections.

Import Metropolis.

Lemma misfit_from (l : list (R * R * R)) (a : R) :
  fold_left Rplus (map (fun t => let '(s1, s2, g) := t in ((s1 - s2) * / g)%R)
                       (swap_states l)) (- a)%R
  = (- fold_left Rplus (map (fun t => let '(s1, s2, g) := t in ((s1 - s2) * / g)%R) l) a)%R.
Proof.
  revert a. induction l as [|[[s1 s2] g] l IH]; intros a; simpl; [reflexivity |].
  replace (- a + (s2 - s1) * / g)%R with (- (a + (s1 - s2) * / g))%R by lra.
  apply IH.
Qed.

Lemma misfit_swap (l : list (R * R * R)) : misfit (swap_states l) = (- misfit l)%R.
Proof.
  unfold misfit. replace 0%R with (- 0)%R at 1 by lra. apply misfit_from.
Qed.

Lemma swap_states_fields (l : list (R * R * R)) :
  map (fun t => Fin (fst (fst t))) (swap_states l) = map (fun t => Fin (snd (fst t))) l /\
  map (fun t => Fin (snd (fst t))) (swap_states l) = map (fun t => Fin (fst (fst t))) l /\
  map (fun t => Fin (snd t)) (swap_states l) = map (fun t => Fin (snd t)) l.
Proof.
  unfold swap_states. rewrite !map_map.
  repeat split; apply map_ext; intros [[s1 s2] g]; reflexivity.
Qed.

(** X15. For arrays of finite numbers and one prior value each, the
    two values that [evaluate_likelihood_function] returns for the two
    directions between two states are never both below one. *)
Theorem evaluate_likelihood_function_one_direction (l : list (R * R * R)) (p1 p2 : R) :
  (forall s1 s2 g, In (s1, s2, g) l -> g <> 0%R) ->
  exists a b : num,
    evaluate_likelihood_function
      (Arr (map (fun t => Fin (fst (fst t))) l))
      (Arr (map (fun t => Fin (snd (fst t))) l))
      (Arr (map (fun t => Fin (snd t)) l))
      (Arr [Fin p1]) (Arr [Fin p2]) = Ok a /\
    evaluate_likelihood_function
      (Arr (map (fun t => Fin (snd (fst t))) l))
      (Arr (map (fun t => Fin (fst (fst t))) l))
      (Arr (map (fun t => Fin (snd t)) l))
      (Arr [Fin p2]) (Arr [Fin p1]) = Ok b /\
    (Num.ltb a Num.one = false \/ Num.ltb b Num.one = false).
Proof.
  intros Hg.
  exists (Fin (exp (- (1 / 2) * (misfit l + p1 - p2)))),
         (Fin (exp (- (1 / 2) * (misfit (swap_states l) + p2 - p1)))).
  split; [apply evaluate_likelihood_function_fin; exact Hg |].
  split.
  - destruct (swap_states_fields l) as (E1 & E2 & E3).
    rewrite <- E1, <- E2, <- E3.
    apply evaluate_likelihood_function_fin.
    intros s1 s2 g Hin. unfold swap_states in Hin. apply in_map_iff in Hin.
    destruct Hin as ([[a1 a2] a3] & [= <- <- <-] & Hin). apply (Hg a1 a2 a3 Hin).
  - rewrite misfit_swap. unfold Num.one.
    destruct (Rle_dec 0 (- (1 / 2) * (misfit l + p1 - p2))) as [H|H].
    + left. apply fin_ltb_false. apply exp_ge_1. exact H.
    + right. apply fin_ltb_false. apply exp_ge_1. lra.
Qed.

Lemma evaluate_likelihood_function_one_direction_witness :
  exists a b : num,
    evaluate_likelihood_function (Arr [Fin 14]) (Arr [Fin 10]) (Arr [Fin 1])
                                 (Arr [Fin 0]) (Arr [Fin 0]) = Ok a /\
    evaluate_likelihood_function (Arr [Fin 10]) (Arr [Fin 14]) (Arr [Fin 1])
                                 (Arr [Fin 0]) (Arr [Fin 0]) = Ok b /\
    (Num.ltb a Num.one = false \/ Num.ltb b Num.one = false).
Proof.
  apply (evaluate_likelihood_function_one_direction [(14, 10, 1)%R] 0 0).
  intros s1 s2 g [[= <- <- <-] | []]. lra.
Defined.

End TwoDirections.

(** ** The limits of the box *)

Section BoxFacts.

Import DelayedRejectionAlgorithm.

(** X16. The limits are inclusive and a NaN passes the check: when
    every component of the candidate is NaN or a finite number between
    its finite lower and upper limit, equality allowed, the bounds check
    of the Delayed Rejection loop answers [False]. *)
Theorem outside_bounds_limits_inclusive (th : list num) (parameters : ModelParameters) :
  well_indexed parameters ->
  len th = npar parameters ->
  (forall j x i,
      nth_error th j = Some x ->
      nth_error (parind parameters) j = Some i ->
      x = NaN \/
      exists rx rl ru : R,
        x = Fin rx /\
        py_index (lower_limits parameters) i = Ok (Fin rl) /\
        py_index (upper_limits parameters) i = Ok (Fin ru) /\
        (rl <= rx <= ru)%R) ->
  outside_bounds th parameters = Ok false.
Proof.
  intros Hw Hlen Hin.
  destruct (outside_bounds_spec th parameters Hw Hlen) as (b & Hb & Hiff).
  rewrite Hb. destruct b; [| reflexivity].
  exfalso. destruct (proj1 Hiff eq_refl) as (j & x & i & Hx & Hi & Hout).
  destruct (Hin j x i Hx Hi) as [-> | (rx & rl & ru & -> & Hl & Hu & Hr)].
  - destruct Hout as [(l & _ & Hlt) | (u & _ & Hlt)].
    + discriminate Hlt.
    + destruct u; discriminate Hlt.
  - destruct Hout as [(l & Hl' & Hlt) | (u & Hu' & Hlt)].
    + rewrite Hl in Hl'. injection Hl' as <-.
      rewrite fin_ltb_false in Hlt by lra. discriminate.
    + rewrite Hu in Hu'. injection Hu' as <-.
      rewrite fin_ltb_false in Hlt by lra. discriminate.
Qed.

Lemma outside_bounds_limits_inclusive_witness :
  outside_bounds [Fin 5] Examples.box = Ok false.
Proof.
  apply (outside_bounds_limits_inclusive [Fin 5] Examples.box).
  - apply box_well_indexed.
  - reflexivity.
  - intros [|j] x i Hx Hi; simpl in Hx, Hi.
    + injection Hx as <-. injection Hi as <-. right.
      exists 5%R, (-5)%R, 5%R.
      split; [reflexivity |]. split; [reflexivity |]. split; [reflexivity |]. lra.
    + destruct j; discriminate.
Defined.

End BoxFacts.

(** ** Writing the candidate into the full parameter vector *)

Section AssignFacts.

Lemma nth_error_update_same (q : list num) (n : nat) (x : num) :
  (n < length q)%nat ->
  nth_error (firstn n q ++ x :: skipn (S n) q) n = Some x.
Proof.
  intros H. rewrite nth_error_app2 by (rewrite length_firstn; lia).
  rewrite length_firstn, Nat.min_l by lia. rewrite Nat.sub_diag. reflexivity.
Qed.

Lemma nth_error_update_other (q : list num) (n k : nat) (x : num) :
  (n < length q)%nat -> k <> n ->
  nth_error (firstn n q ++ x :: skipn (S n) q) k = nth_error q k.
Proof.
  intros H Hk. destruct (Nat.lt_ge_cases k n) as [Hlt | Hge].
  - rewrite nth_error_app1 by (rewrite length_firstn; lia).
    rewrite nth_error_firstn.
    replace (k <? n)%nat with true by (symmetry; apply Nat.ltb_lt; exact Hlt).
    reflexivity.
  - rewrite nth_error_app2 by (rewrite length_firstn; lia).
    rewrite length_firstn, Nat.min_l by lia.
    destruct (k - n)%nat as [|m] eqn:E; [lia |].
    change (nth_error (x :: skipn (S n) q) (S m)) with (nth_error (skipn (S n) q) m).
    rewrite nth_error_skipn. f_equal. lia.
Qed.

Lemma length_update (q : list num) (n : nat) (x : num) :
  (n < length q)%nat ->
  length (firstn n q ++ x :: skipn (S n) q) = length q.
Proof.
  intros H. rewrite length_app, length_firstn.
  change (length (x :: skipn (S n) q)) with (S (length (skipn (S n) q))).
  rewrite length_skipn. lia.
Qed.

Lemma py_index_nonneg (q : list num) (i : Z) :
  0 <= i < len q ->
  py_index q i = match nth_error q (Z.to_nat i) with
                 | Some a => Ok a
                 | None => Err IndexError
                 end.
Proof.
  intros H. unfold py_index.
  replace (i <? 0) with false by (symmetry; apply Z.ltb_ge; lia).
  replace (0 <=? i) with true by (symmetry; apply Z.leb_le; lia).
  replace (i <? len q) with true by (symmetry; apply Z.ltb_lt; lia).
  reflexivity.
Qed.

Lemma assign_each_pointwise (idx : list Z) :
  forall (q vals : list num),
    NoDup idx ->
    (forall i, In i idx -> 0 <= i < len q) ->
    length idx = length vals ->
    exists q',
      assign_each q idx vals = Ok q' /\
      length q' = length q /\
      (forall j i, nth_error idx j = Some i ->
                   nth_error q' (Z.to_nat i) = nth_error vals j) /\
      (forall k, ~ In (Z.of_nat k) idx -> nth_error q' k = nth_error q k).
Proof.
  induction idx as [|i idx IH]; intros q vals Hnd Hr Hlen.
  - destruct vals; [| discriminate]. exists q. simpl.
    split; [reflexivity |]. split; [reflexivity |].
    split; [intros [|j] i; discriminate | reflexivity].
  - destruct vals as [|x vals]; [discriminate |].
    assert (Hi : 0 <= i < len q) by (apply Hr; left; reflexivity).
    assert (Hn : (Z.to_nat i < length q)%nat) by (unfold len in Hi; lia).
    inversion Hnd as [|? ? Hnotin Hnd']; subst.
    simpl. rewrite (py_index_nonneg q i Hi).
    destruct (nth_error q (Z.to_nat i)) eqn:E;
      [| apply nth_error_None in E; lia].
    simpl. replace (i <? 0) with false by (symmetry; apply Z.ltb_ge; lia).
    set (q1 := firstn (Z.to_nat i) q ++ x :: skipn (S (Z.to_nat i)) q).
    assert (L1 : length q1 = length q) by (apply length_update; exact Hn).
    destruct (IH q1 vals Hnd') as (q' & Hq' & Lq' & Hset & Hkeep).
    { intros i0 Hin. unfold len. rewrite L1. apply Hr. right. exact Hin. }
    { simpl in Hlen. lia. }
    exists q'. split; [exact Hq' |]. split; [congruence |]. split.
    + intros [|j] i0; simpl.
      * intros [= <-]. rewrite Hkeep by (rewrite Z2Nat.id by lia; exact Hnotin).
        apply nth_error_update_same. exact Hn.
      * apply Hset.
    + intros k Hk. rewrite Hkeep by (intros Hin; apply Hk; right; exact Hin).
      apply nth_error_update_other; [exact Hn |].
      intros ->. apply Hk. left. rewrite Z2Nat.id by lia. reflexivity.
Qed.

Lemma fancy_index_pointwise (a : list num) (idx : list Z) :
  forall vals : list num,
    length idx = length vals ->
    (forall i, In i idx -> 0 <= i < len a) ->
    (forall j i, nth_error idx j = Some i ->
                 nth_error a (Z.to_nat i) = nth_error vals j) ->
    fancy_index a idx = Ok vals.
Proof.
  induction idx as [|i idx IH]; intros vals Hlen Hr Hp.
  - destruct vals; [reflexivity | discriminate].
  - destruct vals as [|x vals]; [discriminate |].
    simpl. rewrite (py_index_nonneg a i) by (apply Hr; left; reflexivity).
    rewrite (Hp 0%nat i eq_refl). simpl.
    rewrite (IH vals).
    + reflexivity.
    + simpl in Hlen. lia.
    + intros i0 Hin. apply Hr. right. exact Hin.
    + intros j i0 Hj. apply (Hp (S j) i0 Hj).
Qed.

(** X17. Writing [vals] at distinct, non-negative, in-range positions
    [idx] of a copy of [q] succeeds and keeps the length; reading the
    result back at [idx] gives [vals], and every position that is not in
    [idx] keeps the value it had in [q]. *)
Theorem fancy_assign_read_back (q : list num) (idx : list Z) (vals : list num) :
  NoDup idx ->
  (forall i, In i idx -> 0 <= i < len q) ->
  length idx = length vals ->
  exists q',
    fancy_assign q idx vals = Ok q' /\
    len q' = len q /\
    fancy_index q' idx = Ok vals /\
    (forall k, 0 <= k < len q -> ~ In k idx -> py_index q' k = py_index q k).
Proof.
  intros Hnd Hr Hlen.
  destruct (assign_each_pointwise idx q vals Hnd Hr Hlen) as (q' & Hq' & Lq' & Hset & Hkeep).
  exists q'. unfold fancy_assign. rewrite (proj2 (Nat.eqb_eq _ _) Hlen).
  split; [exact Hq' |]. split; [unfold len; congruence |]. split.
  - apply fancy_index_pointwise; [exact Hlen | | exact Hset].
    intros i Hin. unfold len. rewrite Lq'. apply Hr. exact Hin.
  - intros k Hk Hnot.
    rewrite (py_index_nonneg q k Hk).
    rewrite (py_index_nonneg q' k) by (unfold len in *; lia).
    rewrite Hkeep; [reflexivity |]. rewrite Z2Nat.id by lia. exact Hnot.
Qed.

Lemma fancy_assign_read_back_witness :
  exists q',
    fancy_assign [Fin 0; Fin 1; Fin 2] [2; 0] [Fin 7; Fin 8] = Ok q' /\
    len q' = len [Fin 0; Fin 1; Fin 2] /\
    fancy_index q' [2; 0] = Ok [Fin 7; Fin 8] /\
    (forall k, 0 <= k < len [Fin 0; Fin 1; Fin 2] -> ~ In k [2; 0] ->
               py_index q' k = py_index [Fin 0; Fin 1; Fin 2] k).
Proof.
  apply (fancy_assign_read_back [Fin 0; Fin 1; Fin 2] [2; 0] [Fin 7; Fin 8]).
  - repeat constructor; simpl; intuition lia.
  - intros i [<- | [<- | []]]; unfold len; simpl; lia.
  - reflexivity.
Defined.

End AssignFacts.

(** ** Prediction intervals: the calls of the sampling loops *)

Section SamplingLoops.

Import PredictionIntervals.
Import Examples.

(** A loop whose body always returns, adding the events [ev k] to the
    trace, returns with the events of all its rounds in order. *)
Lemma pfor_trace (ks : list Z) (body : Z -> PM unit) (ev : Z -> list event) :
  (forall k t, In k ks -> body k t = (t ++ ev k, Ok tt)) ->
  forall t, pfor ks body t = (t ++ flat_map ev ks, Ok tt).
Proof.
  induction ks as [|k ks IH]; intros Hb t; simpl.
  - unfold pret. rewrite app_nil_r. reflexivity.
  - unfold pbind. rewrite Hb by (left; reflexivity).
    rewrite IH by (intros k0 t0 Hin; apply Hb; right; exact Hin).
    rewrite app_assoc. reflexivity.
Qed.

Lemma flat_map_nothing {A B : Type} (l : list A) : flat_map (fun _ => @nil B) l = [].
Proof. induction l; [reflexivity | exact IHl]. Qed.

Lemma flat_map_one {A B : Type} (g : A -> B) (l : list A) :
  flat_map (fun a => [g a]) l = map g l.
Proof. induction l as [|a l IH]; [reflexivity |]. cbn [flat_map map app]. congruence. Qed.

(** With at least as many samples as [interp1d] needs points, the
    quantile step returns. *)
Lemma quantile_columns_ok (interp_min : Z) (s2 : option shape) (k nr : Z) (js : list Z)
      (t : list event) :
  interp_min <= k ->
  pfor js (fun jj => quantile_column interp_min s2 k nr) t = (t, Ok tt).
Proof.
  intros Hk.
  rewrite (pfor_trace js _ (fun _ => [])).
  - rewrite flat_map_nothing, app_nil_r. reflexivity.
  - intros jj t0 _. unfold quantile_column, _empirical_quantiles. cbn [unpack2].
    unfold pbind, lift, pret.
    replace (k <? interp_min) with false by (symmetry; apply Z.ltb_ge; exact Hk).
    rewrite app_nil_r. destruct s2; reflexivity.
Qed.

(** The two nested loops, when every sample of data set [ii] returns
    and adds the events [ev ii]. *)
Lemma loops_trace (interp_min : Z) (o : Object) (s2 : option shape) (st : Z)
      (ix : row_index) (k : Z) (nr nc : Z -> Z) (ev : Z -> list event) :
  interp_min <= k ->
  (forall ii, 0 <= ii < ndatapred o ->
      py_index (nrow o) ii = Ok (nr ii) /\
      py_index (ncol o) ii = Ok (nc ii) /\
      forall t', sample_once o s2 st ix ii (nr ii) (nc ii) t' = (t' ++ ev ii, Ok tt)) ->
  forall t,
    pfor (py_range (ndatapred o))
         (fun ii =>
            nr <~ lift (py_index (nrow o) ii) ;;
            nc <~ lift (py_index (ncol o) ii) ;;
            _ <~ pfor (py_range k) (fun kk => sample_once o s2 st ix ii nr nc) ;;
            pfor (py_range nc) (fun jj => quantile_column interp_min s2 k nr)) t
    = (t ++ flat_map (fun ii => flat_map (fun _ => ev ii) (py_range k))
                     (py_range (ndatapred o)),
       Ok tt).
Proof.
  intros Hk Hrows. apply pfor_trace. intros ii t1 Hin.
  apply py_range_bounds in Hin. destruct (Hrows ii Hin) as (Enr & Enc & Hs).
  rewrite Enr, Enc.
  unfold pbind at 1. unfold lift at 1. unfold pbind at 1. unfold lift at 1.
  unfold pbind at 1.
  rewrite (pfor_trace (py_range k) _ (fun _ => ev ii)) by (intros kk t2 _; apply Hs).
  apply quantile_columns_ok. exact Hk.
Qed.

Lemma generate_plain_trace (interp_min : Z) (o : Object) (sstype nsample : option Z)
      (calc_pred_int_on : bool) (nsimu npar : Z) (nr nc : Z -> Z) (t : list event) :
  chain o = [nsimu; npar] ->
  calc_pred_int_on = false \/ s2chain o = None ->
  1 <= interp_min ->
  interp_min <= nsimu ->
  (forall n, nsample = Some n -> interp_min <= n) ->
  (forall ii, 0 <= ii < ndatapred o ->
      py_index (nrow o) ii = Ok (nr ii) /\
      py_index (ncol o) ii = Ok (nc ii) /\
      forall t', size (modelfunction o t' ii) = nr ii * nc ii) ->
  generate_prediction_intervals interp_min o sstype nsample calc_pred_int_on t =
  let n := match nsample with
           | None => nsimu
           | Some n => n
           end in
  (t ++ (if n >=? nsimu then [] else [RandUniform n 1])
     ++ flat_map (fun ii => flat_map (fun _ => [ModelEval ii])
                                     (py_range (if n >=? nsimu then nsimu else n)))
                 (py_range (ndatapred o)),
   Ok tt).
Proof.
  intros Hc Hs H1 Hsimu Hn Hrows. unfold generate_prediction_intervals.
  rewrite Hc. cbn [unpack2]. unfold pbind at 1. unfold lift at 1.
  assert (Es : (if calc_pred_int_on then s2chain o else None) = None).
  { destruct Hs as [-> | ->]; [reflexivity | destruct calc_pred_int_on; reflexivity]. }
  rewrite Es.
  set (n := match nsample with None => nsimu | Some n => n end).
  assert (Hn0 : interp_min <= n).
  { unfold n. destruct nsample as [k|]; [apply (Hn k eq_refl) | exact Hsimu]. }
  cbv zeta.
  assert (Hloops : forall ix k t0,
             interp_min <= k ->
             pfor (py_range (ndatapred o))
                  (fun ii =>
                     nr <~ lift (py_index (nrow o) ii) ;;
                     nc <~ lift (py_index (ncol o) ii) ;;
                     _ <~ pfor (py_range k)
                               (fun kk => sample_once o None
                                            match sstype with
                                            | None => sstype_attr o
                                            | Some _ => 0
                                            end ix ii nr nc) ;;
                     pfor (py_range nc)
                          (fun jj => quantile_column interp_min None k nr)) t0
             = (t0 ++ flat_map (fun ii => flat_map (fun _ => [ModelEval ii]) (py_range k))
                               (py_range (ndatapred o)), Ok tt)).
  { intros ix k t0 Hk. apply (loops_trace interp_min o None _ ix k nr nc); [exact Hk |].
    intros ii Hii. destruct (Hrows ii Hii) as (Enr & Enc & Hsz).
    split; [exact Enr |]. split; [exact Enc |].
    intros t'. unfold sample_once, pbind, call_model, lift, reshape2.
    rewrite Hsz, Z.eqb_refl. reflexivity. }
  destruct (n >=? nsimu) eqn:En.
  - unfold pbind at 1. unfold pret at 1. rewrite Hloops by exact Hsimu. reflexivity.
  - replace (n <? 0) with false by (symmetry; apply Z.ltb_ge; lia).
    unfold pbind at 1. unfold pbind at 1. unfold pret at 1.
    unfold pbind at 1. unfold emit at 1. unfold pret at 1.
    rewrite Hloops by exact Hn0. rewrite <- app_assoc. reflexivity.
Qed.

(** X18. Without error variances ([calc_pred_int] not ['on'], or no
    [s2chain]), with at least as many chain rows and samples as
    [interp1d] needs points, and a model function whose output always
    reshapes to [(nrow[ii], ncol[ii])], [generate_prediction_intervals]
    returns; it makes no normal draw, draws the uniform numbers only
    when fewer samples than chain rows are asked for, and evaluates the
    model once per sample for each data set in turn. *)
Theorem generate_without_variances (interp_min : Z) (o : Object)
        (sstype nsample : option Z) (calc_pred_int_on : bool) (nsimu npar : Z)
        (nr nc : Z -> Z) (t : list event) :
  chain o = [nsimu; npar] ->
  calc_pred_int_on = false \/ s2chain o = None ->
  1 <= interp_min ->
  interp_min <= nsimu ->
  (forall n, nsample = Some n -> interp_min <= n) ->
  (forall ii, 0 <= ii < ndatapred o ->
      py_index (nrow o) ii = Ok (nr ii) /\
      py_index (ncol o) ii = Ok (nc ii) /\
      forall t', size (modelfunction o t' ii) = nr ii * nc ii) ->
  generate_prediction_intervals interp_min o sstype nsample calc_pred_int_on t =
  let n := match nsample with
           | None => nsimu
           | Some n => n
           end in
  (t ++ (if n >=? nsimu then [] else [RandUniform n 1])
     ++ flat_map (fun ii => flat_map (fun _ => [ModelEval ii])
                                     (py_range (if n >=? nsimu then nsimu else n)))
                 (py_range (ndatapred o)),
   Ok tt).
Proof. apply generate_plain_trace. Qed.

Lemma generate_without_variances_witness :
  generate_prediction_intervals 2 pi_object None (Some 2) false []
  = ([RandUniform 2 1; ModelEval 0; ModelEval 0], Ok tt).
Proof.
  apply (generate_without_variances 2 pi_object None (Some 2) false 10 2
           (fun _ => 5) (fun _ => 1) []).
  - reflexivity.
  - left. reflexivity.
  - lia.
  - lia.
  - intros n [= <-]. lia.
  - intros ii Hii. simpl in Hii. assert (ii = 0) as -> by lia.
    split; [reflexivity |]. split; [reflexivity |]. intros t'. reflexivity.
Defined.

End SamplingLoops.

Section AllRows.

Import PredictionIntervals.
Import Examples.



Lemma observation_sample_row (ns my ny sstype : Z) (t : list event) :
  sstype = 0 \/ sstype = 1 \/ sstype = 2 ->
  _observation_sample [1; ns] [my; ny] sstype t =
  if (ns =? ny) || (ns =? 1)
  then (t ++ [StandardNormal [my; ny]], Ok [my; ny])
  else (t, Err (SystemExit
                  "Unclear data structure: error variances do not match size of model output")).
Proof.
  intros Hk. unfold _observation_sample. cbn [unpack2].
  unfold pbind at 1. unfold lift at 1. unfold pbind at 1. unfold lift at 1.
  assert (Hend : forall sh t0,
             (if sstype =? 0 then noisy [my; ny] sh my ny
              else if sstype =? 1 then noisy [my; ny] sh my ny
                   else if sstype =? 2 then noisy [my; ny] sh my ny
                        else sys_exit "Unknown sstype") t0
             = noisy [my; ny] sh my ny t0).
  { intros sh t0. destruct Hk as [-> | [-> | ->]]; reflexivity. }
  destruct (ns =? ny) eqn:E1.
  - apply Z.eqb_eq in E1. subst ns. cbn [negb andb orb].
    unfold pbind at 1. unfold pret at 1. rewrite Hend.
    unfold noisy, pbind, emit, size. cbn [fold_right].
    replace (ny =? 1 * (ny * 1)) with true by (symmetry; apply Z.eqb_eq; lia).
    reflexivity.
  - cbn [negb andb orb]. destruct (ns =? 1) eqn:E2.
    + cbn [negb andb]. unfold broadcast_dim.
      apply Z.eqb_eq in E2. subst ns. rewrite E1.
      replace (1 =? 1) with true by reflexivity.
      unfold pbind, lift, pret.
      rewrite Hend. unfold noisy, pbind, emit, pret, size. cbn [fold_right].
      replace (ny =? ny * (1 * 1)) with true by (symmetry; apply Z.eqb_eq; lia).
      reflexivity.
    + cbn [negb andb]. unfold pbind at 1. unfold sys_exit at 1. reflexivity.
Qed.

(** X20. For an [s2elem] of one row, which is what the sampling loop
    passes when the rows are drawn at random, and a known [sstype],
    [_observation_sample] returns an array of the shape of [ypred] after
    exactly one standard normal draw of that shape when [s2elem] has as
    many columns as [ypred] or a single one; otherwise it exits with
    ['Unclear data structure ...'] and has drawn nothing. *)
Theorem observation_sample_one_row (ns my ny sstype : Z) (t : list event) :
  sstype = 0 \/ sstype = 1 \/ sstype = 2 ->
  _observation_sample [1; ns] [my; ny] sstype t =
  if (ns =? ny) || (ns =? 1)
  then (t ++ [StandardNormal [my; ny]], Ok [my; ny])
  else (t, Err (SystemExit
                  "Unclear data structure: error variances do not match size of model output")).
Proof. apply observation_sample_row. Qed.

Lemma observation_sample_one_row_witness :
  _observation_sample [1; 1] [5; 3] 2 [] = ([StandardNormal [5; 3]], Ok [5; 3]).
Proof.
  apply (observation_sample_one_row 1 5 3 2 []). right. right. reflexivity.
Defined.

End AllRows.

Section SampledRows.

Import PredictionIntervals.
Import Examples.




End SampledRows.

(** ** Prediction intervals: the column ranges of [s2chain] *)

Section ColumnRanges.

Import PredictionIntervals.

Lemma set_row_middle (pre : list (Z * Z)) (z : Z * Z) (rest : list (Z * Z)) (row : Z * Z) :
  set_row (pre ++ z :: rest) (Z.of_nat (length pre)) row = pre ++ row :: rest.
Proof.
  unfold set_row. rewrite Nat2Z.id, firstn_app, skipn_app.
  rewrite firstn_all, Nat.sub_diag, (skipn_all2 pre) by lia.
  replace (S (length pre) - length pre)%nat with 1%nat by lia.
  cbn [firstn skipn app]. rewrite app_nil_r. reflexivity.
Qed.

Lemma py_index_middle {A : Type} (pre : list A) (x : A) (rest : list A) :
  py_index (pre ++ x :: rest) (Z.of_nat (length pre)) = Ok x.
Proof.
  unfold py_index, len. rewrite length_app. cbn [length].
  replace (Z.of_nat (length pre) <? 0) with false by (symmetry; apply Z.ltb_ge; lia).
  replace (0 <=? Z.of_nat (length pre)) with true by (symmetry; apply Z.leb_le; lia).
  replace (Z.of_nat (length pre) <? Z.of_nat (length pre + S (length rest))) with true
    by (symmetry; apply Z.ltb_lt; lia).
  cbn [andb]. rewrite Nat2Z.id, nth_error_app2 by lia.
  rewrite Nat.sub_diag. reflexivity.
Qed.

(** From the third data set on, every range starts where the one before
    stops. *)
Lemma chain_rows_from (width : Z -> res Z) (ws : list Z) :
  forall (pre0 : list (Z * Z)) (a b : Z),
    (1 <= length pre0)%nat ->
    (forall j w, nth_error ws j = Some w ->
                 width (Z.of_nat (S (length pre0) + j)) = Ok w) ->
    chain_rows (map Z.of_nat (seq (S (length pre0)) (length ws))) width
               (pre0 ++ (a, b) :: repeat (0, 0) (length ws))
    = Ok (pre0 ++ (a, b) :: consecutive_ranges b ws).
Proof.
  induction ws as [|w ws IH]; intros pre0 a b Hp Hw.
  - reflexivity.
  - cbn [length seq map chain_rows repeat consecutive_ranges].
    generalize (Hw 0%nat w eq_refl). rewrite Nat.add_0_r. intros ->. cbn [bind].
    replace (Z.of_nat (S (length pre0)) =? 1) with false
      by (symmetry; apply Z.eqb_neq; lia).
    replace (Z.of_nat (S (length pre0)) - 1) with (Z.of_nat (length pre0)) by lia.
    rewrite py_index_middle. cbn [bind].
    replace (pre0 ++ (a, b) :: (0, 0) :: repeat (0, 0) (length ws))
      with ((pre0 ++ [(a, b)]) ++ (0, 0) :: repeat (0, 0) (length ws))
      by (rewrite <- app_assoc; reflexivity).
    replace (S (length pre0)) with (length (pre0 ++ [(a, b)]))
      by (rewrite length_app; cbn [length]; lia).
    rewrite set_row_middle.
    rewrite (IH (pre0 ++ [(a, b)]) b (b + w)).
    + rewrite <- app_assoc. reflexivity.
    + rewrite length_app. cbn [length]. lia.
    + intros j w0 Hj.
      replace (S (length (pre0 ++ [(a, b)])) + j)%nat
        with (length (pre0 ++ [(a, b)]) + S j)%nat by lia.
      replace (length (pre0 ++ [(a, b)])) with (S (length pre0))
        by (rewrite length_app; cbn [length]; lia).
      apply (Hw (S j) w0). exact Hj.
Qed.

(** The first two rounds of the loop: the range of the first data set is
    computed from the last row of the table, which is still zero, and
    the range of the second data set starts at zero again. *)
Lemma chain_rows_table (width : Z -> res Z) (w0 w1 : Z) (ws : list Z) :
  width 0 = Ok w0 ->
  width 1 = Ok w1 ->
  (forall j w, nth_error ws j = Some w -> width (Z.of_nat (2 + j)) = Ok w) ->
  chain_rows (py_range (Z.of_nat (2 + length ws))) width
             (repeat (0, 0) (2 + length ws))
  = Ok ((0, w0) :: consecutive_ranges 0 (w1 :: ws)).
Proof.
  intros H0 H1 Hw. unfold py_range. rewrite Nat2Z.id.
  cbn [Nat.add seq map chain_rows].
  change (Z.of_nat 0) with 0. change (Z.of_nat 1) with 1.
  rewrite H0. cbn [bind].
  replace (0 =? 1) with false by reflexivity.
  replace (0 - 1) with (-1) by reflexivity.
  assert (Hlast : py_index (repeat (0, 0) (S (S (length ws)))) (-1) = Ok (0, 0)).
  { change (repeat (0, 0) (S (S (length ws))))
      with ((0, 0) :: repeat (0, 0) (S (length ws))).
    rewrite repeat_cons. apply py_index_last. }
  rewrite Hlast. cbn [bind].
  replace (1 =? 1) with true by reflexivity.
  rewrite H1. cbn [bind].
  change (set_row (repeat (0, 0) (S (S (length ws)))) 0 (0, 0 + w0))
    with ((0, 0 + w0) :: repeat (0, 0) (S (length ws))).
  change (set_row ((0, 0 + w0) :: repeat (0, 0) (S (length ws))) 1 (0, w1))
    with ([(0, 0 + w0)] ++ (0, w1) :: repeat (0, 0) (length ws)).
  change 2%nat with (S (length [(0, 0 + w0)])).
  rewrite (chain_rows_from width ws [(0, 0 + w0)] 0 w1).
  - reflexivity.
  - cbn [length]. lia.
  - intros j w Hj. apply (Hw j w Hj).
Qed.

(** X22. One error variance per column: when [s2chain] has as many
    columns as the data sets together (and more than one data set), the
    table of column ranges gives the first data set the columns from 0
    to its width, starts again at 0 for the second data set, and lets
    every later range follow the one before it. *)
Theorem analyze_s2chain_column_ranges (m n c0 c1 : Z) (cs : list Z) (t : list event) :
  n <> 1 ->
  fold_left Z.add (c0 :: c1 :: cs) 0 = n ->
  _analyze_s2chain [m; n] (len (c0 :: c1 :: cs)) (c0 :: c1 :: cs) t
  = (t, Ok ((0, c0) :: consecutive_ranges 0 (c1 :: cs))).
Proof.
  intros Hn Hsum. unfold _analyze_s2chain. cbn [unpack2].
  unfold pbind, lift.
  replace (n =? 1) with false by (symmetry; apply Z.eqb_neq; exact Hn).
  rewrite Hsum, Z.eqb_refl.
  unfold len. cbn [length]. rewrite Nat2Z.id.
  change (S (S (length cs))) with (2 + length cs)%nat.
  rewrite (chain_rows_table (py_index (c0 :: c1 :: cs)) c0 c1 cs).
  - reflexivity.
  - exact (py_index_middle [] c0 (c1 :: cs)).
  - exact (py_index_middle [c0] c1 cs).
  - intros j w Hj.
    change (c0 :: c1 :: cs) with ([c0; c1] ++ cs).
    assert (Hlt : (j < length cs)%nat) by (apply nth_error_Some; congruence).
    unfold py_index, len. rewrite length_app. cbn [length].
    replace (Z.of_nat (2 + j) <? 0) with false by (symmetry; apply Z.ltb_ge; lia).
    replace (0 <=? Z.of_nat (2 + j)) with true by (symmetry; apply Z.leb_le; lia).
    replace (Z.of_nat (2 + j) <? Z.of_nat (2 + length cs)) with true
      by (symmetry; apply Z.ltb_lt; lia).
    cbn [andb]. rewrite Nat2Z.id, nth_error_app2 by (cbn [length]; lia).
    cbn [length]. replace (2 + j - 2)%nat with j by lia. rewrite Hj. reflexivity.
Qed.

Lemma analyze_s2chain_column_ranges_witness :
  _analyze_s2chain [10; 6] (len [1; 2; 3]) [1; 2; 3] []
  = ([], Ok ((0, 1) :: consecutive_ranges 0 [2; 3])).
Proof.
  apply (analyze_s2chain_column_ranges 10 6 1 2 [3] []).
  - lia.
  - reflexivity.
Defined.

(** X23. One error variance per data set: when [s2chain] has as many
    columns as there are data sets (at least two) and not as many as
    the model outputs have together, the first two data sets both get
    column 0 and every later one the column after its predecessor's. *)
Theorem analyze_s2chain_batch_ranges (m n : Z) (ncol : list Z) (t : list event) :
  2 <= n ->
  fold_left Z.add ncol 0 <> n ->
  _analyze_s2chain [m; n] n ncol t
  = (t, Ok ((0, 1) :: consecutive_ranges 0 (repeat 1 (Z.to_nat (n - 1))))).
Proof.
  intros Hn Hsum. unfold _analyze_s2chain. cbn [unpack2].
  unfold pbind, lift.
  replace (n =? 1) with false by (symmetry; apply Z.eqb_neq; lia).
  replace (fold_left Z.add ncol 0 =? n) with false
    by (symmetry; apply Z.eqb_neq; exact Hsum).
  rewrite Z.eqb_refl.
  assert (Hk : exists k : nat, n = Z.of_nat (2 + k)) by (exists (Z.to_nat (n - 2)); lia).
  destruct Hk as (k & ->).
  replace (Z.to_nat (Z.of_nat (2 + k) - 1)) with (S k) by lia.
  rewrite Nat2Z.id.
  assert (Ht := chain_rows_table (fun _ => Ok 1) 1 1 (repeat 1 k) eq_refl eq_refl).
  rewrite repeat_length in Ht. rewrite Ht; [reflexivity |].
  intros j w Hj. apply nth_error_In, repeat_spec in Hj. subst w. reflexivity.
Qed.

Lemma analyze_s2chain_batch_ranges_witness :
  _analyze_s2chain [10; 3] 3 [2; 2; 2] []
  = ([], Ok ((0, 1) :: consecutive_ranges 0 (repeat 1 (Z.to_nat (3 - 1))))).
Proof.
  apply (analyze_s2chain_batch_ranges 10 3 [2; 2; 2] []).
  - lia.
  - simpl. lia.
Defined.

End ColumnRanges.

(** ** Prediction intervals: what the setup leaves behind *)

Section SetupFacts.

Import PredictionIntervals.
Import Examples.

Lemma collect_inv (f : Z -> PM (Z * Z)) (ev : Z -> list event) :
  (forall ii t t' r, f ii t = (t', Ok r) -> t' = t ++ ev ii) ->
  forall (iis : list Z) (t t' : list event) (rs cs : list Z),
    collect iis f t = (t', Ok (rs, cs)) ->
    t' = t ++ flat_map ev iis /\ length rs = length iis /\ length cs = length iis.
Proof.
  intros Hf. induction iis as [|ii iis IH]; intros t t' rs cs H.
  - cbn [collect] in H. unfold pret in H. injection H as <- <- <-.
    rewrite app_nil_r. repeat split.
  - cbn [collect] in H. apply pbind_inv in H.
    destruct H as [(e & _ & [=]) | ([r c] & t1 & H1 & H)].
    apply pbind_inv in H.
    destruct H as [(e & _ & [=]) | ([rs' cs'] & t2 & H2 & H)].
    unfold pret in H. injection H as <- <- <-.
    apply Hf in H1. destruct (IH _ _ _ _ H2) as (-> & Lr & Lc). subst t1.
    cbn [flat_map length]. rewrite app_assoc. repeat split; congruence.
Qed.

Lemma length_set_row (idx : list (Z * Z)) (ii : Z) (row : Z * Z) :
  0 <= ii < len idx -> length (set_row idx ii row) = length idx.
Proof.
  unfold len, set_row. intros H. rewrite length_app, length_firstn.
  change (length (row :: skipn (S (Z.to_nat ii)) idx))
    with (S (length (skipn (S (Z.to_nat ii)) idx))).
  rewrite length_skipn. lia.
Qed.

Lemma chain_rows_length (width : Z -> res Z) (iis : list Z) :
  forall idx idx' : list (Z * Z),
    (forall ii, In ii iis -> 0 <= ii < Z.of_nat (length idx)) ->
    chain_rows iis width idx = Ok idx' ->
    length idx' = length idx.
Proof.
  induction iis as [|ii iis IH]; intros idx idx' Hin H.
  - cbn [chain_rows] in H. congruence.
  - cbn [chain_rows] in H.
    assert (Hii : 0 <= ii < len idx) by (apply Hin; left; reflexivity).
    destruct (width ii) as [w|e]; cbn [bind] in H; [| discriminate].
    assert (Hnext : forall row idx1,
               chain_rows iis width (set_row idx ii row) = Ok idx1 ->
               length idx1 = length idx).
    { intros row idx1 H1. rewrite <- (length_set_row idx ii row Hii).
      apply (IH _ _ ltac:(intros k Hk; rewrite length_set_row by exact Hii;
                          apply Hin; right; exact Hk) H1). }
    destruct (ii =? 1); [apply (Hnext _ _ H) |].
    destruct (py_index idx (ii - 1)) as [[a b]|e]; cbn [bind] in H; [| discriminate].
    apply (Hnext _ _ H).
Qed.

Lemma analyze_s2chain_inv (s2 : shape) (nb : Z) (nc : list Z) (t t' : list event)
      (idx : list (Z * Z)) :
  0 <= nb ->
  _analyze_s2chain s2 nb nc t = (t', Ok idx) ->
  t' = t /\ len idx = nb /\
  (forall m, s2 = [m; 1] -> idx = repeat (0, 1) (Z.to_nat nb)).
Proof.
  intros Hnb H. unfold _analyze_s2chain in H.
  apply pbind_inv in H. destruct H as [(e & _ & [=]) | ([m n] & t1 & H1 & H)].
  unfold lift in H1. injection H1 as <- H1.
  assert (Hchain : forall width,
             lift (chain_rows (py_range nb) width (repeat (0, 0) (Z.to_nat nb))) t
             = (t', Ok idx) -> t' = t /\ len idx = nb).
  { intros width Hc. unfold lift in Hc. injection Hc as <- Hc. split; [reflexivity |].
    apply chain_rows_length in Hc.
    - unfold len. rewrite Hc, repeat_length. lia.
    - intros ii Hii. apply py_range_bounds in Hii. rewrite repeat_length. lia. }
  destruct (n =? 1) eqn:En.
  - unfold pret in H. injection H as <- <-. split; [reflexivity |]. split.
    + unfold len. rewrite length_map, repeat_length. lia.
    + intros _ _. clear Hchain. induction (Z.to_nat nb) as [|k IH]; [reflexivity |].
      cbn [repeat map]. f_equal. exact IH.
  - assert (Hne : forall m0, s2 = [m0; 1] -> idx = repeat (0, 1) (Z.to_nat nb)).
    { intros m0 ->. cbn [unpack2] in H1. injection H1 as _ <-. discriminate En. }
    destruct (_ =? n); [destruct (Hchain _ H); auto |].
    destruct (n =? nb); [destruct (Hchain _ H); auto |].
    unfold sys_exit in H. discriminate.
Qed.

Lemma setup_inv (s : Setup) (t t' : list event) (o : Object) :
  setup_prediction_interval_calculation s t = (t', Ok o) ->
  t' = t ++ map ModelEval (py_range (len (dshapes s))) /\
  chain o = results_chain s /\
  s2chain o = results_s2chain s /\
  sstype_attr o = match results_sstype s with
                  | Some v => v
                  | None => 0
                  end /\
  ndatapred o = len (dshapes s) /\
  len (nrow o) = ndatapred o /\
  len (ncol o) = ndatapred o /\
  modelfunction o = model_output s /\
  match s2chain_index o with
  | Some idx =>
      len idx = ndatapred o /\
      exists s2, results_s2chain s = Some s2 /\
                 forall m, s2 = [m; 1] -> idx = repeat (0, 1) (Z.to_nat (ndatapred o))
  | None => results_s2chain s = None
  end.
Proof.
  intros H. unfold setup_prediction_interval_calculation in H.
  apply pbind_inv in H. destruct H as [(e & _ & [=]) | ([rs0 cs0] & t1 & H1 & H)].
  apply (collect_inv _ (fun _ => [])) in H1;
    [| intros ii t0 t0' r Hl; unfold lift in Hl; injection Hl as <- _;
       rewrite app_nil_r; reflexivity].
  destruct H1 as (-> & _ & _). rewrite flat_map_nothing, app_nil_r in H.
  apply pbind_inv in H. destruct H as [(e & _ & [=]) | ([nr nc] & t2 & H2 & H)].
  apply (collect_inv _ (fun ii => [ModelEval ii])) in H2.
  2:{ intros ii t0 t0' r Hl. apply pbind_inv in Hl.
      destruct Hl as [(e & _ & [=]) | (y & t3 & H3 & Hl)].
      unfold call_model in H3. injection H3 as <- _.
      unfold lift in Hl. injection Hl as <- _.
      reflexivity. }
  destruct H2 as (-> & Lr & Lc). rewrite flat_map_one in H.
  assert (Hlen : Z.of_nat (length (py_range (len (dshapes s)))) = len (dshapes s)).
  { unfold py_range, len. rewrite length_map, length_seq. lia. }
  apply pbind_inv in H. destruct H as [(e & _ & [=]) | (oi & t3 & H3 & H)].
  unfold pret in H. injection H as <- <-. cbn [chain s2chain sstype_attr ndatapred
                                                nrow ncol s2chain_index modelfunction].
  assert (Hr : len nr = len (dshapes s)) by (unfold len at 1; rewrite Lr; exact Hlen).
  assert (Hc : len nc = len (dshapes s)) by (unfold len at 1; rewrite Lc; exact Hlen).
  destruct (results_s2chain s) as [s2|] eqn:Es2.
  - apply pbind_inv in H3. destruct H3 as [(e & _ & [=]) | (i & t4 & H4 & H3)].
    unfold pret in H3. injection H3 as <- <-.
    apply analyze_s2chain_inv in H4; [| unfold len; lia].
    destruct H4 as (-> & Li & Hone).
    repeat (split; [first [reflexivity | assumption] |]).
    exists s2. split; [reflexivity | exact Hone].
  - unfold pret in H3. injection H3 as <- <-.
    repeat (split; [first [reflexivity | assumption] |]). reflexivity.
Qed.

(** X24. When [setup_prediction_interval_calculation] returns, it has
    evaluated the model exactly once for each data set, in order, and
    drawn nothing; the object holds the chain, the [s2chain] and the
    [sstype] of the results (0 when the key is missing), one row count
    and one column count per data set, and a table of column ranges
    with one row per data set exactly when there is an [s2chain]. *)
Theorem setup_object (s : Setup) (t t' : list event) (o : Object) :
  setup_prediction_interval_calculation s t = (t', Ok o) ->
  t' = t ++ map ModelEval (py_range (len (dshapes s))) /\
  chain o = results_chain s /\
  s2chain o = results_s2chain s /\
  sstype_attr o = match results_sstype s with
                  | Some v => v
                  | None => 0
                  end /\
  ndatapred o = len (dshapes s) /\
  len (nrow o) = ndatapred o /\
  len (ncol o) = ndatapred o /\
  match s2chain_index o with
  | Some idx => len idx = ndatapred o /\ results_s2chain s <> None
  | None => results_s2chain s = None
  end.
Proof.
  intros H.
  destruct (setup_inv s t t' o H) as (Ht & Hc & Hs & Hss & Hn & Hr & Hcn & _ & Hi).
  repeat (split; [assumption |]).
  destruct (s2chain_index o) as [idx|]; [| exact Hi].
  destruct Hi as (Hl & s2 & -> & _). split; [exact Hl | discriminate].
Qed.

Lemma setup_object_witness :
  [ModelEval 0] = [] ++ map ModelEval (py_range (len (dshapes pi_setup))) /\
  chain pi_object = results_chain pi_setup /\
  s2chain pi_object = results_s2chain pi_setup /\
  sstype_attr pi_object = match results_sstype pi_setup with
                          | Some v => v
                          | None => 0
                          end /\
  ndatapred pi_object = len (dshapes pi_setup) /\
  len (nrow pi_object) = ndatapred pi_object /\
  len (ncol pi_object) = ndatapred pi_object /\
  match s2chain_index pi_object with
  | Some idx => len idx = ndatapred pi_object /\ results_s2chain pi_setup <> None
  | None => results_s2chain pi_setup = None
  end.
Proof.
  apply (setup_object pi_setup [] [ModelEval 0] pi_object). reflexivity.
Defined.

End SetupFacts.

(** ** Prediction intervals: setup followed by sampling *)

Section SetupThenGenerate.

Import PredictionIntervals.
Import Examples.








End SetupThenGenerate.
